(** * Checkpoints and rollback: the [Reverter] class of
    [letsencrypt/client/reverter.py]

    The class keeps its checkpoints in directories of plain files, so the
    program is embedded as state-passing code over a small model of the
    file system: a finite map from path strings to nodes, a log of the
    records handed to [logging], and the wall clock. Python exceptions are
    the error half of the result type; a raised exception keeps the state
    reached so far, as the side effects of a Python call do. *)

From Stdlib Require Import ZArith String Ascii List Bool Lia.
From Stdlib Require Import Floats.PrimFloat.
From Stdlib Require Import Sorting.Permutation Sorting.Sorted.
From stdpp Require Import gmap strings list fin_maps pretty.

Open Scope string_scope.
Open Scope Z_scope.
Open Scope list_scope.

(** ** Strings as Python 2 uses them *)

Definition LF : ascii := ascii_of_nat 10.
Definition CR : ascii := ascii_of_nat 13.
Definition SLASH : ascii := "/"%char.

Definition nl : string := String LF "".

Definition is_break (c : ascii) : bool :=
  Ascii.eqb c LF || Ascii.eqb c CR.

(** Puts a character in front of the first line of a list of lines. *)
Definition cons_line (c : ascii) (ls : list string) : list string :=
  match ls with
  | [] => [String c ""]
  | l :: ls' => String c l :: ls'
  end.

(** [str.splitlines()] of a Python 2 byte string: lines end at "\n", at
    "\r" and at "\r\n"; the terminators are dropped and a final terminator
    does not open an empty last line. *)
Fixpoint splitlines (s : string) : list string :=
  match s with
  | "" => []
  | String c s' =>
      if Ascii.eqb c LF then "" :: splitlines s'
      else if Ascii.eqb c CR then
        match s' with
        | String c' s'' =>
            if Ascii.eqb c' LF then "" :: splitlines s''
            else "" :: splitlines s'
        | "" => "" :: splitlines s'
        end
      else cons_line c (splitlines s')
  end.

(** A path that survives being written as one line of a list file. *)
Fixpoint line_safe (s : string) : bool :=
  match s with
  | "" => true
  | String c s' => negb (is_break c) && line_safe s'
  end.

Fixpoint has_slash (s : string) : bool :=
  match s with
  | "" => false
  | String c s' => Ascii.eqb c SLASH || has_slash s'
  end.

Definition starts_with_slash (s : string) : bool :=
  match s with
  | String c _ => Ascii.eqb c SLASH
  | "" => false
  end.

Fixpoint ends_with_slash (s : string) : bool :=
  match s with
  | "" => false
  | String c "" => Ascii.eqb c SLASH
  | String _ s' => ends_with_slash s'
  end.

(** [os.path.join(a, b)] of posixpath, for two components. *)
Definition os_path_join (a b : string) : string :=
  if starts_with_slash b then b
  else if String.eqb a "" || ends_with_slash a then a +:+ b
  else a +:+ "/" +:+ b.

(** [posixpath.split] before the head is stripped: the head keeps its
    final slash, the tail is what follows the last slash. *)
Fixpoint split_last (s : string) : string * string :=
  match s with
  | "" => ("", "")
  | String c s' =>
      let '(h, t) := split_last s' in
      if negb (String.eqb h "") then (String c h, t)
      else if Ascii.eqb c SLASH then ("/", t)
      else ("", String c t)
  end.

(** [os.path.basename(p)]: [p[p.rfind('/') + 1:]]. *)
Definition os_path_basename (p : string) : string := snd (split_last p).

(** [head.rstrip('/')]. *)
Fixpoint rstrip_slash (s : string) : string :=
  match s with
  | "" => ""
  | String c s' =>
      let r := rstrip_slash s' in
      if String.eqb r "" && Ascii.eqb c SLASH then "" else String c r
  end.

(** [os.path.dirname(p)]: the head, without its trailing slashes unless it
    is made of slashes only. *)
Definition os_path_dirname (p : string) : string :=
  let h := fst (split_last p) in
  if String.eqb (rstrip_slash h) "" then h else rstrip_slash h.

Fixpoint drop_string (n : nat) (s : string) : string :=
  match n, s with
  | O, _ => s
  | S n', String _ s' => drop_string n' s'
  | S _, "" => ""
  end.

(** [str(n)] of a non-negative [int], and ["%d" % z]. *)
Definition str_nat (n : nat) : string := pretty n.
Definition str_int (z : Z) : string := pretty z.

(** ** The file system, the log and the clock *)

(** A regular file has its bytes and its permission bits; [shutil.copy2]
    copies both. Directories are plain markers: every path below a
    directory [d] starts with [d] and a slash. Paths are looked up as the
    program spells them: no symbolic links, no normalisation. *)
Inductive node : Type :=
| File (content : string) (mode : Z)
| Dir.

Inductive level : Type := DEBUG | INFO | WARNING | ERROR | FATAL.

Record state : Type := State {
  fs : gmap string node;
  log : list (level * string);
  clock : float
}.

Definition set_fs (st : state) (m : gmap string node) : state :=
  {| fs := m; log := log st; clock := clock st |}.

(** The exceptions that can leave a method of the class. [shutil.Error] is
    an [EnvironmentError] of its own, neither an [IOError] nor an [OSError];
    [DirectoryError] is what the directory helper fails with. *)
Inductive exn : Type :=
| LetsEncryptReverterError (msg : string)
| IOError
| OSError
| ShutilError
| ValueError
| DirectoryError
| SystemExit (code : Z).

Inductive result (A : Type) : Type :=
| Ok (a : A)
| Exc (e : exn).
Arguments Ok {A} a.
Arguments Exc {A} e.

Definition M (A : Type) : Type := state -> result A * state.

Definition ret {A} (a : A) : M A := fun st => (Ok a, st).

Definition bind {A B} (m : M A) (k : A -> M B) : M B :=
  fun st =>
    match m st with
    | (Ok a, st') => k a st'
    | (Exc e, st') => (Exc e, st')
    end.

Definition raise {A} (e : exn) : M A := fun st => (Exc e, st).

(** [try: m  except ...: h]. The handler answers [None] for an exception
    its clause does not name, which then keeps propagating. *)
Definition try_except {A} (m : M A) (h : exn -> option (M A)) : M A :=
  fun st =>
    match m st with
    | (Ok a, st') => (Ok a, st')
    | (Exc e, st') =>
        match h e with
        | Some k => k st'
        | None => (Exc e, st')
        end
    end.

Declare Scope py_scope.
Delimit Scope py_scope with py.
Notation "x <- m ;; k" := (bind m (fun x => k))
  (at level 100, m at next level, right associativity) : py_scope.
Notation "m ;;; k" := (bind m (fun _ => k))
  (at level 100, right associativity) : py_scope.
Open Scope py_scope.

(** [except (IOError, OSError):] *)
Definition on_io_os_error {A} (k : M A) (e : exn) : option (M A) :=
  match e with
  | IOError | OSError => Some k
  | _ => None
  end.

(** [except OSError:] *)
Definition on_os_error {A} (k : M A) (e : exn) : option (M A) :=
  match e with
  | OSError => Some k
  | _ => None
  end.

(** [except ValueError:] *)
Definition on_value_error {A} (k : M A) (e : exn) : option (M A) :=
  match e with
  | ValueError => Some k
  | _ => None
  end.

(** [except errors.LetsEncryptReverterError:] *)
Definition on_reverter_error {A} (k : M A) (e : exn) : option (M A) :=
  match e with
  | LetsEncryptReverterError _ => Some k
  | _ => None
  end.

Definition logging (lv : level) (msg : string) : M unit :=
  fun st => (Ok tt, {| fs := fs st; log := log st ++ [(lv, msg)]; clock := clock st |}).

Definition time_time : M float := fun st => (Ok (clock st), st).

(** ** Operating-system calls *)

(** Access follows the owner's permission bits, as for the unprivileged
    owner of the files: 0o400 to read, 0o200 to write. *)
Definition readable (mode : Z) : bool := Z.testbit mode 8.
Definition writable (mode : Z) : bool := Z.testbit mode 7.

(** Mode of a file created by [open]: 0o666 under the usual umask 0o022. *)
Definition default_mode : Z := 420.

Definition isdir (m : gmap string node) (p : string) : bool :=
  match m !! p with
  | Some Dir => true
  | _ => false
  end.

Definition isfile (m : gmap string node) (p : string) : bool :=
  match m !! p with
  | Some (File _ _) => true
  | _ => false
  end.

Definition lexists (m : gmap string node) (p : string) : bool :=
  match m !! p with
  | Some _ => true
  | None => false
  end.

(** [under d p]: path [p] lies below directory [d]. *)
Definition under (d p : string) : bool :=
  String.prefix (os_path_join d "") p.

Definition in_tree (d p : string) : bool :=
  String.eqb p d || under d p.

Definition os_path_isdir (p : string) : M bool :=
  fun st => (Ok (isdir (fs st) p), st).

Definition os_path_isfile (p : string) : M bool :=
  fun st => (Ok (isfile (fs st) p), st).

Definition os_path_lexists (p : string) : M bool :=
  fun st => (Ok (lexists (fs st) p), st).

(** [open(p).read()], and [fd.read()] on a descriptor open for reading. *)
Definition read_file (p : string) : M string :=
  fun st =>
    match fs st !! p with
    | Some (File c mode) =>
        if readable mode then (Ok c, st) else (Exc IOError, st)
    | _ => (Exc IOError, st)
    end.

(** A new file needs its directory: what [os.path.dirname] gives, the
    empty name being the working directory, or the same with the final
    slash it was made with. *)
Definition parent_ok (m : gmap string node) (p : string) : bool :=
  let d := os_path_dirname p in
  String.eqb d "" || isdir m d || isdir m (fst (split_last p)).

(** [open(p, 'w')]: truncates or creates. *)
Definition open_w (p : string) : M unit :=
  fun st =>
    match fs st !! p with
    | Some (File _ mode) =>
        if writable mode then (Ok tt, set_fs st (<[p := File "" mode]> (fs st)))
        else (Exc IOError, st)
    | Some Dir => (Exc IOError, st)
    | None =>
        if parent_ok (fs st) p
        then (Ok tt, set_fs st (<[p := File "" default_mode]> (fs st)))
        else (Exc IOError, st)
    end.

(** [open(p, 'a')]: creates when missing, keeps the content. *)
Definition open_a (p : string) : M unit :=
  fun st =>
    match fs st !! p with
    | Some (File _ mode) =>
        if writable mode then (Ok tt, st) else (Exc IOError, st)
    | Some Dir => (Exc IOError, st)
    | None =>
        if parent_ok (fs st) p
        then (Ok tt, set_fs st (<[p := File "" default_mode]> (fs st)))
        else (Exc IOError, st)
    end.

(** [open(p, 'r+')]: the file must exist, readable and writable. *)
Definition open_rw (p : string) : M unit :=
  fun st =>
    match fs st !! p with
    | Some (File _ mode) =>
        if readable mode && writable mode then (Ok tt, st) else (Exc IOError, st)
    | _ => (Exc IOError, st)
    end.

(** [fd.write(s)] on a descriptor whose position is the end of the file
    (after [open(.., 'w')], [open(.., 'a')], or a full [read()] in 'r+').
    The descriptor is named by its path; the bytes reach the file at
    once. *)
Definition fd_write (p : string) (s : string) : M unit :=
  fun st =>
    match fs st !! p with
    | Some (File c mode) => (Ok tt, set_fs st (<[p := File (c +:+ s) mode]> (fs st)))
    | _ => (Ok tt, st)
    end.

(** [shutil.copy2(src, dst)]: into [dst] when it is a directory;
    [shutil.Error] when source and destination are the same file;
    otherwise content and mode of [src] replace [dst]. *)
Definition shutil_copy2 (src dst : string) : M unit :=
  fun st =>
    let dst := if isdir (fs st) dst
               then os_path_join dst (os_path_basename src) else dst in
    if String.eqb src dst && lexists (fs st) src then (Exc ShutilError, st)
    else
      match fs st !! src with
      | Some (File c mode) =>
          if readable mode then
            match fs st !! dst with
            | Some (File _ dmode) =>
                if writable dmode
                then (Ok tt, set_fs st (<[dst := File c mode]> (fs st)))
                else (Exc IOError, st)
            | Some Dir => (Exc IOError, st)
            | None =>
                if parent_ok (fs st) dst
                then (Ok tt, set_fs st (<[dst := File c mode]> (fs st)))
                else (Exc IOError, st)
            end
          else (Exc IOError, st)
      | _ => (Exc IOError, st)
      end.

(** [os.remove(p)]: unlinks a file; a directory or a missing path is an
    [OSError]. *)
Definition os_remove (p : string) : M unit :=
  fun st =>
    match fs st !! p with
    | Some (File _ _) => (Ok tt, set_fs st (delete p (fs st)))
    | _ => (Exc OSError, st)
    end.

Definition remove_tree (d : string) (m : gmap string node) : gmap string node :=
  filter (fun kv => in_tree d kv.1 = false) m.

(** [shutil.rmtree(d)]: [os.listdir] fails on anything but a directory. *)
Definition shutil_rmtree (d : string) : M unit :=
  fun st =>
    if isdir (fs st) d then (Ok tt, set_fs st (remove_tree d (fs st)))
    else (Exc OSError, st).

(** Names of the entries of directory [d]. *)
Definition entries (m : gmap string node) (d : string) : list string :=
  let pre := os_path_join d "" in
  omap (fun kv : string * node =>
          if String.prefix pre kv.1 then
            let r := drop_string (String.length pre) kv.1 in
            if negb (String.eqb r "") && negb (has_slash r) then Some r else None
          else None)
       (map_to_list m).

Definition os_listdir (d : string) : M (list string) :=
  fun st =>
    if isdir (fs st) d then (Ok (entries (fs st) d), st)
    else (Exc OSError, st).

Definition is_empty_dir (m : gmap string node) (d : string) : bool :=
  isdir m d && bool_decide (filter (fun kv => under d kv.1 = true) m = ∅).

(** Where a path of the tree at [src] goes when the tree moves to [dst]. *)
Definition rekey (src dst k : string) : string :=
  if String.eqb k src then dst
  else os_path_join dst ""
       +:+ drop_string (String.length (os_path_join src "")) k.

Definition move_tree (src dst : string) (m : gmap string node)
  : gmap string node :=
  kmap (rekey src dst) (filter (fun kv => in_tree src kv.1 = true) m)
  ∪ delete dst (remove_tree src m).

(** Whether [os.rename(src, dst)] goes through: a directory moves to a
    free name or onto an empty directory, a file to a free name or onto a
    file; the target has a directory to live in and is not inside the
    source. Renaming a path to itself does nothing. *)
Definition rename_ok (m : gmap string node) (src dst : string) : bool :=
  if String.eqb src dst then lexists m src else
  match m !! src with
  | Some Dir =>
      negb (in_tree src dst) &&
      match m !! dst with
      | None => parent_ok m dst
      | Some Dir => is_empty_dir m dst
      | Some (File _ _) => false
      end
  | Some (File _ _) =>
      match m !! dst with
      | None => parent_ok m dst
      | Some (File _ _) => true
      | Some Dir => false
      end
  | None => false
  end.

Definition os_rename (src dst : string) : M unit :=
  fun st =>
    if rename_ok (fs st) src dst
    then (Ok tt, set_fs st (if String.eqb src dst then fs st
                            else move_tree src dst (fs st)))
    else (Exc OSError, st).

(** [shutil.move] of a regular file: a rename, or a copy and unlink when
    the rename fails; into [dst] when [dst] is a directory. Moving a
    directory across devices is not modelled: the class moves one file. *)
Definition shutil_move (src dst : string) : M unit :=
  fun st =>
    let go (real_dst : string) : M unit :=
      try_except (os_rename src real_dst)
        (on_os_error (isd <- os_path_isdir src ;;
                      if isd then raise OSError
                      else (shutil_copy2 src real_dst ;;; os_remove src))) in
    if isdir (fs st) dst then
      let real_dst := os_path_join dst (os_path_basename src) in
      if lexists (fs st) real_dst then (Exc ShutilError, st)
      else go real_dst st
    else go dst st.

(** Modelled from the spec: [le_util.make_or_verify_dir], the directory
    helper of the surrounding package, is not part of this module. It makes
    sure the directory exists (with the mode and owner asked for) or fails:
    an existing directory is accepted, a free name becomes a directory, a
    name taken by a file is refused. *)
Definition make_or_verify_dir (d : string) : M unit :=
  fun st =>
    match fs st !! d with
    | Some Dir => (Ok tt, st)
    | Some (File _ _) => (Exc DirectoryError, st)
    | None => (Ok tt, set_fs st (<[d := Dir]> (fs st)))
    end.

(** ** Values handed to [rollback_checkpoints] *)

(** The argument is documented as an [int], a numeric [str] being cast. *)
Inductive pyval : Type :=
| PyInt (z : Z)
| PyStr (s : string).

Definition is_space (c : ascii) : bool :=
  let n := nat_of_ascii c in
  (n =? 32)%nat || ((9 <=? n)%nat && (n <=? 13)%nat).

Definition digit_of (c : ascii) : option Z :=
  let n := nat_of_ascii c in
  if ((48 <=? n)%nat && (n <=? 57)%nat)%bool then Some (Z.of_nat n - 48) else None.

Fixpoint lstrip (s : string) : string :=
  match s with
  | String c s' => if is_space c then lstrip s' else s
  | "" => ""
  end.

(** Digits, then nothing but white space: the value read with [acc] as the
    digits seen so far; [seen] tells whether there was a digit. *)
Fixpoint read_digits (seen : bool) (acc : Z) (s : string) : option Z :=
  match s with
  | "" => if seen then Some acc else None
  | String c s' =>
      match digit_of c with
      | Some d => read_digits true (10 * acc + d) s'
      | None =>
          if seen && is_space c && String.eqb (lstrip s') "" then Some acc
          else None
      end
  end.

(** [int(s)] for a string, base 10: optional white space around an
    optional sign and at least one digit. *)
Definition int_of_str (s : string) : option Z :=
  match lstrip s with
  | String "-" s' => Z.opp <$> read_digits false 0 s'
  | String "+" s' => read_digits false 0 s'
  | s' => read_digits false 0 s'
  end.

(** [int(v)]: [ValueError] for a string that is not a number. *)
Definition py_int (v : pyval) : M Z :=
  match v with
  | PyInt z => ret z
  | PyStr s =>
      match int_of_str s with
      | Some z => ret z
      | None => raise ValueError
      end
  end.

(** ** Sorting names *)

(** [list.sort()] on byte strings: ascending in the lexicographic order of
    the bytes. *)
Fixpoint insert_sorted (x : string) (l : list string) : list string :=
  match l with
  | [] => [x]
  | y :: l' => if String.leb x y then x :: l else y :: insert_sorted x l'
  end.

Definition py_sort (l : list string) : list string :=
  foldr insert_sorted [] l.

(** [l.pop()]: the last element and the list without it. *)
Fixpoint pop (l : list string) : option (list string * string) :=
  match l with
  | [] => None
  | [x] => Some ([], x)
  | y :: l' =>
      match pop l' with
      | Some (r, x) => Some (y :: r, x)
      | None => None
      end
  end.

(** ** The class *)

(** [self.direc]: the three directories of the store. *)
Record Reverter : Type := {
  direc_backup : string;
  direc_temp : string;
  direc_progress : string
}.

Section Methods.

Variable self : Reverter.

(** The body of [for path in filepaths:] in [_remove_contained_files]. *)
Fixpoint remove_each (filepaths : list string) : M unit :=
  match filepaths with
  | [] => ret tt
  | path :: rest =>
      ex <- os_path_lexists path ;;
      (if ex then os_remove path
       else logging WARNING
              ("File: " +:+ path +:+ " - Could not be found to be deleted"
               +:+ nl +:+ "LE probably shut down unexpectedly")) ;;;
      remove_each rest
  end.

Definition _remove_contained_files (file_list : string) : M bool :=
  isf <- os_path_isfile file_list ;;
  if negb isf then ret false
  else
    try_except
      (content <- read_file file_list ;;
       remove_each (splitlines content))
      (on_io_os_error
         (logging FATAL
            ("Unable to remove filepaths contained within " +:+ file_list) ;;;
          raise (SystemExit 41))) ;;;
    ret true.

(** The body of [for idx, path in enumerate(filepaths):] in
    [_recover_checkpoint]. *)
Fixpoint restore_each (cp_dir : string) (idx : nat) (filepaths : list string)
  : M unit :=
  match filepaths with
  | [] => ret tt
  | path :: rest =>
      shutil_copy2
        (os_path_join cp_dir (os_path_basename path +:+ "_" +:+ str_nat idx))
        path ;;;
      restore_each cp_dir (S idx) rest
  end.

(** The first block of [_recover_checkpoint]: the files listed in
    FILEPATHS, when that file is there, are copied back from their
    snapshots. *)
Definition restore_listed (cp_dir : string) : M unit :=
  isf <- os_path_isfile (os_path_join cp_dir "FILEPATHS") ;;
  if isf then
    try_except
      (content <- read_file (os_path_join cp_dir "FILEPATHS") ;;
       restore_each cp_dir 0 (splitlines content))
      (on_io_os_error
         (logging ERROR ("Unable to recover files from " +:+ cp_dir) ;;;
          raise (LetsEncryptReverterError
                   ("Unable to recover files from " +:+ cp_dir))))
  else ret tt.

(** Its last block: the checkpoint directory goes. *)
Definition remove_checkpoint_dir (cp_dir : string) : M unit :=
  try_except (shutil_rmtree cp_dir)
    (on_os_error
       (logging ERROR ("Unable to remove directory: " +:+ cp_dir) ;;;
        raise (LetsEncryptReverterError
                 ("Unable to remove directory: " +:+ cp_dir)))).

Definition _recover_checkpoint (cp_dir : string) : M unit :=
  restore_listed cp_dir ;;;
  _remove_contained_files (os_path_join cp_dir "NEW_FILES") ;;;
  remove_checkpoint_dir cp_dir.

Definition revert_temporary_config : M unit :=
  isd <- os_path_isdir (direc_temp self) ;;
  if isd then
    try_except (_recover_checkpoint (direc_temp self))
      (on_reverter_error
         (logging FATAL
            ("Incomplete or failed recovery for " +:+ direc_temp self) ;;;
          raise (LetsEncryptReverterError "Unable to revert temporary config")))
  else ret tt.

(** The second half of [recovery_routine]: the progress checkpoint. *)
Definition revert_progress : M unit :=
  isd <- os_path_isdir (direc_progress self) ;;
  if isd then
    try_except (_recover_checkpoint (direc_progress self))
      (on_reverter_error
         (logging FATAL
            ("Incomplete or failed recovery for " +:+ direc_progress self) ;;;
          raise (LetsEncryptReverterError
                   ("Incomplete or failed recovery for "
                    +:+ direc_progress self))))
  else ret tt.

Definition recovery_routine : M unit :=
  revert_temporary_config ;;;
  revert_progress.

(** The [while rollback > 0 and backups:] loop, by recursion on the
    counter, which goes down by one each turn. *)
Fixpoint rollback_loop (rollback : nat) (backups : list string) : M unit :=
  match rollback with
  | O => ret tt
  | S rollback' =>
      match pop backups with
      | None => ret tt
      | Some (backups', last) =>
          let cp_dir := os_path_join (direc_backup self) last in
          try_except (_recover_checkpoint cp_dir)
            (on_reverter_error
               (logging FATAL "Failed to load checkpoint during rollback" ;;;
                raise (LetsEncryptReverterError
                         "Unable to load checkpoint during rollback"))) ;;;
          rollback_loop rollback' backups'
      end
  end.

Definition rollback_checkpoints (rollback : pyval) : M unit :=
  rollback <- try_except (py_int rollback)
                (on_value_error
                   (logging ERROR "Rollback argument must be a positive integer" ;;;
                    raise (LetsEncryptReverterError "Invalid Input"))) ;;
  if rollback <? 0 then
    logging ERROR "Rollback argument must be a positive integer" ;;;
    raise (LetsEncryptReverterError "Invalid Input")
  else
    backups <- os_listdir (direc_backup self) ;;
    let backups := py_sort backups in
    (if Z.of_nat (length backups) <? rollback then
       logging ERROR
         ("Unable to rollback " +:+ str_int rollback +:+ " checkpoints, only "
          +:+ str_int (Z.of_nat (length backups)) +:+ " exist")
     else ret tt) ;;;
    rollback_loop (Z.to_nat rollback) backups.

(** The body of [for filename in save_files:] in [_add_to_checkpoint_dir];
    [save_files] is the set in the order its iteration yields. *)
Fixpoint save_each (cp_dir filepaths_path : string)
    (existing_filepaths : list string) (idx : nat) (save_files : list string)
  : M unit :=
  match save_files with
  | [] => ret tt
  | filename :: rest =>
      if bool_decide (filename ∈ existing_filepaths)
      then save_each cp_dir filepaths_path existing_filepaths idx rest
      else
        logging DEBUG ("Creating backup of " +:+ filename) ;;;
        shutil_copy2 filename
          (os_path_join cp_dir
             (os_path_basename filename +:+ "_" +:+ str_nat idx)) ;;;
        fd_write filepaths_path (filename +:+ nl) ;;;
        save_each cp_dir filepaths_path existing_filepaths (S idx) rest
  end.

Definition _add_to_checkpoint_dir (cp_dir : string) (save_files : list string)
    (save_notes : string) : M unit :=
  make_or_verify_dir cp_dir ;;;
  let filepaths_path := os_path_join cp_dir "FILEPATHS" in
  isf <- os_path_isfile filepaths_path ;;
  existing_filepaths <-
    (if isf then
       open_rw filepaths_path ;;;
       content <- read_file filepaths_path ;;
       ret (splitlines content)
     else
       open_w filepaths_path ;;; ret []) ;;
  save_each cp_dir filepaths_path existing_filepaths
    (length existing_filepaths) save_files ;;;
  open_a (os_path_join cp_dir "CHANGES_SINCE") ;;;
  fd_write (os_path_join cp_dir "CHANGES_SINCE") save_notes.

Definition add_to_temp_checkpoint (save_files : list string)
    (save_notes : string) : M unit :=
  _add_to_checkpoint_dir (direc_temp self) save_files save_notes.

(** [protected_files.extend(fd.read().splitlines())] when the list file is
    there. *)
Definition protected_from (p : string) : M (list string) :=
  isf <- os_path_isfile p ;;
  if isf then content <- read_file p ;; ret (splitlines content)
  else ret [].

(** [for filename in protected_files: if filename in save_files: raise]. *)
Fixpoint check_each (save_files : list string) (protected_files : list string)
  : M unit :=
  match protected_files with
  | [] => ret tt
  | filename :: rest =>
      if bool_decide (filename ∈ save_files)
      then raise (LetsEncryptReverterError
                    ("Attempting to overwrite challenge file - " +:+ filename))
      else check_each save_files rest
  end.

Definition _check_tempfile_saves (save_files : list string) : M unit :=
  modified <- protected_from (os_path_join (direc_temp self) "FILEPATHS") ;;
  created <- protected_from (os_path_join (direc_temp self) "NEW_FILES") ;;
  check_each save_files (modified ++ created).

Definition add_to_checkpoint (save_files : list string) (save_notes : string)
  : M unit :=
  _check_tempfile_saves save_files ;;;
  _add_to_checkpoint_dir (direc_progress self) save_files save_notes.

(** The body of [for file_path in files:] in [register_file_creation]. *)
Fixpoint write_each (new_files_path : string) (files : list string) : M unit :=
  match files with
  | [] => ret tt
  | file_path :: rest =>
      fd_write new_files_path (file_path +:+ nl) ;;;
      write_each new_files_path rest
  end.

Definition register_file_creation (temporary : bool) (files : list string)
  : M unit :=
  let cp_dir := if temporary then direc_temp self else direc_progress self in
  make_or_verify_dir cp_dir ;;;
  try_except
    (open_a (os_path_join cp_dir "NEW_FILES") ;;;
     write_each (os_path_join cp_dir "NEW_FILES") files)
    (on_io_os_error (logging ERROR "ERROR: Unable to register file creation")).

End Methods.

Section Finalizer.

Variable self : Reverter.

(** [str(x)] of a Python float. The digits it prints are not computed
    here; the finalizer is embedded for any such function. *)
Variable str_float : float -> string.

(** The double that the literal [.01] denotes. *)
Definition centisecond : float := 0x1.47ae147ae147bp-7%float.

(** The [for i in range(10):] loop of [_timestamp_progress_dir], by
    recursion on the turns left. The answer tells whether the function
    returned from inside the loop, and the last [final_dir]. *)
Fixpoint rename_tries (turns : nat) (cur_time : float) (final_dir : string)
  : M (bool * string) :=
  match turns with
  | O => ret (false, final_dir)
  | S turns' =>
      let final_dir := os_path_join (direc_backup self) (str_float cur_time) in
      returned <- try_except
                    (os_rename (direc_progress self) final_dir ;;; ret true)
                    (on_os_error (ret false)) ;;
      if returned : bool then ret (true, final_dir)
      else rename_tries turns' (cur_time + centisecond)%float final_dir
  end.

Definition _timestamp_progress_dir : M unit :=
  cur_time <- time_time ;;
  r <- rename_tries 10 cur_time "" ;;
  if fst r then ret tt
  else
    logging ERROR
      ("Unable to finalize checkpoint, " +:+ direc_progress self +:+ " -> "
       +:+ snd r) ;;;
    raise (LetsEncryptReverterError "Unable to finalize checkpoint renaming").

(** The [try:] block of [finalize_checkpoint]: the title and the old notes
    go to CHANGES_SINCE.tmp, which then replaces CHANGES_SINCE. *)
Definition prepend_title (title : string) : M unit :=
  let changes_since_path :=
    os_path_join (direc_progress self) "CHANGES_SINCE" in
  let changes_since_tmp_path :=
    os_path_join (direc_progress self) "CHANGES_SINCE.tmp" in
  open_w changes_since_tmp_path ;;;
  fd_write changes_since_tmp_path ("-- " +:+ title +:+ " --" +:+ nl) ;;;
  content <- read_file changes_since_path ;;
  fd_write changes_since_tmp_path content ;;;
  shutil_move changes_since_tmp_path changes_since_path.

Definition finalize_checkpoint (title : string) : M unit :=
  isd <- os_path_isdir (direc_progress self) ;;
  if negb isd then ret tt
  else
    try_except (prepend_title title)
      (on_io_os_error
         (logging ERROR "Unable to finalize checkpoint - adding title" ;;;
          raise (LetsEncryptReverterError "Unable to add title"))) ;;;
    _timestamp_progress_dir.

End Finalizer.

(** ** The console *)

(** [view_config_changes] prints. What has been printed is carried along
    with the state, one entry for each [print] statement, so that it is
    there too when the method ends with an exception. *)
Definition P (A : Type) : Type :=
  list string -> state -> result A * (list string * state).

Definition pret {A} (a : A) : P A := fun out st => (Ok a, (out, st)).

Definition pbind {A B} (m : P A) (k : A -> P B) : P B :=
  fun out st =>
    match m out st with
    | (Ok a, (out', st')) => k a out' st'
    | (Exc e, os) => (Exc e, os)
    end.

Definition praise {A} (e : exn) : P A := fun out st => (Exc e, (out, st)).

Definition ptry {A} (m : P A) (h : exn -> option (P A)) : P A :=
  fun out st =>
    match m out st with
    | (Ok a, os) => (Ok a, os)
    | (Exc e, (out', st')) =>
        match h e with
        | Some k => k out' st'
        | None => (Exc e, (out', st'))
        end
    end.

(** A computation that prints nothing. *)
Definition lift {A} (m : M A) : P A :=
  fun out st => let (r, st') := m st in (r, (out, st')).

(** [print s] *)
Definition print (s : string) : P unit :=
  fun out st => (Ok tt, (out ++ [s], st)).

Declare Scope con_scope.
Delimit Scope con_scope with con.
Notation "x <- m ;; k" := (pbind m (fun x => k))
  (at level 100, m at next level, right associativity) : con_scope.
Notation "m ;;; k" := (pbind m (fun _ => k))
  (at level 100, right associativity) : con_scope.

(** [open(p)] for reading, the descriptor not read yet. *)
Definition open_r (p : string) : M unit :=
  read_file p ;;; ret tt.

Section Viewer.

Local Open Scope con_scope.

Variable self : Reverter.

(** [float(s)] of a string: the number, or nothing where [float] raises
    [ValueError]; [time.ctime(t)]; and [str(err)] of an exception. The
    texts they give are not computed here: the method is embedded for any
    such functions. *)
Variable float_of_str : string -> option float.
Variable time_ctime : float -> string.
Variable str_err : exn -> string.

Definition py_float (s : string) : P float :=
  match float_of_str s with
  | Some t => pret t
  | None => praise ValueError
  end.

(** [for bkup in backups: float(bkup)] *)
Fixpoint check_floats (backups : list string) : P unit :=
  match backups with
  | [] => pret tt
  | bkup :: rest => py_float bkup ;;; check_floats rest
  end.

(** [for path in filepaths: print "  {}".format(path)] *)
Fixpoint print_paths (filepaths : list string) : P unit :=
  match filepaths with
  | [] => pret tt
  | path :: rest => print ("  " +:+ path) ;;; print_paths rest
  end.

(** The [try:] block that shows NEW_FILES, with its handler. *)
Definition view_new_files (cur_dir : string) : P unit :=
  ptry
    (isf <- lift (os_path_isfile (os_path_join cur_dir "NEW_FILES")) ;;
     if isf : bool then
       lift (open_r (os_path_join cur_dir "NEW_FILES")) ;;;
       print "New Configuration Files:" ;;;
       content <- lift (read_file (os_path_join cur_dir "NEW_FILES")) ;;
       print_paths (splitlines content)
     else pret tt)
    (fun err =>
       match err with
       | IOError | OSError =>
           Some (lift (logging ERROR (str_err err)) ;;;
                 praise (LetsEncryptReverterError
                           ("Unable to read new files in checkpoint- "
                            +:+ cur_dir)))
       | _ => None
       end).

(** The body of the second [for bkup in backups:]. *)
Definition view_backup (bkup : string) : P unit :=
  t <- py_float bkup ;;
  print (time_ctime t) ;;;
  let cur_dir := os_path_join (direc_backup self) bkup in
  content <- lift (read_file (os_path_join cur_dir "CHANGES_SINCE")) ;;
  print content ;;;
  print "Affected files:" ;;;
  content <- lift (read_file (os_path_join cur_dir "FILEPATHS")) ;;
  print_paths (splitlines content) ;;;
  view_new_files cur_dir ;;;
  print nl.

Fixpoint view_backups (backups : list string) : P unit :=
  match backups with
  | [] => pret tt
  | bkup :: rest => view_backup bkup ;;; view_backups rest
  end.

(** [backups.sort(reverse=True)]: descending. The names of one directory
    are distinct, so this is the ascending order read backwards. *)
Definition py_sort_reverse (l : list string) : list string :=
  rev (py_sort l).

Definition view_config_changes : P unit :=
  backups <- lift (os_listdir (direc_backup self)) ;;
  let backups := py_sort_reverse backups in
  (match backups with
   | [] => lift (logging INFO
                   ("Letsencrypt has not saved any backups of your "
                    +:+ "configuration"))
   | _ :: _ => pret tt
   end) ;;;
  ptry (check_floats backups)
    (fun err =>
       match err with
       | ValueError =>
           Some (praise (LetsEncryptReverterError
                           ("Invalid directories in " +:+ direc_backup self)))
       | _ => None
       end) ;;;
  view_backups backups.

End Viewer.

(** * Properties *)

(** ** Running the monad *)

Lemma bind_ok_inv {A B} (m : M A) (k : A -> M B) st b st' :
  bind m k st = (Ok b, st') ->
  exists a st1, m st = (Ok a, st1) /\ k a st1 = (Ok b, st').
Proof.
  unfold bind. destruct (m st) as [[a | e] st1]; [eauto | discriminate].
Qed.

Lemma try_except_ok_inv {A} (m : M A) (h : exn -> option (M A)) st a st' :
  (forall e k st0 a0 st1, h e = Some k -> k st0 <> (Ok a0, st1)) ->
  try_except m h st = (Ok a, st') -> m st = (Ok a, st').
Proof.
  intros Hh. unfold try_except.
  destruct (m st) as [[a1 | e] st1]; [auto |].
  destruct (h e) as [k |] eqn:Hk; [| discriminate].
  intros E. exfalso. exact (Hh e k st1 a st' Hk E).
Qed.

(** ** Rollback: the argument check *)

Section Rollback.

Variable self : Reverter.




End Rollback.

(** ** Strings *)

Lemma sapp_cons (x : ascii) (a b : string) :
  String x a +:+ b = String x (a +:+ b).
Proof. reflexivity. Qed.

Lemma sapp_nil_l (b : string) : "" +:+ b = b.
Proof. reflexivity. Qed.

Lemma sapp_assoc (a b c : string) : (a +:+ b) +:+ c = a +:+ (b +:+ c).
Proof.
  induction a as [| x a IH]; [reflexivity |].
  rewrite !sapp_cons. now f_equal.
Qed.

Lemma sapp_nil_r (a : string) : a +:+ "" = a.
Proof.
  induction a as [| x a IH]; [reflexivity |].
  rewrite sapp_cons. now f_equal.
Qed.

Lemma prefix_sapp (a b : string) : String.prefix a (a +:+ b) = true.
Proof.
  induction a as [| x a IH]; [now destruct b |].
  rewrite sapp_cons. simpl.
  destruct (ascii_dec x x); [exact IH | contradiction].
Qed.

Lemma has_slash_sapp (a b : string) :
  has_slash (a +:+ b) = has_slash a || has_slash b.
Proof.
  induction a as [| x a IH]; [reflexivity |].
  rewrite sapp_cons. cbn [has_slash]. now rewrite IH, orb_assoc.
Qed.

Definition is_digit (c : ascii) : bool :=
  match digit_of c with
  | Some _ => true
  | None => false
  end.

Fixpoint all_digits (s : string) : bool :=
  match s with
  | "" => true
  | String c s' => is_digit c && all_digits s'
  end.

Fixpoint ends_with_digit (s : string) : bool :=
  match s with
  | "" => false
  | String c "" => is_digit c
  | String _ s' => ends_with_digit s'
  end.

Lemma all_digits_sapp (a b : string) :
  all_digits (a +:+ b) = all_digits a && all_digits b.
Proof.
  induction a as [| x a IH]; [reflexivity |].
  rewrite sapp_cons. cbn [all_digits]. now rewrite IH, andb_assoc.
Qed.

Lemma all_digits_end (d : string) :
  all_digits d = true -> d <> "" -> ends_with_digit d = true.
Proof.
  induction d as [| x d IH]; intros Hd Hne; [contradiction |].
  cbn [all_digits] in Hd. apply andb_true_iff in Hd as [Hx Hd].
  destruct d as [| y d]; [exact Hx |].
  change (ends_with_digit (String y d) = true). now apply IH.
Qed.

Lemma pretty_N_char_digit (x : N) : is_digit (pretty_N_char x) = true.
Proof. unfold pretty_N_char. repeat case_match; reflexivity. Qed.

Lemma pretty_N_go_digits (x : N) :
  forall s, all_digits s = true -> all_digits (pretty_N_go x s) = true.
Proof.
  induction (N.lt_wf_0 x) as [x _ IH]; intros s Hs.
  destruct (decide (x = 0%N)) as [-> | Hx].
  - now rewrite pretty_N_go_0.
  - rewrite pretty_N_go_step by lia. apply IH.
    + apply N.div_lt; lia.
    + cbn. now rewrite pretty_N_char_digit.
Qed.

Lemma pretty_N_go_nonempty (x : N) :
  forall s, s <> "" -> pretty_N_go x s <> "".
Proof.
  induction (N.lt_wf_0 x) as [x _ IH]; intros s Hs.
  destruct (decide (x = 0%N)) as [-> | Hx].
  - now rewrite pretty_N_go_0.
  - rewrite pretty_N_go_step by lia. apply IH.
    + apply N.div_lt; lia.
    + discriminate.
Qed.

(** [str(n)] is a non-empty string of digits, different for different
    numbers. *)
Lemma str_nat_digits (n : nat) : all_digits (str_nat n) = true.
Proof.
  unfold str_nat, pretty, pretty_nat, pretty, pretty_N.
  case_decide; [reflexivity |]. now apply pretty_N_go_digits.
Qed.

Lemma str_nat_nonempty (n : nat) : str_nat n <> "".
Proof.
  unfold str_nat, pretty, pretty_nat, pretty, pretty_N.
  case_decide; [discriminate |].
  rewrite pretty_N_go_step by lia. now apply pretty_N_go_nonempty.
Qed.

Lemma str_nat_inj (i j : nat) : str_nat i = str_nat j -> i = j.
Proof. apply pretty_nat_inj. Qed.

(** A name tagged with an index tells the index: the digits after the
    last underscore. *)
Lemma tag_inj (b1 b2 d1 d2 : string) :
  all_digits d1 = true -> all_digits d2 = true ->
  b1 +:+ "_" +:+ d1 = b2 +:+ "_" +:+ d2 -> d1 = d2.
Proof.
  assert (Hu : forall b d, all_digits (b +:+ String "_" d) = false).
  { intros b d. rewrite all_digits_sapp. cbn [all_digits].
    replace (is_digit "_") with false by reflexivity.
    now rewrite andb_false_r. }
  intros H1 H2. revert b2.
  induction b1 as [| x b1 IH]; intros [| y b2] E;
    rewrite ?sapp_cons, ?sapp_nil_l in E.
  - now injection E.
  - injection E as <- E. rewrite E, Hu in H1. discriminate.
  - injection E as -> E. rewrite <- E, Hu in H2. discriminate.
  - injection E as _ E. now apply (IH b2).
Qed.

(** ** Lines *)

(** A text that is empty or ends with a newline: what a list file holds
    when only this program wrote to it. *)
Fixpoint ends_with_nl (s : string) : bool :=
  match s with
  | "" => true
  | String c "" => Ascii.eqb c LF
  | String _ s' => ends_with_nl s'
  end.

(** The text of a list file: each path and a newline. *)
Fixpoint lines_text (paths : list string) : string :=
  match paths with
  | [] => ""
  | path :: rest => (path +:+ nl) +:+ lines_text rest
  end.

Lemma splitlines_cons_nonempty (c : ascii) (s : string) :
  splitlines (String c s) <> [].
Proof.
  cbn [splitlines].
  destruct (Ascii.eqb c LF); [discriminate |].
  destruct (Ascii.eqb c CR).
  - destruct s as [| c' s]; [discriminate |].
    destruct (Ascii.eqb c' LF); discriminate.
  - destruct (splitlines s); discriminate.
Qed.

Lemma ends_with_nl_tail (c : ascii) (s : string) :
  ends_with_nl (String c s) = true -> ends_with_nl s = true.
Proof. destruct s; [reflexivity | auto]. Qed.

Lemma splitlines_LF (s : string) :
  splitlines (String LF s) = "" :: splitlines s.
Proof. reflexivity. Qed.

Lemma splitlines_CR_LF (s : string) :
  splitlines (String CR (String LF s)) = "" :: splitlines s.
Proof. reflexivity. Qed.

Lemma splitlines_CR_other (c : ascii) (s : string) :
  Ascii.eqb c LF = false ->
  splitlines (String CR (String c s)) = "" :: splitlines (String c s).
Proof.
  intros H. change (splitlines (String CR (String c s)))
    with (if Ascii.eqb c LF then "" :: splitlines s
          else "" :: splitlines (String c s)).
  now rewrite H.
Qed.

Lemma splitlines_plain (c : ascii) (s : string) :
  is_break c = false ->
  splitlines (String c s) = cons_line c (splitlines s).
Proof.
  intros H. apply orb_false_iff in H as [H1 H2].
  change (splitlines (String c s))
    with (if Ascii.eqb c LF then "" :: splitlines s
          else if Ascii.eqb c CR then
                 match s with
                 | String c' s'' =>
                     if Ascii.eqb c' LF then "" :: splitlines s''
                     else "" :: splitlines s
                 | "" => "" :: splitlines s
                 end
               else cons_line c (splitlines s)).
  now rewrite H1, H2.
Qed.

Lemma splitlines_sapp_aux (a : string) :
  (forall b, ends_with_nl a = true ->
     splitlines (a +:+ b) = splitlines a ++ splitlines b) /\
  (forall c b, ends_with_nl (String c a) = true ->
     splitlines (String c a +:+ b) = splitlines (String c a) ++ splitlines b).
Proof.
  induction a as [| c' a [IH1 IH2]].
  - split; [reflexivity |].
    intros c b H. cbn [ends_with_nl] in H. apply Ascii.eqb_eq in H. subst c.
    reflexivity.
  - split; [intros b; apply IH2 |].
    intros c b H.
    assert (H' : ends_with_nl (String c' a) = true) by exact H.
    rewrite !sapp_cons.
    destruct (Ascii.eqb_spec c LF) as [-> | Hlf].
    + rewrite !splitlines_LF, <- sapp_cons, IH2 by exact H'. reflexivity.
    + destruct (Ascii.eqb_spec c CR) as [-> | Hcr].
      * destruct (Ascii.eqb c' LF) eqn:E.
        -- apply Ascii.eqb_eq in E. subst c'.
           rewrite !splitlines_CR_LF.
           rewrite IH1 by (now apply ends_with_nl_tail in H'). reflexivity.
        -- rewrite !splitlines_CR_other by exact E.
           rewrite <- sapp_cons, IH2 by exact H'. reflexivity.
      * assert (Hb : is_break c = false).
        { unfold is_break. apply orb_false_iff.
          split; now apply Ascii.eqb_neq. }
        rewrite !(splitlines_plain c) by exact Hb.
        rewrite <- sapp_cons, IH2 by exact H'.
        pose proof (splitlines_cons_nonempty c' a) as Hne.
        destruct (splitlines (String c' a)); [contradiction | reflexivity].
Qed.

(** After a text that ends with a newline, further text adds its own
    lines. *)
Lemma splitlines_sapp (a b : string) :
  ends_with_nl a = true ->
  splitlines (a +:+ b) = splitlines a ++ splitlines b.
Proof. apply splitlines_sapp_aux. Qed.

Lemma splitlines_line (f : string) :
  line_safe f = true -> splitlines (f +:+ nl) = [f].
Proof.
  induction f as [| c f IH]; intros H; [reflexivity |].
  cbn [line_safe] in H. apply andb_true_iff in H as [Hc Hf].
  apply negb_true_iff in Hc.
  rewrite sapp_cons, splitlines_plain by exact Hc.
  now rewrite IH.
Qed.

Lemma ends_with_nl_sapp (a b : string) :
  ends_with_nl b = true -> b <> "" -> ends_with_nl (a +:+ b) = true.
Proof.
  intros Hb Hne. induction a as [| c a IH]; [exact Hb |].
  rewrite sapp_cons. cbn [ends_with_nl].
  destruct (a +:+ b) eqn:E; [| exact IH].
  destruct a; [change (b = "") in E; congruence |].
  rewrite sapp_cons in E. discriminate.
Qed.

Lemma ends_with_nl_line (f rest : string) :
  ends_with_nl rest = true -> ends_with_nl ((f +:+ nl) +:+ rest) = true.
Proof.
  intros H. destruct rest as [| c r].
  - rewrite sapp_nil_r. now apply ends_with_nl_sapp.
  - now apply ends_with_nl_sapp.
Qed.

Lemma lines_text_terminated (paths : list string) :
  ends_with_nl (lines_text paths) = true.
Proof.
  induction paths as [| f rest IH]; [reflexivity |].
  cbn [lines_text]. now apply ends_with_nl_line.
Qed.

Lemma ends_with_nl_append_lines (a : string) (paths : list string) :
  ends_with_nl a = true -> ends_with_nl (a +:+ lines_text paths) = true.
Proof.
  intros Ha. destruct paths as [| f rest].
  - cbn [lines_text]. now rewrite sapp_nil_r.
  - apply ends_with_nl_sapp; [apply lines_text_terminated |].
    cbn [lines_text]. destruct f; discriminate.
Qed.

(** Reading back a list of paths without line breaks gives the list. *)
Lemma splitlines_lines_text (paths : list string) :
  forallb line_safe paths = true ->
  splitlines (lines_text paths) = paths.
Proof.
  induction paths as [| f rest IH]; intros H; [reflexivity |].
  cbn [forallb] in H. apply andb_true_iff in H as [Hf Hrest].
  cbn [lines_text]. rewrite splitlines_sapp.
  - rewrite splitlines_line by exact Hf. now rewrite IH.
  - apply ends_with_nl_sapp; [reflexivity | discriminate].
Qed.

(** A path without line breaks is found again among the lines, whatever
    the other paths are. *)
Lemma splitlines_lines_text_elem (paths : list string) (f : string) :
  line_safe f = true -> f ∈ paths -> f ∈ splitlines (lines_text paths).
Proof.
  intros Hf. induction paths as [| g rest IH]; intros Hin.
  - now apply elem_of_nil in Hin.
  - cbn [lines_text]. rewrite splitlines_sapp
      by (apply ends_with_nl_sapp; [reflexivity | discriminate]).
    apply elem_of_app. apply elem_of_cons in Hin as [-> | Hin].
    + left. rewrite splitlines_line by exact Hf. apply list_elem_of_here.
    + right. now apply IH.
Qed.

(** ** Paths *)

Lemma basename_no_slash (p : string) : has_slash (os_path_basename p) = false.
Proof.
  unfold os_path_basename.
  induction p as [| c p IH]; [reflexivity |].
  cbn [split_last]. destruct (split_last p) as [h t]. cbn [snd] in IH.
  destruct (negb (String.eqb h "")); [exact IH |].
  destruct (Ascii.eqb c SLASH) eqn:E; [exact IH |].
  cbn. now rewrite E, IH.
Qed.

Lemma no_slash_start (a : string) :
  has_slash a = false -> starts_with_slash a = false.
Proof.
  destruct a as [| c a]; [reflexivity |]. cbn.
  now intros [H _]%orb_false_iff.
Qed.

(** A name in a directory: the directory, its separator, the name. *)
Lemma os_path_join_pre (d a : string) :
  starts_with_slash a = false ->
  os_path_join d a = os_path_join d "" +:+ a.
Proof.
  intros Ha. unfold os_path_join. rewrite Ha. cbn [starts_with_slash].
  destruct (String.eqb d "" || ends_with_slash d).
  - now rewrite sapp_nil_r.
  - change ("/" +:+ "") with "/". now rewrite sapp_assoc.
Qed.



(** Two names of one directory are the same path only if they are the
    same name. *)
Lemma os_path_join_inj (d b b' : string) :
  starts_with_slash b = false -> starts_with_slash b' = false ->
  os_path_join d b = os_path_join d b' -> b = b'.
Proof.
  intros Hb Hb'. unfold os_path_join. rewrite Hb, Hb'.
  destruct (String.eqb d "" || ends_with_slash d); intros E.
  - now apply String.app_inj in E.
  - apply String.app_inj in E. now apply (String.app_inj "/") in E.
Qed.

(** ** Facts about the system calls *)

Lemma read_file_not_file (p : string) (st : state) :
  isfile (fs st) p = false -> read_file p st = (Exc IOError, st).
Proof.
  unfold isfile, read_file. intros H.
  destruct (fs st !! p) as [[c m |] |]; [discriminate | reflexivity | reflexivity].
Qed.

Lemma isfile_insert_ne (m : gmap string node) (p q : string) (x : node) :
  p <> q -> isfile (<[p := x]> m) q = isfile m q.
Proof. intros H. unfold isfile. now rewrite lookup_insert_ne. Qed.

Lemma isdir_insert_ne (m : gmap string node) (p q : string) (x : node) :
  p <> q -> isdir (<[p := x]> m) q = isdir m q.
Proof. intros H. unfold isdir. now rewrite lookup_insert_ne. Qed.

(** ** Finalizing *)

Section FinalizerFacts.

Variable self : Reverter.
Variable str_float : float -> string.

Definition changes_since_path : string :=
  os_path_join (direc_progress self) "CHANGES_SINCE".
Definition changes_since_tmp_path : string :=
  os_path_join (direc_progress self) "CHANGES_SINCE.tmp".

Lemma tmp_path_differs : changes_since_tmp_path <> changes_since_path.
Proof.
  unfold changes_since_tmp_path, changes_since_path. intros E.
  apply os_path_join_inj in E; [discriminate | reflexivity | reflexivity].
Qed.

(** Without a regular file CHANGES_SINCE the title cannot be prepended:
    the read of the old notes fails, after CHANGES_SINCE.tmp was opened at
    most. *)
Lemma prepend_title_fails (title : string) (st : state) :
  isdir (fs st) (direc_progress self) = true ->
  isfile (fs st) changes_since_path = false ->
  exists st',
    prepend_title self title st = (Exc IOError, st') /\
    log st' = log st /\
    (forall p, p <> changes_since_tmp_path -> fs st' !! p = fs st !! p) /\
    isfile (fs st') changes_since_path = false /\
    isdir (fs st') (direc_progress self) = true.
Proof.
  intros Hdir Hcs.
  pose proof tmp_path_differs as Hne.
  unfold prepend_title. fold changes_since_path changes_since_tmp_path.
  assert (Hgo : forall mode,
    changes_since_tmp_path <> direc_progress self ->
    exists st',
      (fd_write changes_since_tmp_path ("-- " +:+ title +:+ " --" +:+ nl) ;;;
       content <- read_file changes_since_path ;;
       fd_write changes_since_tmp_path content ;;;
       shutil_move changes_since_tmp_path changes_since_path)
        (set_fs st (<[changes_since_tmp_path := File "" mode]> (fs st)))
      = (Exc IOError, st') /\
      log st' = log st /\
      (forall p, p <> changes_since_tmp_path -> fs st' !! p = fs st !! p) /\
      isfile (fs st') changes_since_path = false /\
      isdir (fs st') (direc_progress self) = true).
  { intros mode Hpp.
    unfold bind at 1. unfold fd_write at 1. cbn [fs set_fs].
    rewrite lookup_insert_eq.
    unfold bind at 1. rewrite read_file_not_file.
    2:{ cbn [fs set_fs]. now rewrite !isfile_insert_ne. }
    eexists. split; [reflexivity |]. cbn [fs set_fs log]. repeat split.
    - intros p Hpne. now rewrite !lookup_insert_ne by congruence.
    - now rewrite !isfile_insert_ne.
    - now rewrite !isdir_insert_ne. }
  unfold bind at 1. unfold open_w.
  destruct (fs st !! changes_since_tmp_path) as [[c m | ] | ] eqn:Htmp.
  - destruct (writable m).
    + apply Hgo. intros E. rewrite E in Htmp. unfold isdir in Hdir.
      now rewrite Htmp in Hdir.
    + eexists. repeat split; auto.
  - eexists. repeat split; auto.
  - destruct (parent_ok (fs st) changes_since_tmp_path).
    + apply Hgo. intros E. rewrite E in Htmp. unfold isdir in Hdir.
      now rewrite Htmp in Hdir.
    + eexists. repeat split; auto.
Qed.

(** C10: when the progress directory is there but holds no regular file
    CHANGES_SINCE, [finalize_checkpoint] fails while it adds the title,
    with the "Unable to add title" error of the class; one error record is
    logged, no path other than CHANGES_SINCE.tmp has changed (so nothing
    was moved to the backups), CHANGES_SINCE is still missing and the
    progress directory is still a directory. *)
Theorem finalize_without_changes_since (title : string) (st : state) :
  isdir (fs st) (direc_progress self) = true ->
  isfile (fs st) changes_since_path = false ->
  exists st',
    finalize_checkpoint self str_float title st
    = (Exc (LetsEncryptReverterError "Unable to add title"), st') /\
    log st' = (log st ++ [(ERROR, "Unable to finalize checkpoint - adding title")])%list /\
    (forall p, p <> changes_since_tmp_path -> fs st' !! p = fs st !! p) /\
    isfile (fs st') changes_since_path = false /\
    isdir (fs st') (direc_progress self) = true.
Proof.
  intros Hdir Hcs.
  destruct (prepend_title_fails title st Hdir Hcs) as (st1 & E & Hlog & Hfr & Hf & Hd).
  unfold finalize_checkpoint.
  unfold bind at 1. unfold os_path_isdir at 1. rewrite Hdir. cbn [negb].
  unfold bind at 1. unfold try_except at 1. rewrite E. cbn.
  eexists. split; [reflexivity |]. cbn. rewrite Hlog. auto.
Qed.

(** The names tried for the backup: the clock reading and what nine
    further additions of [.01] make of it, under the backup directory. *)
Fixpoint candidates (turns : nat) (cur_time : float) : list string :=
  match turns with
  | O => []
  | S turns' =>
      os_path_join (direc_backup self) (str_float cur_time)
      :: candidates turns' (cur_time + centisecond)%float
  end.

(** The file system once [os.rename(src, dst)] went through. *)
Definition renamed (src dst : string) (m : gmap string node)
  : gmap string node :=
  if String.eqb src dst then m else move_tree src dst m.

Lemma os_rename_ok (src dst : string) (st : state) :
  rename_ok (fs st) src dst = true ->
  os_rename src dst st = (Ok tt, set_fs st (renamed src dst (fs st))).
Proof. intros H. unfold os_rename, renamed. now rewrite H. Qed.

Lemma os_rename_fails (src dst : string) (st : state) :
  rename_ok (fs st) src dst = false -> os_rename src dst st = (Exc OSError, st).
Proof. intros H. unfold os_rename. now rewrite H. Qed.

Lemma last_cons_default (l : list string) (x d : string) :
  List.last (x :: l) d = List.last l x.
Proof.
  revert x d. induction l as [| y l IH]; intros x d; [reflexivity |].
  change (List.last (x :: y :: l) d) with (List.last (y :: l) d).
  now rewrite !IH.
Qed.

(** The loop stops at the first candidate the rename accepts, and tries
    them in order; when none is accepted it has changed nothing. *)
Lemma rename_tries_spec (turns : nat) :
  forall (cur_time : float) (final_dir : string) (st : state),
    rename_tries self str_float turns cur_time final_dir st =
    match List.find (rename_ok (fs st) (direc_progress self))
                    (candidates turns cur_time) with
    | Some d =>
        (Ok (true, d), set_fs st (renamed (direc_progress self) d (fs st)))
    | None => (Ok (false, List.last (candidates turns cur_time) final_dir), st)
    end.
Proof.
  induction turns as [| turns IH]; intros cur_time final_dir st.
  - reflexivity.
  - cbn [rename_tries candidates List.find].
    set (d := os_path_join (direc_backup self) (str_float cur_time)).
    unfold bind at 1. unfold try_except at 1. unfold bind at 1.
    destruct (rename_ok (fs st) (direc_progress self) d) eqn:Hok.
    + rewrite (os_rename_ok _ _ _ Hok). reflexivity.
    + rewrite (os_rename_fails _ _ _ Hok). cbn [on_os_error ret].
      rewrite IH. fold d.
      destruct (List.find _ _); [reflexivity |].
      now rewrite last_cons_default.
Qed.

(** What is logged and raised when no rename went through. *)
Definition stuck (st : state) : result unit * state :=
  (Exc (LetsEncryptReverterError "Unable to finalize checkpoint renaming"),
   {| fs := fs st;
      log := log st ++
             [(ERROR, "Unable to finalize checkpoint, " +:+ direc_progress self
                      +:+ " -> " +:+ List.last (candidates 10 (clock st)) "")];
      clock := clock st |}).


(** A name that is taken, by a file or by a directory with entries. *)
Definition taken (m : gmap string node) (d : string) : bool :=
  match m !! d with
  | Some (File _ _) => true
  | Some Dir => negb (is_empty_dir m d)
  | None => false
  end.

(** The rename of the progress directory does not go through onto a taken
    name. *)
Lemma taken_blocks_rename (m : gmap string node) (d : string) :
  isdir m (direc_progress self) = true ->
  d <> direc_progress self ->
  taken m d = true ->
  rename_ok m (direc_progress self) d = false.
Proof.
  intros Hdir Hne Ht. unfold rename_ok.
  destruct (String.eqb_spec (direc_progress self) d) as [E | _]; [congruence |].
  unfold isdir in Hdir. unfold taken in Ht.
  destruct (m !! direc_progress self) as [[? ? |] |]; try discriminate.
  destruct (m !! d) as [[? ? |] |]; try discriminate.
  - now rewrite andb_false_r.
  - apply negb_true_iff in Ht. rewrite Ht. now rewrite andb_false_r.
Qed.

(** When each of the ten names is taken, the call raises and leaves the
    store alone. *)
Lemma timestamp_progress_dir_collisions (st : state) :
  isdir (fs st) (direc_progress self) = true ->
  Forall (fun d => d <> direc_progress self /\ taken (fs st) d = true)
         (candidates 10 (clock st)) ->
  _timestamp_progress_dir self str_float st = stuck st.
Proof.
  intros Hdir Hall. unfold _timestamp_progress_dir.
  unfold bind at 1. unfold time_time at 1.
  unfold bind at 1. rewrite rename_tries_spec.
  destruct (List.find _ _) as [d |] eqn:Hfind; [| reflexivity].
  apply List.find_some in Hfind. destruct Hfind as [Hin Hok].
  rewrite List.Forall_forall in Hall. destruct (Hall d Hin) as [Hne Ht].
  rewrite (taken_blocks_rename _ _ Hdir Hne Ht) in Hok. discriminate.
Qed.

End FinalizerFacts.

(** ** Recovery *)

Lemma in_tree_refl (d : string) : in_tree d d = true.
Proof. unfold in_tree. now rewrite String.eqb_refl. Qed.

Lemma remove_tree_lookup (d p : string) (m : gmap string node) :
  remove_tree d m !! p = if in_tree d p then None else m !! p.
Proof.
  unfold remove_tree.
  destruct (in_tree d p) eqn:E.
  - apply map_lookup_filter_None. right. intros x _. cbn. congruence.
  - destruct (m !! p) as [x |] eqn:Hl.
    + apply map_lookup_filter_Some. split; [exact Hl | exact E].
    + apply map_lookup_filter_None. now left.
Qed.

Lemma remove_tree_root (d : string) (m : gmap string node) :
  remove_tree d m !! d = None.
Proof. now rewrite remove_tree_lookup, in_tree_refl. Qed.

Lemma state_eta (st : state) :
  {| fs := fs st; log := log st; clock := clock st |} = st.
Proof. now destruct st. Qed.




Lemma isdir_delete (m : gmap string node) (p q : string) :
  isdir m q = false -> isdir (delete p m) q = false.
Proof.
  unfold isdir. rewrite lookup_delete.
  destruct (decide (p = q)); [reflexivity | auto].
Qed.




Section RecoveryFacts.

Variable self : Reverter.


Definition filepaths_of (cp_dir : string) : string :=
  os_path_join cp_dir "FILEPATHS".
Definition new_files_of (cp_dir : string) : string :=
  os_path_join cp_dir "NEW_FILES".

(** The state and the error [_recover_checkpoint] ends with when the
    restore of the listed files fails. *)
Definition recovery_refused (cp_dir : string) (st : state)
  : result unit * state :=
  (Exc (LetsEncryptReverterError ("Unable to recover files from " +:+ cp_dir)),
   {| fs := fs st;
      log := log st ++ [(ERROR, "Unable to recover files from " +:+ cp_dir)];
      clock := clock st |}).

Lemma restore_listed_absent (cp_dir : string) (st : state) :
  isfile (fs st) (filepaths_of cp_dir) = false ->
  restore_listed cp_dir st = (Ok tt, st).
Proof.
  intros H. unfold restore_listed. fold (filepaths_of cp_dir).
  unfold bind at 1. unfold os_path_isfile at 1. now rewrite H.
Qed.

Lemma restore_listed_unreadable (cp_dir content : string) (mode : Z) (st : state) :
  fs st !! filepaths_of cp_dir = Some (File content mode) ->
  readable mode = false ->
  restore_listed cp_dir st = recovery_refused cp_dir st.
Proof.
  intros Hl Hr. unfold restore_listed. fold (filepaths_of cp_dir).
  unfold bind at 1. unfold os_path_isfile at 1. unfold isfile. rewrite Hl.
  unfold try_except at 1. unfold bind at 1. unfold read_file at 1.
  now rewrite Hl, Hr.
Qed.

(** C1, as the code has it: a FILEPATHS that is there but cannot be read
    makes [_recover_checkpoint] log an error and raise the "Unable to
    recover files" error of the class, with the file system as it was (the
    new files are not deleted, the directory is not removed); without a
    regular file FILEPATHS the restore step is passed over and the
    recovery is what its two other steps do. *)
Theorem recover_filepaths_guard (cp_dir : string) :
  (forall st content mode,
     fs st !! filepaths_of cp_dir = Some (File content mode) ->
     readable mode = false ->
     _recover_checkpoint cp_dir st = recovery_refused cp_dir st) /\
  (forall st,
     isfile (fs st) (filepaths_of cp_dir) = false ->
     _recover_checkpoint cp_dir st
     = (_remove_contained_files (new_files_of cp_dir) ;;;
        remove_checkpoint_dir cp_dir) st).
Proof.
  split.
  - intros st content mode Hl Hr. unfold _recover_checkpoint. unfold bind at 1.
    now rewrite (restore_listed_unreadable _ _ _ _ Hl Hr).
  - intros st Hf. unfold _recover_checkpoint. unfold bind at 1.
    now rewrite (restore_listed_absent _ _ Hf).
Qed.

(** A checkpoint that holds neither list is recovered by removing its
    directory. *)
Lemma recover_bare_checkpoint (cp_dir : string) (st : state) :
  isdir (fs st) cp_dir = true ->
  isfile (fs st) (filepaths_of cp_dir) = false ->
  isfile (fs st) (new_files_of cp_dir) = false ->
  _recover_checkpoint cp_dir st
  = (Ok tt, set_fs st (remove_tree cp_dir (fs st))).
Proof.
  intros Hd Hf Hn. unfold _recover_checkpoint. unfold bind at 1.
  rewrite (restore_listed_absent _ _ Hf).
  unfold bind at 1. unfold _remove_contained_files. fold (new_files_of cp_dir).
  unfold bind at 1. unfold os_path_isfile at 1. rewrite Hn. cbn [negb ret].
  unfold remove_checkpoint_dir, try_except, shutil_rmtree. now rewrite Hd.
Qed.

(** The last step of a recovery that ended well removed the directory. *)
Lemma recover_ok_removes_dir (cp_dir : string) (st st' : state) :
  _recover_checkpoint cp_dir st = (Ok tt, st') ->
  fs st' !! cp_dir = None.
Proof.
  unfold _recover_checkpoint. intros E.
  apply bind_ok_inv in E as (_ & st1 & _ & E).
  apply bind_ok_inv in E as (_ & st2 & _ & E).
  unfold remove_checkpoint_dir in E.
  apply try_except_ok_inv in E.
  - unfold shutil_rmtree in E.
    destruct (isdir (fs st2) cp_dir); [| discriminate].
    injection E as <-. cbn. apply remove_tree_root.
  - intros e k st0 a0 st3 Hk. destruct e; try discriminate.
    injection Hk as <-. discriminate.
Qed.

End RecoveryFacts.

(** ** Staging: the guard of the temporary checkpoint *)

(** The lines of a list file; none when the file is not there. *)
Definition lines_of (m : gmap string node) (p : string) : list string :=
  match m !! p with
  | Some (File content _) => splitlines content
  | _ => []
  end.

(** A list file that is there can be read. *)
Definition list_readable (m : gmap string node) (p : string) : bool :=
  match m !! p with
  | Some (File _ mode) => readable mode
  | _ => true
  end.

Lemma protected_from_readable (p : string) (st : state) :
  list_readable (fs st) p = true ->
  protected_from p st = (Ok (lines_of (fs st) p), st).
Proof.
  unfold list_readable, protected_from, lines_of. intros H.
  unfold bind at 1. unfold os_path_isfile at 1. unfold isfile.
  destruct (fs st !! p) as [[c m |] |] eqn:Hl; try reflexivity.
  unfold bind, read_file. now rewrite Hl, H.
Qed.

Lemma protected_from_unreadable (p : string) (st : state) :
  list_readable (fs st) p = false ->
  protected_from p st = (Exc IOError, st).
Proof.
  unfold list_readable, protected_from. intros H.
  unfold bind at 1. unfold os_path_isfile at 1. unfold isfile.
  destruct (fs st !! p) as [[c m |] |] eqn:Hl; try discriminate.
  unfold bind, read_file. now rewrite Hl, H.
Qed.

(** The check reads; it never writes. *)
Lemma check_each_spec (save_files protected_files : list string) (st : state) :
  check_each save_files protected_files st =
  match List.find (fun f => bool_decide (f ∈ save_files)) protected_files with
  | Some g =>
      (Exc (LetsEncryptReverterError
              ("Attempting to overwrite challenge file - " +:+ g)), st)
  | None => (Ok tt, st)
  end.
Proof.
  induction protected_files as [| f rest IH]; [reflexivity |].
  cbn [check_each List.find].
  destruct (bool_decide (f ∈ save_files)); [reflexivity | exact IH].
Qed.

Section StagingGuard.

Variable self : Reverter.

(** What the temporary checkpoint protects: the paths it lists as modified
    and as created. *)
Definition temp_protected (m : gmap string node) : list string :=
  lines_of m (filepaths_of (direc_temp self))
  ++ lines_of m (new_files_of (direc_temp self)).

Lemma check_tempfile_saves_readable (save_files : list string) (st : state) :
  list_readable (fs st) (filepaths_of (direc_temp self)) = true ->
  list_readable (fs st) (new_files_of (direc_temp self)) = true ->
  _check_tempfile_saves self save_files st
  = check_each save_files (temp_protected (fs st)) st.
Proof.
  intros H1 H2. unfold _check_tempfile_saves.
  fold (filepaths_of (direc_temp self)) (new_files_of (direc_temp self)).
  unfold bind at 1. rewrite (protected_from_readable _ _ H1).
  unfold bind at 1. now rewrite (protected_from_readable _ _ H2).
Qed.

Lemma check_tempfile_saves_unreadable (save_files : list string) (st : state) :
  list_readable (fs st) (filepaths_of (direc_temp self))
  && list_readable (fs st) (new_files_of (direc_temp self)) = false ->
  _check_tempfile_saves self save_files st = (Exc IOError, st).
Proof.
  intros H. unfold _check_tempfile_saves.
  fold (filepaths_of (direc_temp self)) (new_files_of (direc_temp self)).
  unfold bind at 1.
  destruct (list_readable (fs st) (filepaths_of (direc_temp self))) eqn:H1.
  - rewrite (protected_from_readable _ _ H1).
    unfold bind at 1. cbn [andb] in H.
    now rewrite (protected_from_unreadable _ _ H).
  - now rewrite (protected_from_unreadable _ _ H1).
Qed.

(** C3, with what the guard reads spelled out: [add_to_checkpoint] first
    checks the request against the lines it reads back from FILEPATHS and
    NEW_FILES of the temporary checkpoint (a staged path is such a line
    when it has no line break in it). When both lists can be read, each
    being absent or readable, and a requested path is among these lines,
    the call raises the "Attempting to overwrite challenge file" error of
    the class, naming the first of these lines that is requested, and the
    state is the one it started from: no directory made, no file copied,
    no list file written. When one of the lists is there and cannot be
    read, the call raises [IOError] instead, whatever is requested, and
    again changes nothing. *)
Theorem add_to_checkpoint_conflict
    (save_files : list string) (save_notes : string) (st : state) :
  (list_readable (fs st) (filepaths_of (direc_temp self))
   && list_readable (fs st) (new_files_of (direc_temp self)) = true ->
   forall f, f ∈ save_files -> f ∈ temp_protected (fs st) ->
   exists g,
     List.find (fun p => bool_decide (p ∈ save_files)) (temp_protected (fs st))
     = Some g /\
     g ∈ save_files /\ g ∈ temp_protected (fs st) /\
     add_to_checkpoint self save_files save_notes st
     = (Exc (LetsEncryptReverterError
               ("Attempting to overwrite challenge file - " +:+ g)), st)) /\
  (list_readable (fs st) (filepaths_of (direc_temp self))
   && list_readable (fs st) (new_files_of (direc_temp self)) = false ->
   add_to_checkpoint self save_files save_notes st = (Exc IOError, st)).
Proof.
  split.
  - intros [H1 H2]%andb_true_iff f Hs Hp.
    unfold add_to_checkpoint. unfold bind at 1.
    rewrite (check_tempfile_saves_readable _ _ H1 H2), check_each_spec.
    destruct (List.find _ _) as [g |] eqn:Hfind.
    + exists g. split; [reflexivity |].
      apply List.find_some in Hfind as [Hin Hg].
      apply bool_decide_eq_true in Hg.
      split; [exact Hg |]. split; [now apply list_elem_of_In | reflexivity].
    + exfalso.
      apply list_elem_of_In in Hp.
      pose proof (List.find_none _ _ Hfind f Hp) as Hf.
      apply bool_decide_eq_false in Hf. contradiction.
  - intros Hr. unfold add_to_checkpoint. unfold bind at 1.
    now rewrite (check_tempfile_saves_unreadable _ _ Hr).
Qed.

(** X21: when no requested path is protected by the temporary checkpoint,
    whose lists can be read, [add_to_checkpoint] is the staging into the
    progress directory: the guard lets the request through and changes
    nothing on its way. *)
Lemma add_to_checkpoint_no_conflict
    (save_files : list string) (save_notes : string) (st : state) :
  list_readable (fs st) (filepaths_of (direc_temp self)) = true ->
  list_readable (fs st) (new_files_of (direc_temp self)) = true ->
  (forall f, f ∈ save_files -> f ∉ temp_protected (fs st)) ->
  add_to_checkpoint self save_files save_notes st
  = _add_to_checkpoint_dir (direc_progress self) save_files save_notes st.
Proof.
  intros H1 H2 Hno. unfold add_to_checkpoint. unfold bind at 1.
  rewrite (check_tempfile_saves_readable _ _ H1 H2), check_each_spec.
  destruct (List.find _ _) as [g |] eqn:Hfind; [| reflexivity].
  apply List.find_some in Hfind as [Hin Hg].
  apply bool_decide_eq_true in Hg. apply list_elem_of_In in Hin.
  now destruct (Hno g Hg).
Qed.

End StagingGuard.

(** ** Rollback: which backups, in which order *)

Lemma pop_snoc (l : list string) (x : string) : pop (l ++ [x]) = Some (l, x).
Proof.
  induction l as [| y l IH]; [reflexivity |].
  cbn [app pop]. rewrite IH.
  destruct (l ++ [x]) eqn:E; [now destruct l | reflexivity].
Qed.

Lemma pop_rev (l : list string) :
  pop l = match rev l with
          | [] => None
          | x :: r => Some (rev r, x)
          end.
Proof.
  destruct (rev l) as [| x r] eqn:E.
  - apply (f_equal (@rev string)) in E. rewrite rev_involutive in E.
    now subst l.
  - apply (f_equal (@rev string)) in E. rewrite rev_involutive in E.
    subst l. cbn [rev]. apply pop_snoc.
Qed.

Lemma insert_sorted_perm (x : string) (l : list string) :
  Permutation (x :: l) (insert_sorted x l).
Proof.
  induction l as [| y l IH]; [reflexivity |].
  cbn [insert_sorted]. destruct (String.leb x y); [reflexivity |].
  rewrite perm_swap. now apply perm_skip.
Qed.

Lemma py_sort_perm (l : list string) : Permutation l (py_sort l).
Proof.
  induction l as [| x l IH]; [reflexivity |].
  cbn [py_sort foldr]. rewrite <- insert_sorted_perm. now apply perm_skip.
Qed.




Section RollbackFacts.

Variable self : Reverter.

(** One turn of the loop of [rollback_checkpoints] on the backup [name]. *)
Definition rollback_one (name : string) : M unit :=
  try_except (_recover_checkpoint (os_path_join (direc_backup self) name))
    (on_reverter_error
       (logging FATAL "Failed to load checkpoint during rollback" ;;;
        raise (LetsEncryptReverterError
                 "Unable to load checkpoint during rollback"))).

(** The turns on a list of names, one after the other. *)
Fixpoint rollback_all (names : list string) : M unit :=
  match names with
  | [] => ret tt
  | name :: rest => rollback_one name ;;; rollback_all rest
  end.

(** The loop takes the names from the end of the sorted list, as many as
    the counter allows. *)
Lemma rollback_loop_spec (rollback : nat) :
  forall (backups : list string) (st : state),
    rollback_loop self rollback backups st
    = rollback_all (take rollback (rev backups)) st.
Proof.
  induction rollback as [| n IH]; intros backups st.
  - reflexivity.
  - cbn [rollback_loop]. rewrite pop_rev.
    destruct (rev backups) as [| x r]; [reflexivity |].
    cbn [take rollback_all]. fold (rollback_one x).
    unfold bind. destruct (rollback_one x st) as [[[] | e] st1]; [| reflexivity].
    now rewrite IH, rev_involutive.
Qed.

(** The backups in the order of their names. *)
Definition sorted_backups (m : gmap string node) : list string :=
  py_sort (entries m (direc_backup self)).

(** The state after the remark on missing backups, made when fewer exist
    than were asked for. *)
Definition shortfall_logged (rollback : nat) (st : state) : state :=
  let k := length (sorted_backups (fs st)) in
  if (k <? rollback)%nat then
    {| fs := fs st;
       log := log st ++
         [(ERROR, "Unable to rollback " +:+ str_int (Z.of_nat rollback)
                  +:+ " checkpoints, only " +:+ str_int (Z.of_nat k)
                  +:+ " exist")];
       clock := clock st |}
  else st.

(** The number an argument stands for. *)
Definition int_value (v : pyval) : option Z :=
  match v with
  | PyInt z => Some z
  | PyStr s => int_of_str s
  end.

Lemma rollback_checkpoints_spec (v : pyval) (n : nat) (st : state) :
  int_value v = Some (Z.of_nat n) ->
  isdir (fs st) (direc_backup self) = true ->
  rollback_checkpoints self v st
  = rollback_all (take n (rev (sorted_backups (fs st))))
      (shortfall_logged n st).
Proof.
  intros Hv Hd. unfold rollback_checkpoints.
  unfold bind at 1. unfold try_except at 1.
  assert (Hint : py_int v st = (Ok (Z.of_nat n), st)).
  { destruct v as [z | s]; cbn in Hv |- *; [now inversion Hv |].
    now rewrite Hv. }
  rewrite Hint.
  destruct (Z.ltb_spec (Z.of_nat n) 0) as [Hneg | _]; [lia |].
  unfold bind at 1. unfold os_listdir at 1. rewrite Hd.
  fold (sorted_backups (fs st)).
  unfold bind at 1. unfold shortfall_logged.
  rewrite Nat2Z.id.
  destruct (Z.ltb_spec (Z.of_nat (length (sorted_backups (fs st)))) (Z.of_nat n))
    as [Hlt | Hge].
  - destruct (Nat.ltb_spec (length (sorted_backups (fs st))) n) as [_ | Hge];
      [| lia].
    unfold logging at 1. apply rollback_loop_spec.
  - destruct (Nat.ltb_spec (length (sorted_backups (fs st))) n) as [Hlt | _];
      [lia |].
    cbn [ret]. apply rollback_loop_spec.
Qed.

(** [reverts names st st']: recovering the backups [names] one after the
    other from [st] goes well and ends in [st']. *)
Inductive reverts : list string -> state -> state -> Prop :=
| reverts_nil (st : state) : reverts [] st st
| reverts_cons (name : string) (rest : list string) (st st1 st2 : state) :
    _recover_checkpoint (os_path_join (direc_backup self) name) st = (Ok tt, st1) ->
    reverts rest st1 st2 ->
    reverts (name :: rest) st st2.


(** Each backup that was reverted is gone from the backup directory once
    its turn is over. *)
Lemma reverts_removes_first (name : string) (rest : list string) (st st' : state) :
  reverts (name :: rest) st st' ->
  exists st1,
    _recover_checkpoint (os_path_join (direc_backup self) name) st = (Ok tt, st1) /\
    fs st1 !! os_path_join (direc_backup self) name = None /\
    reverts rest st1 st'.
Proof.
  inversion 1 as [| ? ? ? st1 ? Hrec Hrest]; subst.
  exists st1. split; [exact Hrec |]. split; [| exact Hrest].
  now apply recover_ok_removes_dir in Hrec.
Qed.


(** Asked for no step back, the call lists the backups and returns. *)
Lemma rollback_zero (st : state) :
  isdir (fs st) (direc_backup self) = true ->
  rollback_checkpoints self (PyInt 0) st = (Ok tt, st).
Proof.
  intros Hd. now rewrite (rollback_checkpoints_spec (PyInt 0) 0 st eq_refl Hd).
Qed.

End RollbackFacts.

(** ** Staging: what a checkpoint directory holds *)

Lemma all_digits_no_slash (d : string) :
  all_digits d = true -> has_slash d = false.
Proof.
  induction d as [| c d IH]; [reflexivity |].
  cbn [all_digits has_slash]. intros [Hc Hd]%andb_true_iff.
  rewrite (IH Hd), orb_false_r.
  destruct (Ascii.eqb_spec c SLASH) as [-> | _]; [discriminate | reflexivity].
Qed.

Lemma ends_with_digit_sapp_r (a b : string) :
  ends_with_digit b = true -> ends_with_digit (a +:+ b) = true.
Proof.
  intros Hb. induction a as [| c a IH]; [exact Hb |].
  rewrite sapp_cons. cbn [ends_with_digit].
  destruct (a +:+ b) eqn:E; [| exact IH].
  destruct a; [change (b = "") in E; now subst b |].
  rewrite sapp_cons in E. discriminate.
Qed.

Lemma ends_with_digit_no_slash_end (s : string) :
  ends_with_digit s = true -> ends_with_slash s = false.
Proof.
  induction s as [| c s IH]; [reflexivity |].
  cbn [ends_with_digit ends_with_slash].
  destruct s as [| c' s]; [| exact IH].
  intros H. destruct (Ascii.eqb_spec c SLASH) as [-> | _];
    [discriminate | reflexivity].
Qed.

(** The name of the snapshot of [filename] taken at index [idx]. *)
Definition tag (filename : string) (idx : nat) : string :=
  os_path_basename filename +:+ "_" +:+ str_nat idx.

Definition snapshot_path (cp_dir filename : string) (idx : nat) : string :=
  os_path_join cp_dir (tag filename idx).

Lemma tag_ends_with_digit (filename : string) (idx : nat) :
  ends_with_digit (tag filename idx) = true.
Proof.
  unfold tag. apply ends_with_digit_sapp_r, ends_with_digit_sapp_r.
  apply all_digits_end; [apply str_nat_digits | apply str_nat_nonempty].
Qed.

Lemma tag_no_slash (filename : string) (idx : nat) :
  has_slash (tag filename idx) = false.
Proof.
  unfold tag. rewrite !has_slash_sapp, basename_no_slash.
  now rewrite (all_digits_no_slash _ (str_nat_digits idx)).
Qed.

Lemma tag_index (f g : string) (i j : nat) : tag f i = tag g j -> i = j.
Proof.
  unfold tag. intros E. apply str_nat_inj.
  apply (tag_inj _ _ _ _ (str_nat_digits i) (str_nat_digits j) E).
Qed.

(** A name that no snapshot and no copy into a snapshot directory can
    have: it has no slash and does not end with a digit. *)
Definition plain_name (a : string) : bool :=
  negb (has_slash a) && negb (ends_with_digit a).

Section CheckpointPaths.

Variable cp_dir : string.

(** The path of the entry [a] of the checkpoint directory. *)
Definition member (a : string) : string := os_path_join cp_dir "" +:+ a.

Lemma member_join (a : string) :
  starts_with_slash a = false -> os_path_join cp_dir a = member a.
Proof. apply os_path_join_pre. Qed.

Lemma member_inj (a b : string) : member a = member b -> a = b.
Proof. unfold member. apply String.app_inj. Qed.

Lemma member_not_dir (a : string) : a <> "" -> member a <> cp_dir.
Proof.
  intros Ha E. unfold member, os_path_join in E. cbn [starts_with_slash] in E.
  destruct (String.eqb cp_dir "" || ends_with_slash cp_dir).
  - rewrite sapp_nil_r in E. rewrite <- (sapp_nil_r cp_dir) in E at 2.
    now apply String.app_inj in E.
  - change ("/" +:+ "") with "/" in E. rewrite sapp_assoc in E.
    rewrite <- (sapp_nil_r cp_dir) in E at 2.
    apply String.app_inj in E. discriminate.
Qed.

Lemma under_member (a : string) : under cp_dir (member a) = true.
Proof. unfold under, member. apply prefix_sapp. Qed.

Lemma snapshot_member (filename : string) (idx : nat) :
  snapshot_path cp_dir filename idx = member (tag filename idx).
Proof.
  unfold snapshot_path. apply member_join, no_slash_start, tag_no_slash.
Qed.

(** Where [shutil.copy2] writes when it is given a snapshot path: the
    path, or an entry of it should it be a directory. *)
Lemma copy_target_member (m : gmap string node) (src filename : string) (idx : nat) :
  exists a,
    (if isdir m (snapshot_path cp_dir filename idx)
     then os_path_join (snapshot_path cp_dir filename idx) (os_path_basename src)
     else snapshot_path cp_dir filename idx) = member a /\
    plain_name a = false.
Proof.
  destruct (isdir m (snapshot_path cp_dir filename idx)).
  - exists (tag filename idx +:+ "/" +:+ os_path_basename src). split.
    + unfold os_path_join at 1.
      rewrite (no_slash_start _ (basename_no_slash src)).
      rewrite snapshot_member.
      assert (Hd : ends_with_digit (member (tag filename idx)) = true)
        by apply ends_with_digit_sapp_r, tag_ends_with_digit.
      rewrite (ends_with_digit_no_slash_end _ Hd), orb_false_r.
      destruct (String.eqb_spec (member (tag filename idx)) "") as [E | _].
      * rewrite E in Hd. discriminate.
      * unfold member. now rewrite !sapp_assoc.
    + unfold plain_name. rewrite !has_slash_sapp.
      change (has_slash "/") with true. now rewrite orb_true_r.
  - exists (tag filename idx). split; [apply snapshot_member |].
    unfold plain_name. now rewrite tag_ends_with_digit, andb_false_r.
Qed.

End CheckpointPaths.

(** [shutil.copy2] that ends well has written one path, its target. *)
Lemma shutil_copy2_ok (src dst : string) (st st' : state) :
  shutil_copy2 src dst st = (Ok tt, st') ->
  exists content mode,
    fs st !! src = Some (File content mode) /\
    st' = set_fs st
            (<[(if isdir (fs st) dst
                then os_path_join dst (os_path_basename src) else dst)
               := File content mode]> (fs st)).
Proof.
  unfold shutil_copy2.
  set (d := if isdir (fs st) dst
            then os_path_join dst (os_path_basename src) else dst).
  destruct (String.eqb src d && lexists (fs st) src); [discriminate |].
  destruct (fs st !! src) as [[c m |] |]; try discriminate.
  destruct (readable m); [| discriminate].
  intros E. exists c, m. split; [reflexivity |].
  destruct (fs st !! d) as [[c' m' |] |].
  - destruct (writable m'); [now injection E | discriminate].
  - discriminate.
  - destruct (parent_ok (fs st) d); [now injection E | discriminate].
Qed.

(** ** Staging: files already listed *)

(** The requested files that the list does not have yet, in the order of
    the request. *)
Fixpoint unlisted (existing_filepaths save_files : list string) : list string :=
  match save_files with
  | [] => []
  | f :: rest =>
      if bool_decide (f ∈ existing_filepaths)
      then unlisted existing_filepaths rest
      else f :: unlisted existing_filepaths rest
  end.

Lemma elem_of_unlisted (existing save_files : list string) (f : string) :
  f ∈ save_files -> f ∉ existing -> f ∈ unlisted existing save_files.
Proof.
  intros Hin Hex. induction save_files as [| g rest IH].
  - now apply elem_of_nil in Hin.
  - cbn [unlisted]. apply elem_of_cons in Hin as [-> | Hin].
    + rewrite bool_decide_eq_false_2 by exact Hex. apply list_elem_of_here.
    + destruct (bool_decide (g ∈ existing)); [now apply IH |].
      apply list_elem_of_further. now apply IH.
Qed.

Definition changes_since_of (cp_dir : string) : string :=
  os_path_join cp_dir "CHANGES_SINCE".

Section StagingFacts.

Variable cp_dir : string.

Lemma filepaths_member : filepaths_of cp_dir = member cp_dir "FILEPATHS".
Proof. now apply member_join. Qed.

Lemma changes_since_member :
  changes_since_of cp_dir = member cp_dir "CHANGES_SINCE".
Proof. now apply member_join. Qed.

Lemma new_files_member : new_files_of cp_dir = member cp_dir "NEW_FILES".
Proof. now apply member_join. Qed.

(** Nothing is done for files that are all listed. *)
Lemma save_each_listed (existing save_files : list string) (idx : nat) (st : state) :
  (forall f, f ∈ save_files -> f ∈ existing) ->
  save_each cp_dir (filepaths_of cp_dir) existing idx save_files st = (Ok tt, st).
Proof.
  induction save_files as [| f rest IH]; intros Hall; [reflexivity |].
  cbn [save_each].
  rewrite bool_decide_eq_true_2 by (apply Hall, list_elem_of_here).
  apply IH. intros g Hg. now apply Hall, list_elem_of_further.
Qed.

(** A run of the loop that ends well has appended the unlisted files to
    FILEPATHS and, besides, written snapshot entries only. *)
Lemma save_each_ok (existing save_files : list string) :
  forall (idx : nat) (st st' : state) (content : string) (mode : Z),
    save_each cp_dir (filepaths_of cp_dir) existing idx save_files st
    = (Ok tt, st') ->
    fs st !! filepaths_of cp_dir = Some (File content mode) ->
    fs st' !! filepaths_of cp_dir
    = Some (File (content +:+ lines_text (unlisted existing save_files)) mode) /\
    (forall p, p <> filepaths_of cp_dir ->
               (forall a, plain_name a = false -> p <> member cp_dir a) ->
               fs st' !! p = fs st !! p).
Proof.
  induction save_files as [| f rest IH]; intros idx st st' content mode E Hfp.
  - injection E as <-. cbn [unlisted lines_text]. rewrite sapp_nil_r. auto.
  - cbn [save_each unlisted] in E |- *.
    destruct (bool_decide (f ∈ existing)); [now apply (IH idx) |].
    apply bind_ok_inv in E as ([] & st1 & E1 & E).
    apply bind_ok_inv in E as ([] & st2 & E2 & E).
    apply bind_ok_inv in E as ([] & st3 & E3 & E).
    unfold logging in E1. injection E1 as <-.
    apply shutil_copy2_ok in E2 as (c & m & Hsrc & ->).
    cbn [fs] in *.
    destruct (copy_target_member cp_dir (fs st) f f idx) as (a & Ha & Hplain).
    unfold snapshot_path, tag in Ha. rewrite Ha in E3. clear Ha.
    assert (Hne : member cp_dir a <> filepaths_of cp_dir).
    { rewrite filepaths_member. intros Heq%member_inj. now subst a. }
    unfold fd_write in E3. cbn [fs set_fs] in E3.
    rewrite lookup_insert_ne, Hfp in E3 by exact Hne.
    injection E3 as <-.
    eapply IH in E; [| cbn [fs set_fs]; apply lookup_insert_eq].
    destruct E as [Hfp' Hframe]. split.
    + rewrite Hfp'. cbn [lines_text]. now rewrite !sapp_assoc.
    + intros p Hp Hsnap. rewrite (Hframe p Hp Hsnap). cbn [fs set_fs].
      rewrite lookup_insert_ne by congruence.
      rewrite lookup_insert_ne; [reflexivity |].
      intros <-. now apply (Hsnap a).
Qed.

(** The list file, when there, is empty or ends with a newline. *)
Definition list_terminated (m : gmap string node) (p : string) : bool :=
  match m !! p with
  | Some (File content _) => ends_with_nl content
  | _ => true
  end.

Lemma changes_since_not_filepaths :
  changes_since_of cp_dir <> filepaths_of cp_dir.
Proof.
  rewrite changes_since_member, filepaths_member.
  intros E%member_inj. discriminate.
Qed.

Lemma filepaths_not_dir : filepaths_of cp_dir <> cp_dir.
Proof. rewrite filepaths_member. now apply member_not_dir. Qed.

Lemma changes_since_not_dir : changes_since_of cp_dir <> cp_dir.
Proof. rewrite changes_since_member. now apply member_not_dir. Qed.

(** Staging files that FILEPATHS lists already: nothing is copied and
    nothing listed, the note alone is appended to CHANGES_SINCE. *)
Lemma staging_listed_files
    (save_files : list string) (save_notes : string) (st : state)
    (content old : string) (mode cmode : Z) :
  isdir (fs st) cp_dir = true ->
  fs st !! filepaths_of cp_dir = Some (File content mode) ->
  readable mode = true -> writable mode = true ->
  (forall f, f ∈ save_files -> f ∈ splitlines content) ->
  fs st !! changes_since_of cp_dir = Some (File old cmode) ->
  writable cmode = true ->
  _add_to_checkpoint_dir cp_dir save_files save_notes st
  = (Ok tt, set_fs st (<[changes_since_of cp_dir := File (old +:+ save_notes) cmode]>
                         (fs st))).
Proof.
  intros Hd Hfp Hr Hw Hall Hcs Hcw.
  unfold _add_to_checkpoint_dir.
  fold (filepaths_of cp_dir) (changes_since_of cp_dir).
  unfold bind at 1. unfold make_or_verify_dir at 1.
  unfold isdir in Hd. destruct (fs st !! cp_dir) as [[] |]; try discriminate.
  unfold bind at 1. unfold os_path_isfile at 1. unfold isfile. rewrite Hfp.
  unfold bind at 1. unfold bind at 1. unfold open_rw at 1. rewrite Hfp, Hr, Hw.
  cbn [andb]. unfold bind at 1. unfold read_file at 1. rewrite Hfp, Hr.
  cbn [ret]. unfold bind at 1. rewrite (save_each_listed _ _ _ _ Hall).
  unfold bind at 1. unfold open_a at 1. rewrite Hcs, Hcw.
  unfold fd_write. now rewrite Hcs.
Qed.

(** What a staging call that ended well leaves behind. *)
Lemma staging_ok_leaves
    (save_files : list string) (save_notes : string) (st st1 : state) :
  list_terminated (fs st) (filepaths_of cp_dir) = true ->
  _add_to_checkpoint_dir cp_dir save_files save_notes st = (Ok tt, st1) ->
  isdir (fs st1) cp_dir = true /\
  (exists content mode,
      fs st1 !! filepaths_of cp_dir = Some (File content mode) /\
      readable mode = true /\ writable mode = true /\
      ends_with_nl content = true /\
      (forall f, f ∈ save_files -> line_safe f = true -> f ∈ splitlines content)) /\
  (exists old cmode,
      fs st1 !! changes_since_of cp_dir = Some (File old cmode) /\
      writable cmode = true).
Proof.
  intros Hterm E. unfold _add_to_checkpoint_dir in E.
  fold (filepaths_of cp_dir) (changes_since_of cp_dir) in E.
  apply bind_ok_inv in E as ([] & sta & Emk & E).
  apply bind_ok_inv in E as (isf & sta' & Eisf & E).
  unfold os_path_isfile in Eisf. injection Eisf as <- <-.
  apply bind_ok_inv in E as (existing & stb & Eopen & E).
  apply bind_ok_inv in E as ([] & stc & Eloop & E).
  apply bind_ok_inv in E as ([] & std & Ea & Ew).
  (* the directory is there *)
  assert (Hdir : isdir (fs sta) cp_dir = true /\
                 fs sta !! filepaths_of cp_dir = fs st !! filepaths_of cp_dir).
  { unfold make_or_verify_dir in Emk. unfold isdir.
    destruct (fs st !! cp_dir) as [[] |] eqn:Hl; try discriminate;
      injection Emk as <-; cbn [fs set_fs].
    - now rewrite Hl.
    - rewrite lookup_insert_eq.
      now rewrite lookup_insert_ne by (apply not_eq_sym, filepaths_not_dir). }
  destruct Hdir as [Hdir Hsame].
  (* the list file is open *)
  assert (Hopen : exists content mode,
             fs stb !! filepaths_of cp_dir = Some (File content mode) /\
             readable mode = true /\ writable mode = true /\
             ends_with_nl content = true /\
             existing = splitlines content /\
             isdir (fs stb) cp_dir = true).
  { unfold isfile in Eopen.
    destruct (fs sta !! filepaths_of cp_dir) as [[c m |] |] eqn:Hl.
    - apply bind_ok_inv in Eopen as ([] & s1 & E1 & E2).
      apply bind_ok_inv in E2 as (c' & s2 & E2 & E3).
      unfold open_rw in E1. rewrite Hl in E1.
      destruct (readable m && writable m) eqn:Hrw; [| discriminate].
      apply andb_true_iff in Hrw as [Hr Hw].
      injection E1 as <-. unfold read_file in E2. rewrite Hl, Hr in E2.
      injection E2 as <- <-. injection E3 as <- <-.
      exists c, m. repeat split; auto.
      unfold list_terminated in Hterm. now rewrite <- Hsame in Hterm.
    - apply bind_ok_inv in Eopen as ([] & s1 & E1 & E2).
      unfold open_w in E1. rewrite Hl in E1. discriminate.
    - apply bind_ok_inv in Eopen as ([] & s1 & E1 & E2).
      unfold open_w in E1. rewrite Hl in E1.
      destruct (parent_ok (fs sta) (filepaths_of cp_dir)); [| discriminate].
      injection E1 as <-. injection E2 as <- <-.
      exists "", default_mode. cbn [fs set_fs].
      rewrite lookup_insert_eq. repeat split; auto.
      unfold isdir. rewrite lookup_insert_ne by apply filepaths_not_dir.
      exact Hdir. }
  destruct Hopen as (content & mode & Hfp & Hr & Hw & Hnl & -> & Hdirb).
  (* the loop *)
  destruct (save_each_ok _ _ _ _ _ _ _ Eloop Hfp) as [Hfpc Hframe].
  assert (Hdirc : isdir (fs stc) cp_dir = true).
  { unfold isdir. rewrite Hframe; [exact Hdirb | | ].
    - apply not_eq_sym, filepaths_not_dir.
    - intros a Ha E'. symmetry in E'. apply member_not_dir in E'; [exact E' |].
      intros ->. discriminate. }
  (* the note *)
  assert (Hcs : exists old cmode,
             fs std !! changes_since_of cp_dir = Some (File old cmode) /\
             writable cmode = true /\
             (forall p, p <> changes_since_of cp_dir -> fs std !! p = fs stc !! p)).
  { unfold open_a in Ea.
    destruct (fs stc !! changes_since_of cp_dir) as [[c m |] |] eqn:Hl;
      try discriminate.
    - destruct (writable m) eqn:Hwm; [| discriminate]. injection Ea as <-.
      exists c, m. auto.
    - destruct (parent_ok (fs stc) (changes_since_of cp_dir)); [| discriminate].
      injection Ea as <-. exists "", default_mode. cbn [fs set_fs].
      rewrite lookup_insert_eq. repeat split; auto.
      intros p Hp. now rewrite lookup_insert_ne by congruence. }
  destruct Hcs as (old & cmode & Hcs & Hcw & Hframe').
  unfold fd_write in Ew. rewrite Hcs in Ew. injection Ew as <-.
  cbn [fs set_fs]. split; [| split].
  - unfold isdir.
    rewrite lookup_insert_ne by apply changes_since_not_dir.
    rewrite Hframe' by (apply not_eq_sym, changes_since_not_dir). exact Hdirc.
  - exists (content +:+ lines_text (unlisted (splitlines content) save_files)), mode.
    rewrite lookup_insert_ne by apply changes_since_not_filepaths.
    rewrite Hframe' by (apply not_eq_sym, changes_since_not_filepaths).
    repeat split; auto.
    + now apply ends_with_nl_append_lines.
    + intros f Hin Hsafe. rewrite splitlines_sapp by exact Hnl.
      apply elem_of_app.
      destruct (decide (f ∈ splitlines content)) as [Hex | Hex]; [now left |].
      right. apply splitlines_lines_text_elem; [exact Hsafe |].
      now apply elem_of_unlisted.
  - exists (old +:+ save_notes), cmode. now rewrite lookup_insert_eq.
Qed.

(** C4, for paths that fit on a line: once a staging call has ended well,
    staging again a path of that call which has no line break in it (so
    that it reads back from FILEPATHS as it was written) ends well and
    changes one thing, CHANGES_SINCE, which has the second note appended:
    FILEPATHS, every snapshot and every other path are as the first call
    left them. The list file before the first call is absent or ends with
    a newline, as every list this class writes does. *)
Theorem staging_again_only_adds_note
    (save_files : list string) (save_notes second_notes f : string)
    (st st1 : state) :
  list_terminated (fs st) (filepaths_of cp_dir) = true ->
  _add_to_checkpoint_dir cp_dir save_files save_notes st = (Ok tt, st1) ->
  f ∈ save_files ->
  line_safe f = true ->
  exists old cmode,
    fs st1 !! changes_since_of cp_dir = Some (File old cmode) /\
    _add_to_checkpoint_dir cp_dir [f] second_notes st1
    = (Ok tt,
       {| fs := <[changes_since_of cp_dir := File (old +:+ second_notes) cmode]>
                  (fs st1);
          log := log st1;
          clock := clock st1 |}).
Proof.
  intros Hterm E Hin Hsafe.
  destruct (staging_ok_leaves _ _ _ _ Hterm E)
    as (Hdir & (content & mode & Hfp & Hr & Hw & _ & Hlisted)
        & (old & cmode & Hcs & Hcw)).
  exists old, cmode. split; [exact Hcs |].
  apply (staging_listed_files [f] second_notes st1 content old mode cmode);
    auto.
  intros g Hg. apply list_elem_of_singleton in Hg as ->. now apply Hlisted.
Qed.

End StagingFacts.

(** ** The directory of an entry *)

Lemma split_last_no_slash (a : string) :
  has_slash a = false -> split_last a = ("", a).
Proof.
  induction a as [| c a IH]; [reflexivity |].
  cbn [has_slash]. intros [Hc Ha]%orb_false_iff.
  cbn [split_last]. rewrite (IH Ha). cbn. now rewrite Hc.
Qed.

Lemma split_last_join (h a : string) :
  has_slash a = false -> split_last (h +:+ "/" +:+ a) = (h +:+ "/", a).
Proof.
  intros Ha. induction h as [| c h IH].
  - change ("" +:+ "/" +:+ a) with (String SLASH a).
    cbn [split_last]. now rewrite (split_last_no_slash a Ha).
  - rewrite sapp_cons. cbn [split_last]. rewrite IH.
    destruct h; reflexivity.
Qed.

(** A directory path as the program writes them: not empty, no slash at
    its end. *)
Definition plain_dir (d : string) : bool :=
  negb (String.eqb d "") && negb (ends_with_slash d).

Lemma rstrip_slash_dir (d : string) :
  plain_dir d = true -> rstrip_slash (d +:+ "/") = d.
Proof.
  unfold plain_dir. induction d as [| c d IH]; [discriminate |].
  intros H. cbn [String.eqb negb andb] in H.
  rewrite sapp_cons. cbn [rstrip_slash].
  destruct d as [| c' d].
  - cbn [ends_with_slash] in H. apply negb_true_iff in H.
    change (rstrip_slash ("" +:+ "/")) with "". cbn. now rewrite H.
  - rewrite IH by exact H. reflexivity.
Qed.

Lemma os_path_join_plain (d a : string) :
  plain_dir d = true -> starts_with_slash a = false ->
  os_path_join d a = d +:+ "/" +:+ a.
Proof.
  unfold plain_dir. intros [H1 H2]%andb_true_iff Ha.
  apply negb_true_iff in H1, H2.
  unfold os_path_join. now rewrite Ha, H1, H2.
Qed.

(** The directory of an entry of [d] is [d]. *)
Lemma os_path_dirname_join (d a : string) :
  plain_dir d = true -> has_slash a = false ->
  os_path_dirname (os_path_join d a) = d.
Proof.
  intros Hd Ha.
  rewrite (os_path_join_plain d a Hd (no_slash_start a Ha)).
  unfold os_path_dirname. rewrite (split_last_join d a Ha). cbn [fst].
  rewrite (rstrip_slash_dir d Hd).
  unfold plain_dir in Hd. apply andb_true_iff in Hd as [Hd _].
  apply negb_true_iff in Hd. now rewrite Hd.
Qed.

Lemma ends_with_slash_split (d : string) :
  ends_with_slash d = true -> exists h, d = h +:+ "/".
Proof.
  induction d as [| c d IH]; [discriminate |].
  cbn [ends_with_slash]. destruct d as [| c' d].
  - intros H%Ascii.eqb_eq. subst c. now exists "".
  - intros H. destruct (IH H) as [h Hh]. exists (String c h).
    rewrite sapp_cons. now f_equal.
Qed.

(** An entry of a directory that is there has its directory, however
    the directory path is spelled. *)
Lemma parent_ok_join (m : gmap string node) (d a : string) :
  has_slash a = false -> isdir m d = true ->
  parent_ok m (os_path_join d a) = true.
Proof.
  intros Ha Hm. unfold parent_ok.
  destruct (plain_dir d) eqn:Hd.
  - rewrite (os_path_dirname_join d a Hd Ha), Hm.
    now rewrite orb_true_r.
  - unfold os_path_join. rewrite (no_slash_start a Ha).
    unfold plain_dir in Hd.
    destruct (String.eqb_spec d "") as [-> | Hne].
    + cbn [orb]. rewrite sapp_nil_l. unfold os_path_dirname.
      now rewrite (split_last_no_slash a Ha).
    + cbn [negb andb orb] in Hd. apply negb_false_iff in Hd. rewrite Hd.
      destruct (ends_with_slash_split d Hd) as [h ->].
      cbn [orb]. rewrite sapp_assoc, (split_last_join h a Ha). cbn [fst].
      rewrite Hm. apply orb_true_r.
Qed.

(** ** Staging into a new checkpoint, and recovering it *)

(** A copy onto a free name, or onto a writable file. *)
Lemma shutil_copy2_new (src dst content : string) (mode : Z) (st : state) :
  fs st !! src = Some (File content mode) -> readable mode = true ->
  fs st !! dst = None -> parent_ok (fs st) dst = true ->
  shutil_copy2 src dst st
  = (Ok tt, set_fs st (<[dst := File content mode]> (fs st))).
Proof.
  intros Hsrc Hr Hdst Hpar. unfold shutil_copy2, isdir. rewrite Hdst.
  destruct (String.eqb_spec src dst) as [E | _]; [congruence |].
  cbn [andb]. now rewrite Hsrc, Hr, Hdst, Hpar.
Qed.

Lemma shutil_copy2_over (src dst content old : string) (mode dmode : Z)
    (st : state) :
  fs st !! src = Some (File content mode) -> readable mode = true ->
  fs st !! dst = Some (File old dmode) -> writable dmode = true ->
  src <> dst ->
  shutil_copy2 src dst st
  = (Ok tt, set_fs st (<[dst := File content mode]> (fs st))).
Proof.
  intros Hsrc Hr Hdst Hw Hne. unfold shutil_copy2, isdir. rewrite Hdst.
  destruct (String.eqb_spec src dst) as [E | _]; [congruence |].
  cbn [andb]. now rewrite Hsrc, Hr, Hdst, Hw.
Qed.

Section RoundTrip.

Variable cp_dir : string.

Lemma in_tree_member (a : string) : in_tree cp_dir (member cp_dir a) = true.
Proof. unfold in_tree. rewrite under_member. apply orb_true_r. Qed.

Lemma in_tree_snapshot (f : string) (i : nat) :
  in_tree cp_dir (snapshot_path cp_dir f i) = true.
Proof. rewrite snapshot_member. apply in_tree_member. Qed.

Lemma snapshot_not_filepaths (f : string) (i : nat) :
  snapshot_path cp_dir f i <> filepaths_of cp_dir.
Proof.
  rewrite snapshot_member, filepaths_member. intros E%member_inj.
  pose proof (tag_ends_with_digit f i) as H. rewrite E in H. discriminate.
Qed.

Lemma snapshot_not_dir (f : string) (i : nat) :
  snapshot_path cp_dir f i <> cp_dir.
Proof.
  rewrite snapshot_member. apply member_not_dir. intros E.
  pose proof (tag_ends_with_digit f i) as H. rewrite E in H. discriminate.
Qed.

Lemma snapshot_index (f g : string) (i j : nat) :
  snapshot_path cp_dir f i = snapshot_path cp_dir g j -> i = j.
Proof.
  rewrite !snapshot_member. intros E%member_inj. now apply tag_index in E.
Qed.

(** The loop of the staging on a list file that lists nothing yet, with
    the snapshot slots from [idx] on free: every file is copied to its
    slot and listed. *)
Lemma save_each_fresh (save_files : list string) :
  forall (idx : nat) (st : state) (content : string) (mode : Z),
    isdir (fs st) cp_dir = true ->
    fs st !! filepaths_of cp_dir = Some (File content mode) ->
    (forall f, f ∈ save_files ->
       in_tree cp_dir f = false /\
       exists c m, fs st !! f = Some (File c m) /\ readable m = true) ->
    (forall i f, (idx <= i)%nat -> fs st !! snapshot_path cp_dir f i = None) ->
    exists st',
      save_each cp_dir (filepaths_of cp_dir) [] idx save_files st = (Ok tt, st') /\
      fs st' !! filepaths_of cp_dir
      = Some (File (content +:+ lines_text save_files) mode) /\
      (forall i f, save_files !! i = Some f ->
         fs st' !! snapshot_path cp_dir f (idx + i) = fs st !! f) /\
      (forall p, p <> filepaths_of cp_dir ->
         (forall i f, save_files !! i = Some f ->
                      p <> snapshot_path cp_dir f (idx + i)) ->
         fs st' !! p = fs st !! p).
Proof.
  induction save_files as [| f rest IH];
    intros idx st content mode Hdir Hfp Hfiles Hfree.
  - exists st. cbn [lines_text]. rewrite sapp_nil_r.
    repeat split; auto. intros i f Hi. discriminate.
  - cbn [save_each].
    rewrite bool_decide_eq_false_2 by apply not_elem_of_nil.
    destruct (Hfiles f (list_elem_of_here _ _)) as (Hout & c & m & Hf & Hr).
    fold (tag f idx). fold (snapshot_path cp_dir f idx).
    set (snap := snapshot_path cp_dir f idx).
    assert (Hsnap_tree : in_tree cp_dir snap = true) by apply in_tree_snapshot.
    assert (Hsnap_f : forall g, in_tree cp_dir g = false -> g <> snap).
    { intros g Hg ->. congruence. }
    assert (Hpar : parent_ok (fs st) snap = true).
    { apply parent_ok_join; [apply tag_no_slash | exact Hdir]. }
    unfold bind at 1. unfold logging at 1.
    unfold bind at 1.
    erewrite (shutil_copy2_new f snap c m);
      [ | exact Hf | exact Hr | exact (Hfree idx f (le_n idx)) | exact Hpar ].
    unfold bind at 1. unfold fd_write at 1. cbn [fs set_fs].
    rewrite lookup_insert_ne by apply snapshot_not_filepaths. rewrite Hfp.
    edestruct (IH (S idx)) as (st' & Erun & Hfp' & Hsnaps & Hframe);
      [ | | | | exists st'; split; [exact Erun |] ].
    + cbn [fs set_fs]. unfold isdir.
      rewrite lookup_insert_ne by apply filepaths_not_dir.
      rewrite lookup_insert_ne by apply snapshot_not_dir. exact Hdir.
    + cbn [fs set_fs]. apply lookup_insert_eq.
    + intros g Hg. cbn [fs set_fs].
      destruct (Hfiles g (list_elem_of_further _ _ _ Hg)) as (Hgo & Hgf).
      split; [exact Hgo |].
      rewrite lookup_insert_ne.
      * rewrite lookup_insert_ne; [exact Hgf |].
        apply not_eq_sym. now apply Hsnap_f.
      * intros E. rewrite <- E, filepaths_member, in_tree_member in Hgo.
        discriminate.
    + intros i g Hi. cbn [fs set_fs].
      rewrite lookup_insert_ne
        by (apply not_eq_sym, snapshot_not_filepaths).
      rewrite lookup_insert_ne; [apply Hfree; lia |].
      intros E%snapshot_index. lia.
    + split; [| split].
      * rewrite Hfp'. cbn [lines_text]. now rewrite !sapp_assoc.
      * intros i g Hi. destruct i as [| i].
        -- injection Hi as <-. rewrite Nat.add_0_r.
           rewrite Hframe; cbn [fs set_fs].
           ++ rewrite lookup_insert_ne
                by (apply not_eq_sym, snapshot_not_filepaths).
              now rewrite lookup_insert_eq.
           ++ apply snapshot_not_filepaths.
           ++ intros j h _ E%snapshot_index. lia.
        -- change ((f :: rest) !! S i) with (rest !! i) in Hi.
           replace (idx + S i)%nat with (S idx + i)%nat by lia.
           rewrite (Hsnaps i g Hi). cbn [fs set_fs].
           destruct (Hfiles g) as (Hgo & _).
           { apply list_elem_of_further. eapply list_elem_of_lookup_2, Hi. }
           rewrite lookup_insert_ne.
           ++ rewrite lookup_insert_ne; [reflexivity |].
              apply not_eq_sym. now apply Hsnap_f.
           ++ intros E. rewrite <- E, filepaths_member, in_tree_member in Hgo.
              discriminate.
      * intros p Hp Hnot. rewrite Hframe; [| exact Hp |].
        -- cbn [fs set_fs]. rewrite lookup_insert_ne by congruence.
           rewrite lookup_insert_ne; [reflexivity |].
           intros E. apply (Hnot 0%nat f); [reflexivity |].
           now rewrite Nat.add_0_r.
        -- intros i g Hi. replace (S idx + i)%nat with (idx + S i)%nat by lia.
           now apply Hnot.
Qed.

Lemma snapshot_not_plain (f a : string) (i : nat) :
  plain_name a = true -> snapshot_path cp_dir f i <> member cp_dir a.
Proof.
  intros Ha. rewrite snapshot_member. intros E%member_inj. subst a.
  unfold plain_name in Ha. rewrite tag_ends_with_digit in Ha.
  now rewrite andb_false_r in Ha.
Qed.

(** The loop of the recovery, with each listed file outside the
    checkpoint, its snapshot holding what [m0] has for it, and the file
    itself there to be written over: every listed file gets what [m0] has
    for it, and nothing else changes. *)
Lemma restore_each_ok (m0 : gmap string node) (filepaths : list string) :
  forall (idx : nat) (st : state),
    (forall i f, filepaths !! i = Some f ->
       in_tree cp_dir f = false /\
       fs st !! snapshot_path cp_dir f (idx + i) = m0 !! f /\
       (exists c m, m0 !! f = Some (File c m) /\
                    readable m = true /\ writable m = true) /\
       (exists c' m', fs st !! f = Some (File c' m') /\ writable m' = true)) ->
    exists st',
      restore_each cp_dir idx filepaths st = (Ok tt, st') /\
      log st' = log st /\
      (forall f, f ∈ filepaths -> fs st' !! f = m0 !! f) /\
      (forall p, p ∉ filepaths -> fs st' !! p = fs st !! p).
Proof.
  induction filepaths as [| f rest IH]; intros idx st Hall.
  - exists st. repeat split; auto. intros f Hf. now apply elem_of_nil in Hf.
  - cbn [restore_each].
    fold (tag f idx). fold (snapshot_path cp_dir f idx).
    destruct (Hall 0%nat f eq_refl)
      as (Hout & Hsnap & (c & m & Hm0 & Hr & Hw) & (c' & m' & Hf & Hw')).
    rewrite Nat.add_0_r in Hsnap. rewrite Hm0 in Hsnap.
    assert (Hne : snapshot_path cp_dir f idx <> f).
    { intros E. rewrite <- E, in_tree_snapshot in Hout. discriminate. }
    unfold bind at 1.
    rewrite (shutil_copy2_over _ _ c c' m m' st Hsnap Hr Hf Hw' Hne).
    edestruct (IH (S idx)) as (st' & Erun & Hlog & Hin & Hframe);
      [ | exists st'; split; [exact Erun |] ].
    + intros i g Hi. cbn [fs set_fs].
      destruct (Hall (S i) g Hi) as (Hgo & Hgs & Hgm & Hgd).
      split; [exact Hgo |]. split; [| split; [exact Hgm |]].
      * rewrite lookup_insert_ne.
        -- now replace (S idx + i)%nat with (idx + S i)%nat by lia.
        -- intros E. rewrite E, in_tree_snapshot in Hout. discriminate.
      * destruct (decide (f = g)) as [<- | Hfg].
        -- rewrite lookup_insert_eq. eauto.
        -- now rewrite lookup_insert_ne.
    + split; [exact Hlog |]. split.
      * intros g Hg. destruct (decide (g ∈ rest)) as [Hgr | Hgr];
          [now apply Hin |].
        apply elem_of_cons in Hg as [-> | Hg]; [| contradiction].
        rewrite (Hframe f Hgr). cbn [fs set_fs].
        now rewrite lookup_insert_eq.
      * intros p Hp. apply not_elem_of_cons in Hp as [Hpf Hpr].
        rewrite (Hframe p Hpr). cbn [fs set_fs].
        now rewrite lookup_insert_ne.
Qed.

(** Recovering a checkpoint whose list and snapshots are in order, and
    which registers no new file: the listed files are as [m0] has them,
    the directory and all below it are gone, the rest is untouched. *)
Lemma recover_restores (m0 : gmap string node) (filepaths : list string)
    (mode : Z) (st1 : state) :
  isdir (fs st1) cp_dir = true ->
  fs st1 !! filepaths_of cp_dir = Some (File (lines_text filepaths) mode) ->
  readable mode = true ->
  forallb line_safe filepaths = true ->
  isfile (fs st1) (new_files_of cp_dir) = false ->
  (forall i f, filepaths !! i = Some f ->
     in_tree cp_dir f = false /\
     fs st1 !! snapshot_path cp_dir f i = m0 !! f /\
     (exists c m, m0 !! f = Some (File c m) /\
                  readable m = true /\ writable m = true) /\
     (exists c' m', fs st1 !! f = Some (File c' m') /\ writable m' = true)) ->
  exists st2,
    _recover_checkpoint cp_dir st1 = (Ok tt, st2) /\
    log st2 = log st1 /\
    (forall f, f ∈ filepaths -> fs st2 !! f = m0 !! f) /\
    (forall p, in_tree cp_dir p = true -> fs st2 !! p = None) /\
    (forall p, in_tree cp_dir p = false -> p ∉ filepaths ->
               fs st2 !! p = fs st1 !! p).
Proof.
  intros Hdir Hfp Hr Hsafe Hnew Hall.
  destruct (restore_each_ok m0 filepaths 0 st1 Hall)
    as (sta & Erun & Hlog & Hin & Hframe).
  assert (Hout : forall p, in_tree cp_dir p = true -> p ∉ filepaths).
  { intros p Hp Hel. apply list_elem_of_lookup in Hel as [i Hi].
    destruct (Hall i p Hi) as (Hpo & _). congruence. }
  unfold _recover_checkpoint.
  unfold bind at 1. unfold restore_listed. fold (filepaths_of cp_dir).
  unfold bind at 1. unfold os_path_isfile at 1. unfold isfile at 1.
  rewrite Hfp. unfold try_except at 1. unfold bind at 1.
  unfold read_file at 1. rewrite Hfp, Hr.
  rewrite (splitlines_lines_text _ Hsafe), Erun.
  unfold bind at 1. unfold _remove_contained_files.
  fold (new_files_of cp_dir).
  unfold bind at 1. unfold os_path_isfile at 1.
  assert (Hnew' : isfile (fs sta) (new_files_of cp_dir) = false).
  { unfold isfile. rewrite Hframe; [exact Hnew |].
    apply Hout. rewrite new_files_member. apply in_tree_member. }
  rewrite Hnew'. cbn [negb ret].
  unfold remove_checkpoint_dir, try_except, shutil_rmtree.
  assert (Hdir' : isdir (fs sta) cp_dir = true).
  { unfold isdir. rewrite Hframe; [exact Hdir |].
    apply Hout, in_tree_refl. }
  rewrite Hdir'. eexists. split; [reflexivity |]. cbn [fs set_fs log].
  split; [exact Hlog |]. split; [| split].
  - intros f Hf. rewrite remove_tree_lookup.
    destruct (in_tree cp_dir f) eqn:E; [now apply Hout in E | now apply Hin].
  - intros p Hp. now rewrite remove_tree_lookup, Hp.
  - intros p Hp Hnot. rewrite remove_tree_lookup, Hp. now apply Hframe.
Qed.

(** Staging into a directory that is not there yet. *)
Lemma staging_fresh (save_files : list string) (save_notes : string) (st : state) :
  (forall p, in_tree cp_dir p = true -> fs st !! p = None) ->
  (forall f, f ∈ save_files ->
     in_tree cp_dir f = false /\
     exists c m, fs st !! f = Some (File c m) /\ readable m = true) ->
  exists st1,
    _add_to_checkpoint_dir cp_dir save_files save_notes st = (Ok tt, st1) /\
    isdir (fs st1) cp_dir = true /\
    fs st1 !! filepaths_of cp_dir
    = Some (File (lines_text save_files) default_mode) /\
    (forall i f, save_files !! i = Some f ->
       fs st1 !! snapshot_path cp_dir f i = fs st !! f) /\
    fs st1 !! new_files_of cp_dir = None /\
    fs st1 !! changes_since_of cp_dir = Some (File save_notes default_mode) /\
    (forall p, in_tree cp_dir p = false -> fs st1 !! p = fs st !! p).
Proof.
  intros Hfresh Hfiles.
  assert (Hcp : fs st !! cp_dir = None) by apply Hfresh, in_tree_refl.
  assert (Hmem : forall a, fs st !! member cp_dir a = None)
    by (intros a; apply Hfresh, in_tree_member).
  assert (Hfp0 : fs st !! filepaths_of cp_dir = None)
    by (rewrite filepaths_member; apply Hmem).
  unfold _add_to_checkpoint_dir.
  fold (filepaths_of cp_dir) (changes_since_of cp_dir).
  unfold bind at 1. unfold make_or_verify_dir at 1. rewrite Hcp.
  unfold bind at 1. unfold os_path_isfile at 1. unfold isfile at 1.
  cbn [fs set_fs].
  rewrite lookup_insert_ne by (apply not_eq_sym, filepaths_not_dir).
  rewrite Hfp0.
  unfold bind at 1. unfold bind at 1. unfold open_w at 1. cbn [fs set_fs].
  rewrite lookup_insert_ne by (apply not_eq_sym, filepaths_not_dir).
  rewrite Hfp0.
  assert (Hpar : forall a m, has_slash a = false ->
            isdir m cp_dir = true -> parent_ok m (os_path_join cp_dir a) = true).
  { intros a m Ha Hm. now apply parent_ok_join. }
  unfold filepaths_of at 1. rewrite Hpar; [| reflexivity |].
  2:{ unfold isdir. now rewrite lookup_insert_eq. }
  fold (filepaths_of cp_dir). cbn [ret length].
  set (stb := set_fs _ (<[filepaths_of cp_dir := _]> _)).
  destruct (save_each_fresh save_files 0 stb "" default_mode)
    as (stc & Erun & Hfpc & Hsnaps & Hframe).
  { unfold stb, isdir. cbn [fs set_fs].
    rewrite lookup_insert_ne by apply filepaths_not_dir.
    now rewrite lookup_insert_eq. }
  { unfold stb. cbn [fs set_fs]. apply lookup_insert_eq. }
  { intros f Hf. destruct (Hfiles f Hf) as (Hfo & Hff). split; [exact Hfo |].
    unfold stb. cbn [fs set_fs].
    rewrite lookup_insert_ne.
    - rewrite lookup_insert_ne; [exact Hff |].
      intros E. rewrite <- E, in_tree_refl in Hfo. discriminate.
    - intros E. rewrite <- E, filepaths_member, in_tree_member in Hfo.
      discriminate. }
  { intros i f _. unfold stb. cbn [fs set_fs].
    rewrite lookup_insert_ne by (apply not_eq_sym, snapshot_not_filepaths).
    rewrite lookup_insert_ne by (apply not_eq_sym, snapshot_not_dir).
    rewrite snapshot_member. apply Hmem. }
  unfold bind at 1. rewrite Erun.
  assert (Hplain : forall a, plain_name a = true -> a <> "FILEPATHS" -> a <> "" ->
            fs stc !! member cp_dir a = None).
  { intros a Ha Ha' Ha''. rewrite Hframe.
    - unfold stb. cbn [fs set_fs].
      rewrite lookup_insert_ne
        by (rewrite filepaths_member; intros E%member_inj; congruence).
      rewrite lookup_insert_ne by (apply not_eq_sym; now apply member_not_dir).
      apply Hmem.
    - rewrite filepaths_member. intros E%member_inj. congruence.
    - intros i f _ E. symmetry in E. now apply snapshot_not_plain in E. }
  assert (Hdirc : isdir (fs stc) cp_dir = true).
  { unfold isdir. rewrite Hframe.
    - unfold stb. cbn [fs set_fs].
      rewrite lookup_insert_ne by apply filepaths_not_dir.
      now rewrite lookup_insert_eq.
    - apply not_eq_sym, filepaths_not_dir.
    - intros i f _. apply not_eq_sym, snapshot_not_dir. }
  assert (Hcs0 : fs stc !! changes_since_of cp_dir = None).
  { rewrite changes_since_member.
    apply Hplain; (reflexivity || discriminate). }
  unfold bind at 1. unfold open_a at 1. rewrite Hcs0.
  unfold changes_since_of at 1. rewrite Hpar; [| reflexivity | exact Hdirc].
  fold (changes_since_of cp_dir).
  unfold fd_write. cbn [fs set_fs]. rewrite lookup_insert_eq.
  eexists. split; [reflexivity |]. cbn [fs set_fs].
  rewrite insert_insert_eq.
  split; [| split; [| split; [| split; [| split]]]].
  - unfold isdir. rewrite lookup_insert_ne by apply changes_since_not_dir.
    exact Hdirc.
  - rewrite lookup_insert_ne by apply changes_since_not_filepaths.
    rewrite Hfpc. reflexivity.
  - intros i f Hi.
    rewrite lookup_insert_ne.
    + pose proof (Hsnaps i f Hi) as Hs. rewrite Nat.add_0_l in Hs.
      rewrite Hs. unfold stb. cbn [fs set_fs].
      destruct (Hfiles f) as (Hfo & _);
        [eapply list_elem_of_lookup_2, Hi |].
      rewrite lookup_insert_ne.
      * rewrite lookup_insert_ne; [reflexivity |].
        intros E. rewrite <- E, in_tree_refl in Hfo. discriminate.
      * intros E. rewrite <- E, filepaths_member, in_tree_member in Hfo.
        discriminate.
    + rewrite changes_since_member. apply not_eq_sym.
      now apply snapshot_not_plain.
  - rewrite lookup_insert_ne
      by (rewrite changes_since_member, new_files_member;
          intros E%member_inj; discriminate).
    rewrite new_files_member. apply Hplain; (reflexivity || discriminate).
  - now rewrite lookup_insert_eq.
  - intros p Hp.
    assert (Hpm : forall a, p <> member cp_dir a).
    { intros a ->. rewrite in_tree_member in Hp. discriminate. }
    rewrite lookup_insert_ne by (rewrite changes_since_member; apply not_eq_sym, Hpm).
    rewrite Hframe.
    + unfold stb. cbn [fs set_fs].
      rewrite lookup_insert_ne by (rewrite filepaths_member; apply not_eq_sym, Hpm).
      rewrite lookup_insert_ne; [reflexivity |].
      intros <-. rewrite in_tree_refl in Hp. discriminate.
    + rewrite filepaths_member. apply Hpm.
    + intros i f _. rewrite snapshot_member. apply Hpm.
Qed.

(** Nothing is at the checkpoint path or below it. *)
Definition fresh_dir (m : gmap string node) : bool :=
  bool_decide (map_Forall (fun p (_ : node) => in_tree cp_dir p = false) m).

Lemma fresh_dir_spec (m : gmap string node) (p : string) :
  fresh_dir m = true -> in_tree cp_dir p = true -> m !! p = None.
Proof.
  intros H%bool_decide_eq_true Hp.
  destruct (m !! p) as [x |] eqn:E; [| reflexivity].
  specialize (H p x E). cbn in H. congruence.
Qed.

(** What the round trip asks of a file: a path that fits on a line, outside
    the checkpoint directory, naming a regular file the process may read
    and write. *)
Definition stageable (m : gmap string node) (f : string) : bool :=
  line_safe f && negb (in_tree cp_dir f) &&
  match m !! f with
  | Some (File _ mode) => readable mode && writable mode
  | _ => false
  end.

Lemma stageable_spec (m : gmap string node) (f : string) :
  stageable m f = true ->
  line_safe f = true /\
  in_tree cp_dir f = false /\
  exists c mode, m !! f = Some (File c mode) /\
                 readable mode = true /\ writable mode = true.
Proof.
  unfold stageable. intros [[H1 H2]%andb_true_iff H3]%andb_true_iff.
  apply negb_true_iff in H2.
  destruct (m !! f) as [[c mode |] |]; try discriminate.
  apply andb_true_iff in H3 as [Hr Hw]. eauto 10.
Qed.

Lemma stageable_all (m : gmap string node) (save_files : list string) (f : string) :
  forallb (stageable m) save_files = true -> f ∈ save_files ->
  stageable m f = true.
Proof.
  intros H Hf. rewrite forallb_forall in H. now apply H, list_elem_of_In.
Qed.

(** Staging, then changes to the staged files, then recovery: the files
    are back as they were staged and the checkpoint is gone. [st1'] is any
    state in which the checkpoint directory is as the staging left it and
    the staged files are still writable files, whatever they hold. *)
Lemma stage_edit_recover
    (save_files : list string) (save_notes : string) (st st1 st1' : state) :
  fresh_dir (fs st) = true ->
  forallb (stageable (fs st)) save_files = true ->
  _add_to_checkpoint_dir cp_dir save_files save_notes st = (Ok tt, st1) ->
  (forall p, in_tree cp_dir p = true -> fs st1' !! p = fs st1 !! p) ->
  (forall f, f ∈ save_files ->
     exists c' m', fs st1' !! f = Some (File c' m') /\ writable m' = true) ->
  exists st2,
    _recover_checkpoint cp_dir st1' = (Ok tt, st2) /\
    (forall f, f ∈ save_files -> fs st2 !! f = fs st !! f) /\
    (forall p, in_tree cp_dir p = true -> fs st2 !! p = None) /\
    (forall p, in_tree cp_dir p = false -> p ∉ save_files ->
               fs st2 !! p = fs st1' !! p).
Proof.
  intros Hfresh Hfiles Estage Htree Hedit.
  assert (Hst : forall f, f ∈ save_files ->
            line_safe f = true /\ in_tree cp_dir f = false /\
            exists c mode, fs st !! f = Some (File c mode) /\
                           readable mode = true /\ writable mode = true).
  { intros f Hf. eapply stageable_spec, stageable_all; eauto. }
  destruct (staging_fresh save_files save_notes st)
    as (st1_ & E & Hdir & Hfp & Hsnaps & Hnew & _ & Hframe).
  { intros p. now apply fresh_dir_spec. }
  { intros f Hf. destruct (Hst f Hf) as (_ & Ho & c & m & Hl & Hr & _). eauto. }
  rewrite Estage in E. injection E as <-.
  destruct (recover_restores (fs st) save_files default_mode st1')
    as (st2 & Erec & _ & Hin & Hgone & Hrest).
  - unfold isdir. rewrite Htree by apply in_tree_refl. exact Hdir.
  - rewrite Htree by (rewrite filepaths_member; apply in_tree_member).
    exact Hfp.
  - reflexivity.
  - apply forallb_forall. intros f Hf%list_elem_of_In.
    now destruct (Hst f Hf).
  - unfold isfile.
    rewrite Htree by (rewrite new_files_member; apply in_tree_member).
    now rewrite Hnew.
  - intros i f Hi.
    assert (Hf : f ∈ save_files) by (eapply list_elem_of_lookup_2, Hi).
    destruct (Hst f Hf) as (_ & Ho & Hm).
    split; [exact Ho |]. split; [| split; [exact Hm | now apply Hedit]].
    rewrite Htree by apply in_tree_snapshot. now apply Hsnaps.
  - exists st2. auto.
Qed.

(** C5, for paths that fit on a line: staging files into a checkpoint
    directory that is not there yet ends well, the recovery of that
    checkpoint right after it ends well too, and then every staged file
    has the content and the mode it had, the checkpoint directory is gone,
    and indeed the whole file system is what it was before the staging.
    The files are regular files outside the checkpoint directory which the
    process may read and write, and their paths have no line break (a path
    with one does not read back from FILEPATHS). *)
Theorem stage_then_recover
    (save_files : list string) (save_notes : string) (st : state) :
  fresh_dir (fs st) = true ->
  forallb (stageable (fs st)) save_files = true ->
  exists st1 st2,
    _add_to_checkpoint_dir cp_dir save_files save_notes st = (Ok tt, st1) /\
    _recover_checkpoint cp_dir st1 = (Ok tt, st2) /\
    (forall f, f ∈ save_files -> fs st2 !! f = fs st !! f) /\
    fs st2 !! cp_dir = None /\
    fs st2 = fs st.
Proof.
  intros Hfresh Hfiles.
  assert (Hst : forall f, f ∈ save_files ->
            line_safe f = true /\ in_tree cp_dir f = false /\
            exists c mode, fs st !! f = Some (File c mode) /\
                           readable mode = true /\ writable mode = true).
  { intros f Hf. eapply stageable_spec, stageable_all; eauto. }
  destruct (staging_fresh save_files save_notes st)
    as (st1 & E & Hdir & Hfp & Hsnaps & Hnew & _ & Hframe).
  { intros p. now apply fresh_dir_spec. }
  { intros f Hf. destruct (Hst f Hf) as (_ & Ho & c & m & Hl & Hr & _). eauto. }
  destruct (stage_edit_recover save_files save_notes st st1 st1 Hfresh Hfiles E)
    as (st2 & Erec & Hin & Hgone & Hrest).
  - reflexivity.
  - intros f Hf. destruct (Hst f Hf) as (_ & Ho & c & m & Hl & _ & Hw).
    exists c, m. rewrite (Hframe f Ho). auto.
  - exists st1, st2. repeat split; auto.
    + apply Hgone, in_tree_refl.
    + apply map_eq. intros p.
      destruct (in_tree cp_dir p) eqn:Hp.
      * rewrite (Hgone p Hp). symmetry. now apply fresh_dir_spec.
      * destruct (decide (p ∈ save_files)) as [Hel | Hel]; [now apply Hin |].
        rewrite (Hrest p Hp Hel). now apply Hframe.
Qed.

End RoundTrip.

(** ** What a recovery may touch *)





Section RecoveryFrame.

Variable self : Reverter.




End RecoveryFrame.

(** ** What a staging call may touch *)

Lemma shutil_copy2_target (src dst : string) (st : state) (p : string) :
  p <> (if isdir (fs st) dst
        then os_path_join dst (os_path_basename src) else dst) ->
  fs (snd (shutil_copy2 src dst st)) !! p = fs st !! p.
Proof.
  intros Hp. unfold shutil_copy2.
  set (d := if isdir (fs st) dst
            then os_path_join dst (os_path_basename src) else dst) in *.
  destruct (String.eqb src d && lexists (fs st) src); [reflexivity |].
  destruct (fs st !! src) as [[c m |] |]; try reflexivity.
  destruct (readable m); [| reflexivity].
  destruct (fs st !! d) as [[c' m' |] |]; try reflexivity.
  - destruct (writable m'); [| reflexivity]. cbn [snd fs set_fs].
    now rewrite lookup_insert_ne by congruence.
  - destruct (parent_ok (fs st) d); [| reflexivity]. cbn [snd fs set_fs].
    now rewrite lookup_insert_ne by congruence.
Qed.

Lemma fd_write_other (q s p : string) (st : state) :
  p <> q -> fs (snd (fd_write q s st)) !! p = fs st !! p.
Proof.
  intros Hp. unfold fd_write.
  destruct (fs st !! q) as [[c m |] |]; try reflexivity.
  cbn [snd fs set_fs]. now rewrite lookup_insert_ne by congruence.
Qed.

Lemma open_a_other (q p : string) (st : state) :
  p <> q -> fs (snd (open_a q st)) !! p = fs st !! p.
Proof.
  intros Hp. unfold open_a.
  destruct (fs st !! q) as [[c m |] |]; try reflexivity.
  - now destruct (writable m).
  - destruct (parent_ok (fs st) q); [| reflexivity]. cbn [snd fs set_fs].
    now rewrite lookup_insert_ne by congruence.
Qed.

Lemma open_w_other (q p : string) (st : state) :
  p <> q -> fs (snd (open_w q st)) !! p = fs st !! p.
Proof.
  intros Hp. unfold open_w.
  destruct (fs st !! q) as [[c m |] |]; try reflexivity.
  - destruct (writable m); [| reflexivity]. cbn [snd fs set_fs].
    now rewrite lookup_insert_ne by congruence.
  - destruct (parent_ok (fs st) q); [| reflexivity]. cbn [snd fs set_fs].
    now rewrite lookup_insert_ne by congruence.
Qed.

Lemma make_or_verify_dir_other (d p : string) (st : state) :
  p <> d -> fs (snd (make_or_verify_dir d st)) !! p = fs st !! p.
Proof.
  intros Hp. unfold make_or_verify_dir.
  destruct (fs st !! d) as [[c m |] |]; try reflexivity.
  cbn [snd fs set_fs]. now rewrite lookup_insert_ne by congruence.
Qed.

Lemma open_rw_state (q : string) (st : state) : snd (open_rw q st) = st.
Proof.
  unfold open_rw. destruct (fs st !! q) as [[c m |] |]; try reflexivity.
  now destruct (readable m && writable m).
Qed.

Lemma read_file_state (q : string) (st : state) : snd (read_file q st) = st.
Proof.
  unfold read_file. destruct (fs st !! q) as [[c m |] |]; try reflexivity.
  now destruct (readable m).
Qed.

(** The state a sequence ends in: that of its second part when the first
    ends well, that of the first otherwise. *)
Lemma snd_bind {A B} (m : M A) (k : A -> M B) (st : state) :
  snd (bind m k st)
  = match fst (m st) with
    | Ok a => snd (k a (snd (m st)))
    | Exc _ => snd (m st)
    end.
Proof. unfold bind. now destruct (m st) as [[a | e] st']. Qed.

Section StagingFrame.

Variable cp_dir : string.

Lemma outside_not_member (p a : string) :
  in_tree cp_dir p = false -> p <> member cp_dir a.
Proof. intros Hp ->. rewrite in_tree_member in Hp. discriminate. Qed.

(** The loop of the staging, however it ends, writes FILEPATHS and
    snapshot entries only. *)
Lemma save_each_spares (existing save_files : list string) (p : string) :
  p <> filepaths_of cp_dir ->
  (forall a, plain_name a = false -> p <> member cp_dir a) ->
  forall (idx : nat) (st : state),
    fs (snd (save_each cp_dir (filepaths_of cp_dir) existing idx save_files st)) !! p
    = fs st !! p.
Proof.
  intros Hfp Hp. induction save_files as [| f rest IH]; intros idx st;
    [reflexivity |].
  cbn [save_each]. destruct (bool_decide (f ∈ existing)); [apply IH |].
  rewrite snd_bind. cbn [logging fst snd].
  rewrite snd_bind.
  set (sta := {| fs := fs st; log := _; clock := _ |}).
  pose proof (shutil_copy2_target f
                (os_path_join cp_dir (os_path_basename f +:+ "_" +:+ str_nat idx))
                sta p) as Hcopy.
  destruct (copy_target_member cp_dir (fs sta) f f idx) as (a & Ha & Hplain).
  unfold snapshot_path, tag in Ha. rewrite Ha in Hcopy.
  specialize (Hcopy (Hp a Hplain)).
  destruct (shutil_copy2 f _ sta) as [[[] | e] stb]; cbn [fst snd] in *;
    [| exact Hcopy].
  rewrite snd_bind.
  pose proof (fd_write_other (filepaths_of cp_dir) (f +:+ nl) p stb Hfp) as Hw.
  destruct (fd_write (filepaths_of cp_dir) (f +:+ nl) stb) as [[[] | e] stc];
    cbn [fst snd] in *.
  - now rewrite IH, Hw, Hcopy.
  - now rewrite Hw, Hcopy.
Qed.

Lemma save_each_outside (existing save_files : list string) (p : string) :
  in_tree cp_dir p = false ->
  forall (idx : nat) (st : state),
    fs (snd (save_each cp_dir (filepaths_of cp_dir) existing idx save_files st)) !! p
    = fs st !! p.
Proof.
  intros Hp. apply save_each_spares.
  - rewrite filepaths_member. now apply outside_not_member.
  - intros a _. now apply outside_not_member.
Qed.

End StagingFrame.

(** X1: Staging, however it ends, leaves every path outside the checkpoint
    directory as it was: it makes the directory (the directory helper
    being taken to make that directory and no other), writes FILEPATHS,
    CHANGES_SINCE and snapshot entries, and reads the files it is
    given. *)
Theorem staging_outside_untouched
    (cp_dir : string) (save_files : list string) (save_notes : string)
    (st : state) (p : string) :
  in_tree cp_dir p = false ->
  fs (snd (_add_to_checkpoint_dir cp_dir save_files save_notes st)) !! p
  = fs st !! p.
Proof.
  intros Hp.
  assert (Hdir : p <> cp_dir).
  { intros ->. rewrite in_tree_refl in Hp. discriminate. }
  assert (Hfp : p <> filepaths_of cp_dir).
  { rewrite filepaths_member. now apply outside_not_member. }
  assert (Hcs : p <> changes_since_of cp_dir).
  { rewrite changes_since_member. now apply outside_not_member. }
  unfold _add_to_checkpoint_dir.
  fold (filepaths_of cp_dir) (changes_since_of cp_dir).
  rewrite snd_bind.
  pose proof (make_or_verify_dir_other cp_dir p st Hdir) as Hmk.
  destruct (make_or_verify_dir cp_dir st) as [[[] | e] sta]; cbn [fst snd] in *;
    [| exact Hmk].
  rewrite snd_bind. cbn [os_path_isfile fst snd].
  rewrite snd_bind.
  set (opening := if isfile (fs sta) (filepaths_of cp_dir) then _ else _).
  assert (Hopen : fs (snd (opening sta)) !! p = fs sta !! p).
  { unfold opening. destruct (isfile (fs sta) (filepaths_of cp_dir)).
    - rewrite snd_bind, open_rw_state.
      destruct (fst (open_rw (filepaths_of cp_dir) sta)); [| reflexivity].
      rewrite snd_bind, read_file_state.
      now destruct (fst (read_file (filepaths_of cp_dir) sta)).
    - rewrite snd_bind.
      pose proof (open_w_other (filepaths_of cp_dir) p sta Hfp) as Hw.
      now destruct (open_w (filepaths_of cp_dir) sta) as [[[] | e] stb]. }
  destruct (opening sta) as [[existing | e] stb]; cbn [fst snd] in *;
    [| now rewrite Hopen].
  rewrite snd_bind.
  pose proof (save_each_outside cp_dir existing save_files p Hp
                (length existing) stb) as Hloop.
  destruct (save_each cp_dir (filepaths_of cp_dir) existing (length existing)
              save_files stb) as [[[] | e] stc]; cbn [fst snd] in *;
    [| now rewrite Hloop, Hopen].
  rewrite snd_bind.
  pose proof (open_a_other (changes_since_of cp_dir) p stc Hcs) as Ha.
  destruct (open_a (changes_since_of cp_dir) stc) as [[[] | e] std];
    cbn [fst snd] in *; [| now rewrite Ha, Hloop, Hopen].
  rewrite fd_write_other by exact Hcs.
  now rewrite Ha, Hloop, Hopen.
Qed.

(** ** Staging into a checkpoint that is there already *)

Lemma isdir_insert_file (m : gmap string node) (k q c : string) (mode : Z) :
  isdir m q = false -> isdir (<[k := File c mode]> m) q = false.
Proof.
  intros H. unfold isdir. destruct (decide (k = q)) as [-> | Hne].
  - now rewrite lookup_insert_eq.
  - now rewrite lookup_insert_ne.
Qed.

Section StagingMore.

Variable cp_dir : string.

(** The loop of the staging when it ends well, no directory sitting on a
    snapshot slot from [idx] on: each file not listed yet is copied to the
    slot of its position and listed; nothing else changes. *)
Lemma save_each_slots (existing save_files : list string) :
  forall (idx : nat) (st st' : state) (content : string) (mode : Z),
    save_each cp_dir (filepaths_of cp_dir) existing idx save_files st
    = (Ok tt, st') ->
    fs st !! filepaths_of cp_dir = Some (File content mode) ->
    (forall i f, (idx <= i)%nat ->
       isdir (fs st) (snapshot_path cp_dir f i) = false) ->
    (forall f, f ∈ unlisted existing save_files -> in_tree cp_dir f = false) ->
    fs st' !! filepaths_of cp_dir
    = Some (File (content +:+ lines_text (unlisted existing save_files)) mode) /\
    (forall j f, unlisted existing save_files !! j = Some f ->
       fs st' !! snapshot_path cp_dir f (idx + j) = fs st !! f) /\
    (forall p, p <> filepaths_of cp_dir ->
       (forall j f, unlisted existing save_files !! j = Some f ->
                    p <> snapshot_path cp_dir f (idx + j)) ->
       fs st' !! p = fs st !! p).
Proof.
  induction save_files as [| f rest IH];
    intros idx st st' content mode E Hfp Hslots Hout.
  - injection E as <-. cbn [unlisted lines_text]. rewrite sapp_nil_r.
    repeat split; auto. intros j f Hj. discriminate.
  - cbn [save_each unlisted] in E, Hout |- *.
    destruct (bool_decide (f ∈ existing)); [now apply (IH idx) |].
    apply bind_ok_inv in E as ([] & st1 & E1 & E).
    apply bind_ok_inv in E as ([] & st2 & E2 & E).
    apply bind_ok_inv in E as ([] & st3 & E3 & E).
    unfold logging in E1. injection E1 as <-.
    apply shutil_copy2_ok in E2 as (c & m & Hsrc & ->).
    cbn [fs] in *.
    fold (tag f idx) in E3. fold (snapshot_path cp_dir f idx) in E3.
    rewrite (Hslots idx f (le_n idx)) in E3.
    set (snap := snapshot_path cp_dir f idx) in *.
    assert (Hfo : in_tree cp_dir f = false)
      by apply Hout, list_elem_of_here.
    assert (Hsnap_f : forall g, in_tree cp_dir g = false -> g <> snap).
    { intros g Hg ->. unfold snap in Hg. rewrite in_tree_snapshot in Hg.
      discriminate. }
    assert (Hfp_f : forall g, in_tree cp_dir g = false -> g <> filepaths_of cp_dir).
    { intros g Hg ->. rewrite filepaths_member, in_tree_member in Hg.
      discriminate. }
    unfold fd_write in E3. cbn [fs set_fs] in E3.
    rewrite lookup_insert_ne, Hfp in E3 by apply snapshot_not_filepaths.
    injection E3 as <-.
    eapply IH in E; [| cbn [fs set_fs]; apply lookup_insert_eq | | ].
    + destruct E as (Hfp' & Hsnaps & Hframe). split; [| split].
      * rewrite Hfp'. cbn [lines_text]. now rewrite !sapp_assoc.
      * intros j g Hj. destruct j as [| j].
        -- injection Hj as <-. rewrite Nat.add_0_r.
           rewrite Hframe; cbn [fs set_fs].
           ++ rewrite lookup_insert_ne
                by (apply not_eq_sym, snapshot_not_filepaths).
              now rewrite lookup_insert_eq.
           ++ apply snapshot_not_filepaths.
           ++ intros j h _ E%snapshot_index. lia.
        -- change ((f :: unlisted existing rest) !! S j)
             with (unlisted existing rest !! j) in Hj.
           replace (idx + S j)%nat with (S idx + j)%nat by lia.
           rewrite (Hsnaps j g Hj). cbn [fs set_fs].
           assert (Hgo : in_tree cp_dir g = false).
           { apply Hout, list_elem_of_further.
             eapply list_elem_of_lookup_2, Hj. }
           rewrite lookup_insert_ne by (apply not_eq_sym; now apply Hfp_f).
           rewrite lookup_insert_ne; [reflexivity |].
           apply not_eq_sym. now apply Hsnap_f.
      * intros p Hp Hnot. rewrite Hframe; [| exact Hp |].
        -- cbn [fs set_fs]. rewrite lookup_insert_ne by congruence.
           rewrite lookup_insert_ne; [reflexivity |].
           intros E. apply (Hnot 0%nat f); [reflexivity |].
           now rewrite Nat.add_0_r.
        -- intros j g Hj. replace (S idx + j)%nat with (idx + S j)%nat by lia.
           now apply Hnot.
    + intros i g Hi. cbn [fs set_fs]. apply isdir_insert_file.
      apply isdir_insert_file. apply Hslots. lia.
    + intros g Hg. now apply Hout, list_elem_of_further.
Qed.

(** A staging call that ended well, taken apart: the state [stb] in which
    the loop started, with the directory made and FILEPATHS open, and the
    state [stc] in which it ended. *)
Lemma staging_ok_inv
    (save_files : list string) (save_notes : string) (st st1 : state) :
  _add_to_checkpoint_dir cp_dir save_files save_notes st = (Ok tt, st1) ->
  exists (stb stc : state) (content : string) (mode : Z),
    fs stb !! filepaths_of cp_dir = Some (File content mode) /\
    (fs st !! filepaths_of cp_dir = Some (File content mode) \/
     fs st !! filepaths_of cp_dir = None /\ content = "") /\
    isdir (fs stb) cp_dir = true /\
    (forall p, p <> cp_dir -> p <> filepaths_of cp_dir ->
               fs stb !! p = fs st !! p) /\
    (isdir (fs st) cp_dir = true \/ fs st !! cp_dir = None) /\
    save_each cp_dir (filepaths_of cp_dir) (splitlines content)
      (length (splitlines content)) save_files stb = (Ok tt, stc) /\
    (forall p, p <> changes_since_of cp_dir -> fs st1 !! p = fs stc !! p).
Proof.
  intros E. unfold _add_to_checkpoint_dir in E.
  fold (filepaths_of cp_dir) (changes_since_of cp_dir) in E.
  apply bind_ok_inv in E as ([] & sta & Emk & E).
  apply bind_ok_inv in E as (isf & sta' & Eisf & E).
  unfold os_path_isfile in Eisf. injection Eisf as <- <-.
  apply bind_ok_inv in E as (existing & stb & Eopen & E).
  apply bind_ok_inv in E as ([] & stc & Eloop & E).
  apply bind_ok_inv in E as ([] & std & Ea & Ew).
  assert (Hdir : isdir (fs sta) cp_dir = true /\
                 (forall p, p <> cp_dir -> fs sta !! p = fs st !! p) /\
                 (isdir (fs st) cp_dir = true \/ fs st !! cp_dir = None)).
  { unfold make_or_verify_dir in Emk. unfold isdir.
    destruct (fs st !! cp_dir) as [[] |] eqn:Hl; try discriminate;
      injection Emk as <-; cbn [fs set_fs].
    - rewrite Hl. auto.
    - rewrite lookup_insert_eq. repeat split; auto.
      intros p Hp. now rewrite lookup_insert_ne by congruence. }
  destruct Hdir as (Hdir & Hsame & Hwas).
  assert (Hfpa : fs sta !! filepaths_of cp_dir = fs st !! filepaths_of cp_dir)
    by apply Hsame, filepaths_not_dir.
  exists stb, stc.
  unfold isfile in Eopen.
  destruct (fs sta !! filepaths_of cp_dir) as [[c m |] |] eqn:Hl.
  - apply bind_ok_inv in Eopen as ([] & s1 & E1 & E2).
    apply bind_ok_inv in E2 as (c' & s2 & E2 & E3).
    unfold open_rw in E1. rewrite Hl in E1.
    destruct (readable m && writable m) eqn:Hrw; [| discriminate].
    apply andb_true_iff in Hrw as [Hr Hw].
    injection E1 as <-. unfold read_file in E2. rewrite Hl, Hr in E2.
    injection E2 as <- <-. injection E3 as <- <-.
    exists c, m. repeat split; auto.
    intros p Hp. unfold open_a in Ea. unfold fd_write in Ew.
    destruct (fs stc !! changes_since_of cp_dir) as [[c0 m0 |] |] eqn:Hcs;
      try discriminate.
    + destruct (writable m0); [| discriminate]. injection Ea as <-.
      rewrite Hcs in Ew. injection Ew as <-. cbn [fs set_fs].
      now rewrite lookup_insert_ne by congruence.
    + destruct (parent_ok (fs stc) (changes_since_of cp_dir)); [| discriminate].
      injection Ea as <-. cbn [fs set_fs] in Ew.
      rewrite lookup_insert_eq in Ew. injection Ew as <-. cbn [fs set_fs].
      rewrite lookup_insert_ne by congruence.
      now rewrite lookup_insert_ne by congruence.
  - apply bind_ok_inv in Eopen as ([] & s1 & E1 & E2).
    unfold open_w in E1. rewrite Hl in E1. discriminate.
  - apply bind_ok_inv in Eopen as ([] & s1 & E1 & E2).
    unfold open_w in E1. rewrite Hl in E1.
    destruct (parent_ok (fs sta) (filepaths_of cp_dir)); [| discriminate].
    injection E1 as <-. injection E2 as <- <-.
    exists "", default_mode. cbn [fs set_fs].
    rewrite lookup_insert_eq. repeat split; auto.
    + unfold isdir. rewrite lookup_insert_ne by apply filepaths_not_dir.
      exact Hdir.
    + intros p Hp Hp'. rewrite lookup_insert_ne by congruence. now apply Hsame.
    + intros p Hp. unfold open_a in Ea. unfold fd_write in Ew.
      destruct (fs stc !! changes_since_of cp_dir) as [[c0 m0 |] |] eqn:Hcs;
        try discriminate.
      * destruct (writable m0); [| discriminate]. injection Ea as <-.
        rewrite Hcs in Ew. injection Ew as <-. cbn [fs set_fs].
        now rewrite lookup_insert_ne by congruence.
      * destruct (parent_ok (fs stc) (changes_since_of cp_dir)); [| discriminate].
        injection Ea as <-. cbn [fs set_fs] in Ew.
        rewrite lookup_insert_eq in Ew. injection Ew as <-. cbn [fs set_fs].
        rewrite lookup_insert_ne by congruence.
        now rewrite lookup_insert_ne by congruence.
Qed.

End StagingMore.

Lemma elem_of_unlisted_inv (existing save_files : list string) (f : string) :
  f ∈ unlisted existing save_files -> f ∈ save_files /\ f ∉ existing.
Proof.
  induction save_files as [| g rest IH]; cbn [unlisted].
  - intros H. now apply elem_of_nil in H.
  - destruct (bool_decide (g ∈ existing)) eqn:Hg.
    + intros H. destruct (IH H). split; [now apply list_elem_of_further | auto].
    + apply bool_decide_eq_false in Hg.
      intros [-> | H]%elem_of_cons.
      * split; [apply list_elem_of_here | exact Hg].
      * destruct (IH H). split; [now apply list_elem_of_further | auto].
Qed.

Lemma NoDup_unlisted (existing save_files : list string) :
  NoDup save_files -> NoDup (unlisted existing save_files).
Proof.
  induction 1 as [| g rest Hg Hnd IH]; cbn [unlisted]; [constructor |].
  destruct (bool_decide (g ∈ existing)); [exact IH |].
  constructor; [| exact IH].
  intros H%elem_of_unlisted_inv. now destruct H.
Qed.

Lemma line_safe_unlisted (existing save_files : list string) :
  forallb line_safe save_files = true ->
  forallb line_safe (unlisted existing save_files) = true.
Proof.
  rewrite !forallb_forall. intros H f Hf%list_elem_of_In.
  apply H, list_elem_of_In. now apply elem_of_unlisted_inv in Hf.
Qed.

(** The paths a checkpoint lists, in the order of FILEPATHS. *)
Definition listed (cp_dir : string) (m : gmap string node) : list string :=
  lines_of m (filepaths_of cp_dir).

(** No directory lies below the checkpoint directory: the class makes
    none. *)
Definition no_subdirs (cp_dir : string) (m : gmap string node) : bool :=
  bool_decide
    (map_Forall (fun p x => match x with
                            | Dir => under cp_dir p
                            | File _ _ => false
                            end = false) m).

Lemma no_subdirs_spec (cp_dir : string) (m : gmap string node) (p : string) :
  no_subdirs cp_dir m = true -> under cp_dir p = true -> isdir m p = false.
Proof.
  intros H%bool_decide_eq_true Hp. unfold isdir.
  destruct (m !! p) as [[c mode |] |] eqn:E; try reflexivity.
  specialize (H p Dir E). cbn in H. congruence.
Qed.

Section StagingInvariants.

Variable cp_dir : string.

(** X2: FILEPATHS only grows, and by whole lines: after a staging call that
    ended well it lists what it listed before, in the same order, and then
    the requested files it did not list yet, in the order of the request.
    The request being a set, a list without a repeated path stays without
    one. The paths have no line break and the list file, when it is there
    before the call, is empty or ends with a newline. *)
Theorem staging_list_append_only
    (save_files : list string) (save_notes : string) (st st1 : state) :
  list_terminated (fs st) (filepaths_of cp_dir) = true ->
  forallb line_safe save_files = true ->
  _add_to_checkpoint_dir cp_dir save_files save_notes st = (Ok tt, st1) ->
  listed cp_dir (fs st1)
  = listed cp_dir (fs st) ++ unlisted (listed cp_dir (fs st)) save_files /\
  (NoDup (listed cp_dir (fs st)) -> NoDup save_files ->
   NoDup (listed cp_dir (fs st1))).
Proof.
  intros Hterm Hsafe E.
  destruct (staging_ok_inv cp_dir _ _ _ _ E)
    as (stb & stc & content & mode & Hfp & Hwas & _ & _ & _ & Eloop & Hcs).
  destruct (save_each_ok cp_dir _ _ _ _ _ _ _ Eloop Hfp) as [Hfpc _].
  assert (Hold : listed cp_dir (fs st) = splitlines content /\
                 ends_with_nl content = true).
  { unfold listed, lines_of. unfold list_terminated in Hterm.
    destruct Hwas as [Hl | [Hl ->]]; rewrite Hl in *; auto. }
  destruct Hold as [Hold Hnl].
  assert (Hnew : listed cp_dir (fs st1)
                 = listed cp_dir (fs st)
                   ++ unlisted (listed cp_dir (fs st)) save_files).
  { unfold listed at 1. unfold lines_of.
    rewrite Hcs by (apply not_eq_sym, changes_since_not_filepaths).
    rewrite Hfpc, Hold, splitlines_sapp by exact Hnl.
    now rewrite splitlines_lines_text by apply line_safe_unlisted, Hsafe. }
  split; [exact Hnew |].
  intros Hnd Hnd'. rewrite Hnew. apply NoDup_app. split; [exact Hnd |].
  split; [| now apply NoDup_unlisted].
  intros f Hf Hf'%elem_of_unlisted_inv. now destruct Hf'.
Qed.

(** X3: The index in a snapshot's name is the position of its path in
    FILEPATHS: a staging call that ended well has put a copy of each file
    it listed, content and mode as at the call, in the slot numbered after
    those listed before, and has left the slots of the paths listed before
    as they were. The files lie outside the checkpoint directory, which
    holds no directory. *)
Theorem staging_snapshot_slots
    (save_files : list string) (save_notes : string) (st st1 : state) :
  no_subdirs cp_dir (fs st) = true ->
  forallb (fun f => negb (in_tree cp_dir f)) save_files = true ->
  _add_to_checkpoint_dir cp_dir save_files save_notes st = (Ok tt, st1) ->
  (forall j f,
     unlisted (listed cp_dir (fs st)) save_files !! j = Some f ->
     fs st1 !! snapshot_path cp_dir f (length (listed cp_dir (fs st)) + j)
     = fs st !! f) /\
  (forall i g,
     (i < length (listed cp_dir (fs st)))%nat ->
     fs st1 !! snapshot_path cp_dir g i = fs st !! snapshot_path cp_dir g i).
Proof.
  intros Hflat Hout E.
  destruct (staging_ok_inv cp_dir _ _ _ _ E)
    as (stb & stc & content & mode & Hfp & Hwas & _ & Hsame & _ & Eloop & Hcs).
  assert (Hold : listed cp_dir (fs st) = splitlines content).
  { unfold listed, lines_of.
    destruct Hwas as [Hl | [Hl ->]]; now rewrite Hl. }
  rewrite Hold.
  assert (Hsnap_b : forall g i,
            fs stb !! snapshot_path cp_dir g i = fs st !! snapshot_path cp_dir g i).
  { intros g i. apply Hsame; [apply snapshot_not_dir | apply snapshot_not_filepaths]. }
  assert (Hsnap_1 : forall g i,
            fs st1 !! snapshot_path cp_dir g i = fs stc !! snapshot_path cp_dir g i).
  { intros g i. apply Hcs. rewrite changes_since_member.
    now apply snapshot_not_plain. }
  assert (Hfiles : forall f, f ∈ unlisted (splitlines content) save_files ->
                             in_tree cp_dir f = false).
  { intros f [Hf _]%elem_of_unlisted_inv. rewrite forallb_forall in Hout.
    apply negb_true_iff, Hout, list_elem_of_In, Hf. }
  destruct (save_each_slots cp_dir _ _ _ _ _ _ _ Eloop Hfp)
    as (_ & Hsnaps & Hframe).
  { intros i f _. unfold isdir. rewrite Hsnap_b.
    apply (no_subdirs_spec cp_dir); [exact Hflat |].
    rewrite snapshot_member. apply under_member. }
  { exact Hfiles. }
  split.
  - intros j f Hj. rewrite Hsnap_1, (Hsnaps j f Hj).
    assert (Hfo : in_tree cp_dir f = false)
      by (eapply Hfiles, list_elem_of_lookup_2, Hj).
    apply Hsame.
    + intros ->. rewrite in_tree_refl in Hfo. discriminate.
    + intros ->. rewrite filepaths_member, in_tree_member in Hfo. discriminate.
  - intros i g Hi. rewrite Hsnap_1, Hframe, Hsnap_b; [reflexivity | |].
    + apply snapshot_not_filepaths.
    + intros j f _ Heq%snapshot_index. lia.
Qed.

End StagingInvariants.

(** ** The oldest copy wins *)

(** What the file system holds at a directory and below it. *)
Definition tree_of (d : string) (m : gmap string node) : gmap string node :=
  filter (fun kv => in_tree d kv.1 = true) m.

Lemma tree_of_lookup (d p : string) (m : gmap string node) :
  in_tree d p = true -> tree_of d m !! p = m !! p.
Proof.
  intros Hp. unfold tree_of. destruct (m !! p) as [x |] eqn:E.
  - apply map_lookup_filter_Some. auto.
  - apply map_lookup_filter_None. left. exact E.
Qed.

Lemma tree_of_agree (d p : string) (m m' : gmap string node) :
  tree_of d m = tree_of d m' -> in_tree d p = true -> m !! p = m' !! p.
Proof.
  intros E Hp. rewrite <- (tree_of_lookup d p m Hp), E.
  now apply tree_of_lookup.
Qed.

(** A regular file that may be written over. *)
Definition overwritable (m : gmap string node) (f : string) : bool :=
  match m !! f with
  | Some (File _ mode) => writable mode
  | _ => false
  end.

Section OldestCopy.

Variable cp_dir : string.

(** X4: A file staged twice is restored to what it held before the first
    staging. The files are regular files outside the checkpoint directory
    that the process may read and write, and their paths have no line
    break (a path with one does not read back from FILEPATHS, so that the
    second staging would list it again and the recovery fail). They are
    staged into a checkpoint directory that is not there yet and then
    changed; some of them are staged again, which ends well, and changed
    again; the recovery then ends well, gives every staged file the
    content and mode it had before the first call, removes the checkpoint
    directory, and leaves the other paths alone. Between the calls nothing
    but the class writes below the checkpoint directory, and the staged
    files stay regular files that may be written. *)
Theorem first_staging_wins
    (save_files again : list string) (save_notes second_notes : string)
    (st st1 st1' st2' : state) :
  fresh_dir cp_dir (fs st) = true ->
  forallb (stageable cp_dir (fs st)) save_files = true ->
  _add_to_checkpoint_dir cp_dir save_files save_notes st = (Ok tt, st1) ->
  tree_of cp_dir (fs st1') = tree_of cp_dir (fs st1) ->
  again ⊆ save_files ->
  tree_of cp_dir (fs st2')
  = tree_of cp_dir
      (fs (snd (_add_to_checkpoint_dir cp_dir again second_notes st1'))) ->
  forallb (overwritable (fs st2')) save_files = true ->
  exists st3,
    fst (_add_to_checkpoint_dir cp_dir again second_notes st1') = Ok tt /\
    _recover_checkpoint cp_dir st2' = (Ok tt, st3) /\
    (forall f, f ∈ save_files -> fs st3 !! f = fs st !! f) /\
    (forall p, in_tree cp_dir p = true -> fs st3 !! p = None) /\
    (forall p, in_tree cp_dir p = false -> p ∉ save_files ->
               fs st3 !! p = fs st2' !! p).
Proof.
  intros Hfresh Hfiles Estage Htree Hsub Htree2 Hedit.
  assert (Hst : forall f, f ∈ save_files ->
            line_safe f = true /\ in_tree cp_dir f = false /\
            exists c mode, fs st !! f = Some (File c mode) /\
                           readable mode = true /\ writable mode = true).
  { intros f Hf. eapply stageable_spec, stageable_all; eauto. }
  assert (Hsafe : forallb line_safe save_files = true).
  { apply forallb_forall. intros f Hf%list_elem_of_In. now destruct (Hst f Hf). }
  destruct (staging_fresh cp_dir save_files save_notes st)
    as (st1_ & E & Hdir & Hfp & Hsnaps & Hnew & Hcs & _).
  { intros p. now apply fresh_dir_spec. }
  { intros f Hf. destruct (Hst f Hf) as (_ & Ho & c & m & Hl & Hr & _). eauto. }
  rewrite Estage in E. injection E as <-.
  assert (Hin1 : forall p, in_tree cp_dir p = true -> fs st1' !! p = fs st1 !! p).
  { intros p. now apply tree_of_agree. }
  assert (Hfp_tree : in_tree cp_dir (filepaths_of cp_dir) = true)
    by (rewrite filepaths_member; apply in_tree_member).
  assert (Hcs_tree : in_tree cp_dir (changes_since_of cp_dir) = true)
    by (rewrite changes_since_member; apply in_tree_member).
  assert (Hnf_tree : in_tree cp_dir (new_files_of cp_dir) = true)
    by (rewrite new_files_member; apply in_tree_member).
  (* the second call adds its note and nothing else *)
  assert (Esecond :
    _add_to_checkpoint_dir cp_dir again second_notes st1'
    = (Ok tt, set_fs st1'
                (<[changes_since_of cp_dir
                   := File (save_notes +:+ second_notes) default_mode]>
                   (fs st1')))).
  { apply (staging_listed_files cp_dir again second_notes st1'
             (lines_text save_files) save_notes default_mode default_mode).
    - unfold isdir. rewrite Hin1 by apply in_tree_refl. exact Hdir.
    - now rewrite Hin1.
    - reflexivity.
    - reflexivity.
    - intros f Hf. rewrite splitlines_lines_text by exact Hsafe. now apply Hsub.
    - now rewrite Hin1.
    - reflexivity. }
  rewrite Esecond in Htree2 |- *. cbn [fst snd fs set_fs] in Htree2 |- *.
  assert (Hin2 : forall p, in_tree cp_dir p = true ->
                           p <> changes_since_of cp_dir ->
                           fs st2' !! p = fs st1 !! p).
  { intros p Hp Hne. rewrite (tree_of_agree _ _ _ _ Htree2 Hp).
    rewrite lookup_insert_ne by congruence. now apply Hin1. }
  destruct (recover_restores cp_dir (fs st) save_files default_mode st2')
    as (st3 & Erec & _ & Hin & Hgone & Hrest).
  - unfold isdir. rewrite Hin2; [exact Hdir | apply in_tree_refl |].
    apply not_eq_sym, changes_since_not_dir.
  - rewrite Hin2; [exact Hfp | exact Hfp_tree |].
    apply not_eq_sym, changes_since_not_filepaths.
  - reflexivity.
  - exact Hsafe.
  - unfold isfile. rewrite Hin2; [now rewrite Hnew | exact Hnf_tree |].
    rewrite changes_since_member, new_files_member.
    intros Heq%member_inj. discriminate.
  - intros i f Hi.
    assert (Hf : f ∈ save_files) by (eapply list_elem_of_lookup_2, Hi).
    destruct (Hst f Hf) as (_ & Ho & Hm).
    split; [exact Ho |]. split; [| split; [exact Hm |]].
    + rewrite Hin2; [now apply Hsnaps | apply in_tree_snapshot |].
      rewrite changes_since_member. now apply snapshot_not_plain.
    + rewrite forallb_forall in Hedit.
      specialize (Hedit f (proj1 (list_elem_of_In _ _) Hf)).
      unfold overwritable in Hedit.
      destruct (fs st2' !! f) as [[c' m' |] |]; try discriminate. eauto.
  - exists st3. auto.
Qed.

End OldestCopy.

(** ** Registered files *)


(** The loop of the registration on an open list file: the paths go to its
    end, each with a newline. *)
Lemma write_each_appends (new_files_path : string) (files : list string) :
  forall (st : state) (content : string) (mode : Z),
    fs st !! new_files_path = Some (File content mode) ->
    write_each new_files_path files st
    = (Ok tt, set_fs st (<[new_files_path
                           := File (content +:+ lines_text files) mode]> (fs st))).
Proof.
  induction files as [| f rest IH]; intros st content mode Hl.
  - cbn [write_each lines_text ret]. rewrite sapp_nil_r.
    rewrite insert_id by exact Hl. unfold set_fs. now rewrite state_eta.
  - cbn [write_each lines_text]. unfold bind at 1. unfold fd_write at 1.
    rewrite Hl. erewrite IH by (cbn [fs set_fs]; apply lookup_insert_eq).
    cbn [fs set_fs log clock]. unfold set_fs.
    now rewrite insert_insert_eq, !sapp_assoc.
Qed.

Section Registration.

Variable self : Reverter.

(** The checkpoint a registration goes to. *)
Definition registry_dir (temporary : bool) : string :=
  if temporary then direc_temp self else direc_progress self.



(** X6: A registration that cannot be written is lost without an exception:
    when NEW_FILES of the checkpoint is a directory or a file that may not
    be written, the call returns, one error record is logged, and the file
    system is as it was. *)
Theorem registration_failure_is_silent
    (temporary : bool) (files : list string) (st : state) :
  isdir (fs st) (registry_dir temporary) = true ->
  lexists (fs st) (new_files_of (registry_dir temporary)) = true ->
  overwritable (fs st) (new_files_of (registry_dir temporary)) = false ->
  register_file_creation self temporary files st
  = (Ok tt,
     {| fs := fs st;
        log := log st ++ [(ERROR, "ERROR: Unable to register file creation")];
        clock := clock st |}).
Proof.
  intros Hdir Hex Hov. unfold register_file_creation.
  fold (registry_dir temporary). set (cp_dir := registry_dir temporary) in *.
  fold (new_files_of cp_dir).
  unfold bind at 1. unfold make_or_verify_dir. unfold isdir in Hdir.
  destruct (fs st !! cp_dir) as [[] |]; try discriminate.
  unfold try_except. unfold bind at 1. unfold open_a.
  unfold lexists in Hex. unfold overwritable in Hov.
  destruct (fs st !! new_files_of cp_dir) as [[c m |] |]; try discriminate.
  - now rewrite Hov.
  - reflexivity.
Qed.

(** X7: A registration adds to what was registered before: with the
    checkpoint directory and a NEW_FILES that may be written already
    there, the call returns and logs nothing, NEW_FILES lists what it
    listed before and then the given paths, in their order and as often as
    they are given, and every other path is as it was. The paths have no
    line break, and what NEW_FILES held is empty or ends with a
    newline. *)
Theorem registration_appends
    (temporary : bool) (files : list string) (st : state) :
  isdir (fs st) (registry_dir temporary) = true ->
  overwritable (fs st) (new_files_of (registry_dir temporary)) = true ->
  list_terminated (fs st) (new_files_of (registry_dir temporary)) = true ->
  forallb line_safe files = true ->
  exists st',
    register_file_creation self temporary files st = (Ok tt, st') /\
    log st' = log st /\
    lines_of (fs st') (new_files_of (registry_dir temporary))
    = lines_of (fs st) (new_files_of (registry_dir temporary)) ++ files /\
    (forall p, p <> new_files_of (registry_dir temporary) ->
               fs st' !! p = fs st !! p).
Proof.
  intros Hdir Hov Hterm Hsafe. unfold register_file_creation.
  fold (registry_dir temporary). set (cp_dir := registry_dir temporary) in *.
  fold (new_files_of cp_dir).
  unfold bind at 1. unfold make_or_verify_dir. unfold isdir in Hdir.
  destruct (fs st !! cp_dir) as [[] |]; try discriminate.
  unfold overwritable in Hov. unfold list_terminated in Hterm.
  unfold lines_of at 2.
  destruct (fs st !! new_files_of cp_dir) as [[c m |] |] eqn:Hnf;
    try discriminate.
  unfold try_except. unfold bind at 1. unfold open_a. rewrite Hnf, Hov.
  rewrite (write_each_appends _ files st c m Hnf).
  eexists. split; [reflexivity |]. cbn [fs set_fs log].
  split; [reflexivity |]. split.
  - unfold lines_of. rewrite lookup_insert_eq.
    rewrite splitlines_sapp by exact Hterm.
    now rewrite splitlines_lines_text by exact Hsafe.
  - intros p Hp. now rewrite lookup_insert_ne by congruence.
Qed.

End Registration.

(** ** What a computation keeps and what it raises *)

(** [keeps R m]: the file system [m] ends with, whatever its outcome, is
    related by [R] to the one it started with. *)
Definition keeps {A} (R : relation (gmap string node)) (m : M A) : Prop :=
  forall st, R (fs st) (fs (snd (m st))).


Section Keeping.

Context {R : relation (gmap string node)} `{!PreOrder R}.

Lemma keeps_ret {A} (a : A) : keeps R (ret a).
Proof. intros st. reflexivity. Qed.

Lemma keeps_raise {A} (e : exn) : keeps R (@raise A e).
Proof. intros st. reflexivity. Qed.

Lemma keeps_logging (lv : level) (msg : string) : keeps R (logging lv msg).
Proof. intros st. reflexivity. Qed.

Lemma keeps_bind {A B} (m : M A) (k : A -> M B) :
  keeps R m -> (forall a, keeps R (k a)) -> keeps R (bind m k).
Proof.
  intros Hm Hk st. rewrite snd_bind. specialize (Hm st).
  destruct (m st) as [[a | e] st1]; cbn [fst snd] in *; [| exact Hm].
  etransitivity; [exact Hm | apply Hk].
Qed.

Lemma keeps_try_except {A} (m : M A) (h : exn -> option (M A)) :
  keeps R m -> (forall e k, h e = Some k -> keeps R k) ->
  keeps R (try_except m h).
Proof.
  intros Hm Hh st. unfold try_except. specialize (Hm st).
  destruct (m st) as [[a | e] st1]; cbn [fst snd] in *; [exact Hm |].
  destruct (h e) as [k |] eqn:E; [| exact Hm].
  etransitivity; [exact Hm | now apply (Hh e k)].
Qed.

Lemma keeps_reading {A} (m : M A) :
  (forall st, snd (m st) = st) -> keeps R m.
Proof. intros H st. rewrite H. reflexivity. Qed.

End Keeping.







(** ** Recovery makes no directory *)

(** Every directory of the second file system is one of the first. *)
Definition dirs_within (m m' : gmap string node) : Prop :=
  forall p, isdir m' p = true -> isdir m p = true.

#[global] Instance dirs_within_preorder : PreOrder dirs_within.
Proof.
  split; [intros m p H; exact H |].
  intros m1 m2 m3 H12 H23 p H. now apply H12, H23.
Qed.

Lemma os_path_isfile_state (p : string) (st : state) :
  snd (os_path_isfile p st) = st.
Proof. reflexivity. Qed.

Lemma os_path_lexists_state (p : string) (st : state) :
  snd (os_path_lexists p st) = st.
Proof. reflexivity. Qed.

Lemma os_path_isdir_state (p : string) (st : state) :
  snd (os_path_isdir p st) = st.
Proof. reflexivity. Qed.

Lemma shutil_copy2_dirs (src dst : string) :
  keeps dirs_within (shutil_copy2 src dst).
Proof.
  intros st p. unfold shutil_copy2.
  set (d := if isdir (fs st) dst
            then os_path_join dst (os_path_basename src) else dst).
  destruct (String.eqb src d && lexists (fs st) src); [auto |].
  destruct (fs st !! src) as [[c m |] |]; auto.
  destruct (readable m); auto.
  assert (Hins : isdir (<[d := File c m]> (fs st)) p = true ->
                 isdir (fs st) p = true).
  { intros H. destruct (isdir (fs st) p) eqn:E; [reflexivity |].
    now rewrite (isdir_insert_file _ d p c m E) in H. }
  destruct (fs st !! d) as [[c' m' |] |]; auto.
  - destruct (writable m'); auto.
  - destruct (parent_ok (fs st) d); auto.
Qed.

Lemma os_remove_dirs (q : string) : keeps dirs_within (os_remove q).
Proof.
  intros st p. unfold os_remove.
  destruct (fs st !! q) as [[c m |] |]; auto. cbn [snd fs set_fs].
  intros H. destruct (isdir (fs st) p) eqn:E; [reflexivity |].
  now rewrite (isdir_delete _ q p E) in H.
Qed.

Lemma shutil_rmtree_dirs (d : string) : keeps dirs_within (shutil_rmtree d).
Proof.
  intros st p. unfold shutil_rmtree.
  destruct (isdir (fs st) d); auto. cbn [snd fs set_fs].
  unfold isdir at 1. rewrite remove_tree_lookup.
  destruct (in_tree d p); [discriminate | auto].
Qed.

Lemma restore_each_dirs (cp_dir : string) (filepaths : list string) :
  forall idx, keeps dirs_within (restore_each cp_dir idx filepaths).
Proof.
  induction filepaths as [| f rest IH]; intros idx; cbn [restore_each].
  - apply keeps_ret.
  - apply keeps_bind; [apply shutil_copy2_dirs | intros _; apply IH].
Qed.

Lemma remove_each_dirs (filepaths : list string) :
  keeps dirs_within (remove_each filepaths).
Proof.
  induction filepaths as [| f rest IH]; cbn [remove_each].
  - apply keeps_ret.
  - apply keeps_bind; [now apply keeps_reading | intros ex].
    apply keeps_bind; [| intros _; exact IH].
    destruct ex; [apply os_remove_dirs | apply keeps_logging].
Qed.

Lemma on_io_os_error_inv {A} (k k' : M A) (e : exn) :
  on_io_os_error k e = Some k' -> k' = k.
Proof. destruct e; cbn; congruence. Qed.

Lemma on_os_error_inv {A} (k k' : M A) (e : exn) :
  on_os_error k e = Some k' -> k' = k /\ e = OSError.
Proof. destruct e; cbn; try discriminate. intros [= <-]. auto. Qed.

Lemma on_reverter_error_inv {A} (k k' : M A) (e : exn) :
  on_reverter_error k e = Some k' -> k' = k.
Proof. destruct e; cbn; congruence. Qed.

Lemma recover_checkpoint_dirs (cp_dir : string) :
  keeps dirs_within (_recover_checkpoint cp_dir).
Proof.
  unfold _recover_checkpoint.
  apply keeps_bind; [| intros _; apply keeps_bind; [| intros _]].
  - unfold restore_listed. apply keeps_bind; [now apply keeps_reading |].
    intros [|]; [| apply keeps_ret].
    apply keeps_try_except.
    + apply keeps_bind; [apply keeps_reading, read_file_state |].
      intros content. apply restore_each_dirs.
    + intros e k ->%on_io_os_error_inv.
      apply keeps_bind; [apply keeps_logging | intros _; apply keeps_raise].
  - unfold _remove_contained_files.
    apply keeps_bind; [now apply keeps_reading |].
    intros [|]; cbn [negb]; [| apply keeps_ret].
    apply keeps_bind; [| intros _; apply keeps_ret].
    apply keeps_try_except.
    + apply keeps_bind; [apply keeps_reading, read_file_state |].
      intros content. apply remove_each_dirs.
    + intros e k ->%on_io_os_error_inv.
      apply keeps_bind; [apply keeps_logging | intros _; apply keeps_raise].
  - unfold remove_checkpoint_dir. apply keeps_try_except.
    + apply shutil_rmtree_dirs.
    + intros e k [-> _]%on_os_error_inv.
      apply keeps_bind; [apply keeps_logging | intros _; apply keeps_raise].
Qed.

(** X8: The recovery of a checkpoint, however it ends, makes no directory:
    every directory there is after it was one before. It copies files,
    unlinks files and removes one directory tree. *)
Theorem recover_makes_no_directory (cp_dir : string) (st : state) (p : string) :
  isdir (fs (snd (_recover_checkpoint cp_dir st))) p = true ->
  isdir (fs st) p = true.
Proof. apply recover_checkpoint_dirs. Qed.

Section RecoveryOutcome.

Variable self : Reverter.

Lemma revert_ok_no_dir (d : string) (h : exn -> option (M unit))
    (st st' : state) :
  (forall e k st0 a0 st1, h e = Some k -> k st0 <> (Ok a0, st1)) ->
  (isd <- os_path_isdir d ;;
   if isd then try_except (_recover_checkpoint d) h else ret tt) st
  = (Ok tt, st') ->
  isdir (fs st') d = false /\
  (forall p, isdir (fs st') p = true -> isdir (fs st) p = true).
Proof.
  intros Hh E. unfold bind at 1 in E. unfold os_path_isdir at 1 in E.
  destruct (isdir (fs st) d) eqn:Hd.
  - apply try_except_ok_inv in E; [| exact Hh].
    split.
    + unfold isdir. now rewrite (recover_ok_removes_dir d st st' E).
    + intros p. pose proof (recover_checkpoint_dirs d st p) as H.
      now rewrite E in H.
  - injection E as <-. auto.
Qed.

(** X9: Once [recovery_routine] has returned, neither the temporary nor the
    progress checkpoint directory is there. *)
Theorem recovery_routine_clears_store (st st' : state) :
  recovery_routine self st = (Ok tt, st') ->
  isdir (fs st') (direc_temp self) = false /\
  isdir (fs st') (direc_progress self) = false.
Proof.
  intros E. unfold recovery_routine in E.
  apply bind_ok_inv in E as ([] & st1 & Etemp & Eprog).
  apply revert_ok_no_dir in Etemp as [Htemp _].
  2:{ intros e k st0 a0 st2 ->%on_reverter_error_inv. discriminate. }
  apply revert_ok_no_dir in Eprog as [Hprog Hdirs].
  2:{ intros e k st0 a0 st2 ->%on_reverter_error_inv. discriminate. }
  split; [| exact Hprog].
  destruct (isdir (fs st') (direc_temp self)) eqn:Hd; [| reflexivity].
  apply Hdirs in Hd. congruence.
Qed.

End RecoveryOutcome.

(** ** The exceptions of a recovery *)











Section RoutineExceptions.

Variable self : Reverter.


End RoutineExceptions.

(** ** A rollback that fails *)

Section RollbackFailure.

Variable self : Reverter.

(** What a failed recovery turns into inside the rollback loop: the error
    of the class with one fatal record, or the exception itself when it is
    not an error of the class. *)
Definition rollback_failure (e : exn) (st : state) : result unit * state :=
  match e with
  | LetsEncryptReverterError _ =>
      (Exc (LetsEncryptReverterError "Unable to load checkpoint during rollback"),
       {| fs := fs st;
          log := log st ++ [(FATAL, "Failed to load checkpoint during rollback")];
          clock := clock st |})
  | _ => (Exc e, st)
  end.

Lemma rollback_all_fails (done rest : list string) (bad : string) (e : exn) :
  forall st st1 st2,
    reverts self done st st1 ->
    _recover_checkpoint (os_path_join (direc_backup self) bad) st1 = (Exc e, st2) ->
    rollback_all self (done ++ bad :: rest) st = rollback_failure e st2.
Proof.
  induction done as [| name done IH]; intros st st1 st2 Hrev Hbad.
  - inversion Hrev; subst. cbn [app rollback_all].
    unfold bind, rollback_one, try_except. rewrite Hbad.
    now destruct e.
  - inversion Hrev as [| ? ? ? sta ? Hfirst Hnext]; subst.
    cbn [app rollback_all].
    unfold bind at 1. unfold rollback_one at 1. unfold try_except at 1.
    rewrite Hfirst. now apply (IH sta st1 st2).
Qed.

(** X12: The first backup whose recovery fails ends the rollback: the backups
    before it, newer ones, stay reverted, the ones after it are not looked
    at, and the state is the one the failed recovery left. An error of the
    class is replaced by "Unable to load checkpoint during rollback" with
    one fatal record; any other exception passes as it is. *)
Theorem rollback_stops_at_first_failure
    (v : pyval) (n : nat) (done rest : list string) (bad : string) (e : exn)
    (st st1 st2 : state) :
  int_value v = Some (Z.of_nat n) ->
  isdir (fs st) (direc_backup self) = true ->
  take n (rev (sorted_backups self (fs st))) = done ++ bad :: rest ->
  reverts self done (shortfall_logged self n st) st1 ->
  _recover_checkpoint (os_path_join (direc_backup self) bad) st1 = (Exc e, st2) ->
  rollback_checkpoints self v st = rollback_failure e st2.
Proof.
  intros Hv Hd Hnames Hrev Hbad.
  rewrite (rollback_checkpoints_spec self v n st Hv Hd), Hnames.
  now apply (rollback_all_fails done rest bad e _ st1 st2).
Qed.

(** X13: Without a backup directory the listing fails before anything is
    reverted: for every count that passes the argument check, zero too, the
    rollback raises [OSError], not an error of the class, and changes
    nothing. *)
Theorem rollback_without_backup_dir (v : pyval) (z : Z) (st : state) :
  int_value v = Some z ->
  0 <= z ->
  isdir (fs st) (direc_backup self) = false ->
  rollback_checkpoints self v st = (Exc OSError, st).
Proof.
  intros Hv Hz Hd. unfold rollback_checkpoints.
  unfold bind at 1. unfold try_except at 1.
  assert (Hint : py_int v st = (Ok z, st)).
  { destruct v as [z' | s]; cbn in Hv |- *; [now inversion Hv |].
    now rewrite Hv. }
  rewrite Hint.
  destruct (Z.ltb_spec z 0) as [Hneg | _]; [lia |].
  unfold bind at 1. unfold os_listdir at 1. now rewrite Hd.
Qed.

End RollbackFailure.

(** ** Staging and the guard of the temporary checkpoint *)

Section GuardAfterStaging.

Variable self : Reverter.

(** The check refuses a request that names a protected path, and leaves
    the state as it was. *)
Lemma check_tempfile_saves_conflict
    (save_files : list string) (f : string) (st : state) :
  f ∈ save_files ->
  f ∈ temp_protected self (fs st) ->
  exists e,
    _check_tempfile_saves self save_files st = (Exc e, st) /\
    (list_readable (fs st) (new_files_of (direc_temp self)) = true ->
     list_readable (fs st) (filepaths_of (direc_temp self)) = true ->
     exists g, g ∈ save_files /\ g ∈ temp_protected self (fs st) /\
       e = LetsEncryptReverterError
             ("Attempting to overwrite challenge file - " +:+ g)).
Proof.
  intros Hs Hp.
  destruct (list_readable (fs st) (filepaths_of (direc_temp self))
            && list_readable (fs st) (new_files_of (direc_temp self))) eqn:Hr.
  - apply andb_true_iff in Hr as [H1 H2].
    rewrite (check_tempfile_saves_readable _ _ _ H1 H2), check_each_spec.
    destruct (List.find _ _) as [g |] eqn:Hfind.
    + apply List.find_some in Hfind as [Hin Hg].
      apply bool_decide_eq_true in Hg.
      eexists. split; [reflexivity |]. intros _ _. exists g.
      split; [exact Hg |]. split; [now apply list_elem_of_In | reflexivity].
    + exfalso.
      apply list_elem_of_In in Hp.
      pose proof (List.find_none _ _ Hfind f Hp) as Hf.
      apply bool_decide_eq_false in Hf. contradiction.
  - rewrite (check_tempfile_saves_unreadable _ _ _ Hr).
    eexists. split; [reflexivity |]. intros H2 H1.
    rewrite H1, H2 in Hr. discriminate.
Qed.

(** X14: A file staged in the temporary checkpoint cannot be staged in a
    permanent one while that checkpoint stands: once
    [add_to_temp_checkpoint] has ended well, [add_to_checkpoint] with a
    request that names one of its files raises and changes nothing; it
    raises the error of the class that names a requested, protected path,
    unless NEW_FILES of the temporary checkpoint cannot be read. The path
    has no line break, and FILEPATHS before the staging is absent or ends
    with a newline. *)
Theorem temp_staging_protects
    (temp_files save_files : list string) (temp_notes save_notes f : string)
    (st st1 : state) :
  list_terminated (fs st) (filepaths_of (direc_temp self)) = true ->
  add_to_temp_checkpoint self temp_files temp_notes st = (Ok tt, st1) ->
  f ∈ temp_files ->
  line_safe f = true ->
  f ∈ save_files ->
  exists e,
    add_to_checkpoint self save_files save_notes st1 = (Exc e, st1) /\
    (list_readable (fs st1) (new_files_of (direc_temp self)) = true ->
     exists g, g ∈ save_files /\ g ∈ temp_protected self (fs st1) /\
       e = LetsEncryptReverterError
             ("Attempting to overwrite challenge file - " +:+ g)).
Proof.
  intros Hterm E Hf Hsafe Hs. unfold add_to_temp_checkpoint in E.
  destruct (staging_ok_leaves (direc_temp self) _ _ _ _ Hterm E)
    as (_ & (content & mode & Hfp & Hr & _ & _ & Hall) & _).
  assert (Hp : f ∈ temp_protected self (fs st1)).
  { unfold temp_protected. apply elem_of_app. left.
    unfold lines_of. rewrite Hfp. now apply Hall. }
  destruct (check_tempfile_saves_conflict save_files f st1 Hs Hp)
    as (e & Echeck & Hwhich).
  exists e. unfold add_to_checkpoint, bind. rewrite Echeck.
  split; [reflexivity |]. intros Hnf. apply Hwhich; [exact Hnf |].
  unfold list_readable. now rewrite Hfp.
Qed.

End GuardAfterStaging.

(** ** Staging a file that is not there *)

Section StagingFailure.

Variable cp_dir : string.

(** The files the loop of a staging copied were regular files. *)
Lemma save_each_ok_sources (existing save_files : list string) :
  forall (idx : nat) (st st' : state),
    save_each cp_dir (filepaths_of cp_dir) existing idx save_files st
    = (Ok tt, st') ->
    forall f, f ∈ unlisted existing save_files ->
              in_tree cp_dir f = false -> isfile (fs st) f = true.
Proof.
  induction save_files as [| g rest IH]; intros idx st st' E f Hf Hout.
  - now apply elem_of_nil in Hf.
  - cbn [save_each unlisted] in E, Hf.
    destruct (bool_decide (g ∈ existing)); [now apply (IH idx st st') |].
    apply bind_ok_inv in E as ([] & st1 & E1 & E).
    apply bind_ok_inv in E as ([] & st2 & E2 & E).
    apply bind_ok_inv in E as ([] & st3 & E3 & E).
    unfold logging in E1. injection E1 as <-.
    apply elem_of_cons in Hf as [-> | Hf].
    + apply shutil_copy2_ok in E2 as (c & m & Hsrc & _).
      unfold isfile. cbn [fs] in Hsrc. now rewrite Hsrc.
    + pose proof (IH _ _ _ E f Hf Hout) as H3.
      pose proof (shutil_copy2_target g
                    (os_path_join cp_dir
                       (os_path_basename g +:+ "_" +:+ str_nat idx))
                    {| fs := fs st;
                       log := log st ++ [(DEBUG, "Creating backup of " +:+ g)];
                       clock := clock st |} f) as Hcopy.
      destruct (copy_target_member cp_dir (fs st) g g idx) as (a & Ha & _).
      unfold snapshot_path, tag in Ha. cbn [fs] in Hcopy.
      rewrite Ha, E2 in Hcopy. cbn [snd] in Hcopy.
      specialize (Hcopy (outside_not_member cp_dir f a Hout)).
      pose proof (fd_write_other (filepaths_of cp_dir) (g +:+ nl) f st2) as Hw.
      rewrite E3 in Hw. cbn [snd] in Hw.
      unfold isfile in H3 |- *. rewrite <- Hcopy, <- Hw; [exact H3 |].
      rewrite filepaths_member. now apply outside_not_member.
Qed.

(** X15: A requested file that is not listed yet and is not a regular file
    makes the staging raise, and then the note is not recorded:
    CHANGES_SINCE is as it was, though files that came before it in the
    request may have been copied and listed. *)
Theorem staging_missing_file_aborts
    (save_files : list string) (save_notes f : string) (st : state) :
  f ∈ save_files ->
  f ∉ listed cp_dir (fs st) ->
  in_tree cp_dir f = false ->
  isfile (fs st) f = false ->
  (exists e,
     fst (_add_to_checkpoint_dir cp_dir save_files save_notes st) = Exc e) /\
  fs (snd (_add_to_checkpoint_dir cp_dir save_files save_notes st))
    !! changes_since_of cp_dir
  = fs st !! changes_since_of cp_dir.
Proof.
  intros Hf Hnew Hout Hmissing.
  assert (Hcs_dir : changes_since_of cp_dir <> cp_dir)
    by apply changes_since_not_dir.
  assert (Hcs_fp : changes_since_of cp_dir <> filepaths_of cp_dir)
    by apply changes_since_not_filepaths.
  assert (Hf_dir : f <> cp_dir).
  { intros ->. rewrite in_tree_refl in Hout. discriminate. }
  assert (Hf_fp : f <> filepaths_of cp_dir).
  { rewrite filepaths_member. now apply outside_not_member. }
  unfold _add_to_checkpoint_dir.
  fold (filepaths_of cp_dir) (changes_since_of cp_dir).
  rewrite snd_bind. unfold bind at 1.
  pose proof (make_or_verify_dir_other cp_dir _ st Hcs_dir) as Hmk.
  pose proof (make_or_verify_dir_other cp_dir _ st Hf_dir) as Hmk_f.
  pose proof (make_or_verify_dir_other cp_dir _ st (filepaths_not_dir cp_dir))
    as Hmk_fp.
  destruct (make_or_verify_dir cp_dir st) as [[[] | e] sta]; cbn [fst snd] in *;
    [| split; [eauto | exact Hmk]].
  rewrite snd_bind. unfold bind at 1. cbn [os_path_isfile fst snd].
  rewrite snd_bind. unfold bind at 1.
  set (opening := if isfile (fs sta) (filepaths_of cp_dir) then _ else _).
  assert (Hopen : (exists e, fst (opening sta) = Exc e /\
                             fs (snd (opening sta)) = fs sta) \/
                  fst (opening sta) = Ok (listed cp_dir (fs st)) /\
                  fs (snd (opening sta)) !! changes_since_of cp_dir
                  = fs sta !! changes_since_of cp_dir /\
                  fs (snd (opening sta)) !! f = fs sta !! f).
  { unfold opening, isfile, listed, lines_of. rewrite <- Hmk_fp.
    destruct (fs sta !! filepaths_of cp_dir) as [[c m |] |] eqn:Hl.
    - unfold bind, open_rw, read_file, ret. rewrite Hl.
      destruct (readable m) eqn:Hr, (writable m) eqn:Hw; cbn [andb fst snd];
        rewrite ?Hl, ?Hr; cbn [fst snd]; eauto.
    - unfold bind, open_w. rewrite Hl. cbn [fst snd]. eauto.
    - unfold bind, open_w. rewrite Hl.
      destruct (parent_ok (fs sta) (filepaths_of cp_dir)); cbn [fst snd ret];
        [| eauto].
      right. cbn [fs set_fs]. rewrite !lookup_insert_ne by congruence. auto. }
  destruct Hopen as [(e & He & Hsame) | (Hex & Hcs & Hff)].
  - destruct (opening sta) as [[existing | e'] stb]; cbn [fst snd] in *;
      [discriminate |].
    split; [eauto |]. now rewrite Hsame.
  - destruct (opening sta) as [[existing | e'] stb]; cbn [fst snd] in *;
      [| discriminate].
    injection Hex as ->.
    rewrite snd_bind. unfold bind at 1.
    assert (Hcs_snap : forall a, plain_name a = false ->
                                 changes_since_of cp_dir <> member cp_dir a).
    { intros a Ha. rewrite changes_since_member. intros E%member_inj.
      subst a. discriminate. }
    pose proof (save_each_spares cp_dir (listed cp_dir (fs st)) save_files
                  (changes_since_of cp_dir) Hcs_fp Hcs_snap
                  (length (listed cp_dir (fs st))) stb) as Hloop.
    destruct (save_each cp_dir (filepaths_of cp_dir) (listed cp_dir (fs st))
                (length (listed cp_dir (fs st))) save_files stb)
      as [[[] | e] stc] eqn:Eloop; cbn [fst snd] in *.
    + exfalso.
      pose proof (save_each_ok_sources _ _ _ _ _ Eloop f
                    (elem_of_unlisted _ _ _ Hf Hnew) Hout) as Hfile.
      unfold isfile in Hfile, Hmissing. now rewrite Hff, Hmk_f in Hfile;
        rewrite Hfile in Hmissing.
    + split; [eauto |]. now rewrite Hloop, Hcs.
Qed.

End StagingFailure.

(** ** Files that can be read *)

(** What a regular file holds. *)
Definition content_of (m : gmap string node) (p : string) : string :=
  match m !! p with
  | Some (File content _) => content
  | _ => ""
  end.

(** A regular file that may be read. *)
Definition readable_file (m : gmap string node) (p : string) : bool :=
  match m !! p with
  | Some (File _ mode) => readable mode
  | _ => false
  end.



(** ** Moving a tree *)

Lemma prefix_nil (s : string) : String.prefix "" s = true.
Proof. now destruct s. Qed.

Lemma prefix_cons (a b : ascii) (s t : string) :
  String.prefix (String a s) (String b t)
  = if Ascii.ascii_dec a b then String.prefix s t else false.
Proof. cbn. now destruct (Ascii.ascii_dec a b). Qed.

Lemma prefix_split (a s : string) :
  String.prefix a s = true -> s = a +:+ drop_string (String.length a) s.
Proof.
  revert s. induction a as [| c a IH]; intros s H; [reflexivity |].
  destruct s as [| d s]; [discriminate |].
  rewrite prefix_cons in H. destruct (Ascii.ascii_dec c d) as [<- |];
    [| discriminate].
  rewrite sapp_cons. cbn [String.length drop_string]. f_equal. now apply IH.
Qed.

Lemma drop_sapp (a b : string) : drop_string (String.length a) (a +:+ b) = b.
Proof. induction a as [| c a IH]; [now destruct b | exact IH]. Qed.

(** Two prefixes of one string: one is a prefix of the other. *)
Lemma prefix_both (a b s : string) :
  String.prefix a s = true -> String.prefix b s = true ->
  String.prefix a b = true \/ String.prefix b a = true.
Proof.
  revert b s. induction a as [| c a IH]; intros b s Ha Hb.
  - left. apply prefix_nil.
  - destruct b as [| d b]; [right; apply prefix_nil |].
    destruct s as [| e s]; [discriminate |].
    rewrite prefix_cons in Ha, Hb.
    destruct (Ascii.ascii_dec c e) as [<- |]; [| discriminate].
    destruct (Ascii.ascii_dec d c) as [-> |]; [| discriminate].
    rewrite !prefix_cons. destruct (Ascii.ascii_dec c c); [| contradiction].
    now apply (IH b s).
Qed.

Lemma prefix_snoc (a b : string) (c : ascii) :
  String.prefix a (b +:+ String c "") = true ->
  a = b +:+ String c "" \/ String.prefix a b = true.
Proof.
  revert a. induction b as [| d b IH]; intros a H.
  - rewrite sapp_nil_l in H. destruct a as [| e a]; [right; reflexivity |].
    rewrite prefix_cons in H. destruct (Ascii.ascii_dec e c) as [-> |];
      [| discriminate].
    destruct a; [now left | discriminate].
  - destruct a as [| e a]; [right; apply prefix_nil |].
    rewrite sapp_cons, prefix_cons in H.
    destruct (Ascii.ascii_dec e d) as [-> |]; [| discriminate].
    destruct (IH a H) as [-> | Hp].
    + left. now rewrite sapp_cons.
    + right. rewrite prefix_cons.
      now destruct (Ascii.ascii_dec d d).
Qed.

Lemma prefix_refl (a : string) : String.prefix a a = true.
Proof. rewrite <- (sapp_nil_r a) at 2. apply prefix_sapp. Qed.

Lemma sapp_slash_inj (a b : string) : a +:+ "/" = b +:+ "/" -> a = b.
Proof.
  revert b. induction a as [| c a IH]; intros b H.
  - destruct b as [| d b]; [reflexivity |].
    rewrite sapp_cons in H. injection H as _ H. now destruct b.
  - destruct b as [| d b].
    + rewrite sapp_cons in H. injection H as _ H. now destruct a.
    + rewrite !sapp_cons in H. injection H as -> H. f_equal. now apply IH.
Qed.

(** A directory with its separator: itself when it ends with a slash or
    is empty, with a slash added otherwise. *)
Lemma separator_cases (d : string) :
  os_path_join d "" = d \/ os_path_join d "" = d +:+ "/".
Proof.
  unfold os_path_join. cbn [starts_with_slash].
  destruct (String.eqb d "" || ends_with_slash d).
  - left. apply sapp_nil_r.
  - right. reflexivity.
Qed.

Lemma under_prefix (d p : string) :
  String.prefix (os_path_join d "") p = true -> p <> d -> under d p = true.
Proof. intros H _. exact H. Qed.

(** One tree inside another. *)
Lemma separator_prefix (d e : string) :
  String.prefix (os_path_join d "") (os_path_join e "") = true ->
  in_tree d e = true \/ in_tree e d = true.
Proof.
  intros H. unfold in_tree, under.
  destruct (separator_cases e) as [Ee | Ee].
  - rewrite Ee in H. left. rewrite H. apply orb_true_r.
  - rewrite Ee in H |- *. apply prefix_snoc in H as [H | H].
    + destruct (separator_cases d) as [Ed | Ed].
      * right. rewrite <- H, Ed, prefix_refl. apply orb_true_r.
      * rewrite Ed in H. right.
        apply sapp_slash_inj in H as ->. now rewrite String.eqb_refl.
    + left. rewrite H. apply orb_true_r.
Qed.

(** Two directories neither of which lies in the other have no path in
    common. *)
Lemma trees_disjoint (d e p : string) :
  in_tree d e = false -> in_tree e d = false ->
  in_tree d p = true -> in_tree e p = false.
Proof.
  intros Hde Hed Hp. destruct (in_tree e p) eqn:Hq; [exfalso | reflexivity].
  unfold in_tree in Hp, Hq.
  apply orb_true_iff in Hp as [Hp | Hp].
  - apply String.eqb_eq in Hp as ->. unfold in_tree in Hed. congruence.
  - apply orb_true_iff in Hq as [Hq | Hq].
    + apply String.eqb_eq in Hq as ->. unfold in_tree in Hde.
      rewrite Hp, orb_true_r in Hde. discriminate.
    + unfold under in Hp, Hq.
      destruct (prefix_both _ _ _ Hp Hq) as [H | H];
        apply separator_prefix in H as [H | H]; congruence.
Qed.

(** A path of the tree at [d]: the directory or an entry below it. *)
Lemma in_tree_cases (d p : string) :
  in_tree d p = true ->
  p = d \/ (p <> d /\ exists r, p = member d r).
Proof.
  intros H. destruct (String.eqb_spec p d) as [-> | Hne]; [now left |].
  right. split; [exact Hne |].
  unfold in_tree in H. apply orb_true_iff in H as [H | H].
  - apply String.eqb_eq in H. contradiction.
  - exists (drop_string (String.length (os_path_join d "")) p).
    unfold member. now apply prefix_split.
Qed.

Lemma rekey_root (src dst : string) : rekey src dst src = dst.
Proof. unfold rekey. now rewrite String.eqb_refl. Qed.

Lemma rekey_member (src dst r : string) :
  member src r <> src -> rekey src dst (member src r) = member dst r.
Proof.
  intros Hne. unfold rekey.
  destruct (String.eqb_spec (member src r) src) as [E | _]; [contradiction |].
  unfold member. now rewrite drop_sapp.
Qed.

(** Where the paths of a tree go lies in the tree of the new name. *)
Lemma rekey_in_tree (src dst k : string) :
  in_tree src k = true -> in_tree dst (rekey src dst k) = true.
Proof.
  intros [-> | [Hne [r ->]]]%in_tree_cases.
  - rewrite rekey_root. apply in_tree_refl.
  - rewrite rekey_member by exact Hne. apply in_tree_member.
Qed.

(** Renaming keys with a function that need not be injective: a key that
    no entry is sent to is free, and a key that one entry only is sent to
    holds that entry. *)
Lemma kmap_lookup_free (f : string -> string) (m : gmap string node)
    (j : string) :
  (forall k x, m !! k = Some x -> f k <> j) ->
  (kmap f m : gmap string node) !! j = None.
Proof.
  intros H. unfold kmap. apply not_elem_of_list_to_map_1.
  intros Hin. apply list_elem_of_fmap in Hin as ([j' x'] & -> & Hin).
  apply list_elem_of_fmap in Hin as ([k x] & [= -> ->] & Hin).
  apply elem_of_map_to_list in Hin. now apply (H k x).
Qed.

Lemma kmap_lookup_only (f : string -> string) (m : gmap string node)
    (k : string) :
  (forall k' x, m !! k' = Some x -> f k' = f k -> k' = k) ->
  (kmap f m : gmap string node) !! f k = m !! k.
Proof.
  intros H. destruct (m !! k) as [x |] eqn:E.
  - unfold kmap. apply elem_of_list_to_map_1'.
    + intros y Hin. apply list_elem_of_fmap in Hin as ([k' x'] & [= Hk ->] & Hin).
      apply elem_of_map_to_list in Hin.
      assert (k' = k) as -> by (eapply H; eauto). congruence.
    + apply list_elem_of_fmap. exists (k, x). split; [reflexivity |].
      now apply elem_of_map_to_list.
  - apply kmap_lookup_free. intros k' x Hk' Hf.
    assert (k' = k) as -> by (eapply H; eauto). congruence.
Qed.

Section MoveTree.

Variables (src dst : string) (m : gmap string node).

Lemma moved_lookup_free (p : string) :
  in_tree dst p = false ->
  (kmap (rekey src dst) (tree_of src m) : gmap string node) !! p = None.
Proof.
  intros Hp. apply kmap_lookup_free. intros k x Hk <-.
  apply map_lookup_filter_Some in Hk as [_ Hk]. cbn in Hk.
  now rewrite (rekey_in_tree src dst k Hk) in Hp.
Qed.

(** The paths outside both trees stay. *)
Lemma move_tree_outside (p : string) :
  in_tree src p = false -> in_tree dst p = false ->
  move_tree src dst m !! p = m !! p.
Proof.
  intros Hs Hd. unfold move_tree. fold (tree_of src m).
  rewrite lookup_union_r by now apply moved_lookup_free.
  rewrite lookup_delete_ne.
  - now rewrite remove_tree_lookup, Hs.
  - intros <-. rewrite in_tree_refl in Hd. discriminate.
Qed.

(** Nothing is left at the old name and below it. *)
Lemma move_tree_source_gone (p : string) :
  in_tree src dst = false -> in_tree dst src = false ->
  in_tree src p = true ->
  move_tree src dst m !! p = None.
Proof.
  intros Hsd Hds Hp. unfold move_tree. fold (tree_of src m).
  apply lookup_union_None. split.
  - apply moved_lookup_free. now apply (trees_disjoint src dst p).
  - rewrite lookup_delete_ne.
    + now rewrite remove_tree_lookup, Hp.
    + intros <-. congruence.
Qed.

(** The new name holds what the old one held. *)
Lemma move_tree_root :
  os_path_join dst "" <> dst ->
  is_Some (m !! src) ->
  move_tree src dst m !! dst = m !! src.
Proof.
  intros Hsep [x Hx]. unfold move_tree. fold (tree_of src m).
  assert (H : (kmap (rekey src dst) (tree_of src m) : gmap string node)
              !! rekey src dst src = tree_of src m !! src).
  { apply kmap_lookup_only. intros k y Hk Hf.
    apply map_lookup_filter_Some in Hk as [_ Hk]. cbn in Hk.
    apply in_tree_cases in Hk as [-> | [Hne [r ->]]]; [reflexivity |].
    rewrite rekey_root, (rekey_member src dst r Hne) in Hf.
    destruct (String.eqb_spec r "") as [-> | Hr].
    - unfold member in Hf. now rewrite sapp_nil_r in Hf.
    - now apply (member_not_dir dst r) in Hf. }
  rewrite rekey_root, (tree_of_lookup src src m (in_tree_refl src)), Hx in H.
  rewrite Hx. now apply lookup_union_Some_l.
Qed.

(** An entry of the new name holds what the entry of that name of the old
    one held, nothing having been at the new name or below it. *)
Lemma move_tree_member (r : string) :
  r <> "" ->
  (forall p, in_tree dst p = true -> m !! p = None) ->
  move_tree src dst m !! member dst r = m !! member src r.
Proof.
  intros Hr Hfree. unfold move_tree. fold (tree_of src m).
  assert (Hne : member src r <> src) by now apply member_not_dir.
  assert (H : (kmap (rekey src dst) (tree_of src m) : gmap string node)
              !! rekey src dst (member src r) = tree_of src m !! member src r).
  { apply kmap_lookup_only. intros k y Hk Hf.
    apply map_lookup_filter_Some in Hk as [_ Hk]. cbn in Hk.
    rewrite (rekey_member src dst r Hne) in Hf.
    apply in_tree_cases in Hk as [-> | [Hne' [r' ->]]].
    - rewrite rekey_root in Hf. symmetry in Hf.
      now apply (member_not_dir dst r) in Hf.
    - rewrite (rekey_member src dst r' Hne') in Hf.
      now apply member_inj in Hf as ->. }
  rewrite (rekey_member src dst r Hne) in H.
  rewrite (tree_of_lookup src _ m (in_tree_member src r)) in H.
  destruct (m !! member src r) as [x |] eqn:E.
  - now apply lookup_union_Some_l.
  - apply lookup_union_None. split; [exact H |].
    apply lookup_delete_None. right. rewrite remove_tree_lookup.
    destruct (in_tree src (member dst r)); [reflexivity |].
    apply Hfree, in_tree_member.
Qed.

End MoveTree.

(** A name with nothing below it, a file say, moves as one entry. *)
Lemma move_tree_leaf (src dst : string) (m : gmap string node) (x : node) :
  m !! src = Some x ->
  (forall p, under src p = true -> p <> src -> m !! p = None) ->
  move_tree src dst m = <[dst := x]> (delete src m).
Proof.
  intros Hx Hleaf.
  assert (Hdom : forall k y, tree_of src m !! k = Some y -> k = src).
  { intros k y Hk. apply map_lookup_filter_Some in Hk as [Hk Hin]. cbn in Hin.
    destruct (String.eqb_spec k src) as [E | Hne]; [exact E |].
    unfold in_tree in Hin. apply orb_true_iff in Hin as [Hin | Hin].
    - now apply String.eqb_eq in Hin.
    - rewrite (Hleaf k Hin Hne) in Hk. discriminate. }
  apply map_eq. intros p. unfold move_tree. fold (tree_of src m).
  destruct (decide (p = dst)) as [-> | Hne].
  - rewrite lookup_insert_eq. apply lookup_union_Some_l.
    pose proof (kmap_lookup_only (rekey src dst) (tree_of src m) src) as H.
    rewrite rekey_root, (tree_of_lookup src src m (in_tree_refl src)), Hx in H.
    apply H. intros k y Hk _. now apply (Hdom k y).
  - rewrite lookup_insert_ne by congruence.
    rewrite lookup_union_r.
    + rewrite lookup_delete_ne by congruence. rewrite remove_tree_lookup.
      destruct (decide (p = src)) as [-> | Hps].
      * now rewrite in_tree_refl, lookup_delete_eq.
      * rewrite lookup_delete_ne by congruence.
        destruct (in_tree src p) eqn:Hin; [| reflexivity].
        unfold in_tree in Hin. apply orb_true_iff in Hin as [Hin | Hin].
        -- now apply String.eqb_eq in Hin.
        -- symmetry. now apply Hleaf.
    + apply kmap_lookup_free. intros k y Hk E.
      apply Hdom in Hk as ->. rewrite rekey_root in E. congruence.
Qed.

Lemma separator_added (d : string) :
  d <> "" -> ends_with_slash d = false -> os_path_join d "" = d +:+ "/".
Proof.
  intros Hd He. unfold os_path_join. cbn [starts_with_slash].
  rewrite He, orb_false_r.
  destruct (String.eqb_spec d "") as [E | _]; [contradiction | reflexivity].
Qed.

Lemma sapp_not_self (d a : string) : a <> "" -> d +:+ a <> d.
Proof.
  intros Ha E. rewrite <- (sapp_nil_r d) in E at 2.
  now apply String.app_inj in E.
Qed.

Lemma ends_with_slash_sapp (a b : string) :
  b <> "" -> ends_with_slash (a +:+ b) = ends_with_slash b.
Proof.
  intros Hb. induction a as [| c a IH]; [reflexivity |].
  rewrite sapp_cons. cbn [ends_with_slash].
  destruct (a +:+ b) eqn:E; [| exact IH].
  destruct a; [cbn in E; contradiction | discriminate].
Qed.

Lemma no_slash_end (a : string) :
  has_slash a = false -> ends_with_slash a = false.
Proof.
  induction a as [| c a IH]; [reflexivity |]. cbn [has_slash ends_with_slash].
  intros [Hc Ha]%orb_false_iff. destruct a; [exact Hc | now apply IH].
Qed.

(** An entry with a plain name is not its own separator form. *)
Lemma member_separator (d a : string) :
  a <> "" -> has_slash a = false ->
  os_path_join (member d a) "" <> member d a.
Proof.
  intros Ha Hs. rewrite separator_added.
  - now apply sapp_not_self.
  - unfold member. intros E. destruct (os_path_join d ""); [| discriminate].
    now rewrite sapp_nil_l in E.
  - unfold member. rewrite ends_with_slash_sapp by exact Ha.
    now apply no_slash_end.
Qed.

(** ** A checkpoint that is finalized *)

Section FinalizeSuccess.

Variable self : Reverter.
Variable str_float : float -> string.

(** The first line of the notes of a finalized checkpoint. *)
Definition title_line (title : string) : string :=
  "-- " +:+ title +:+ " --" +:+ nl.

(** The [try:] block of [finalize_checkpoint] when nothing is in its way:
    CHANGES_SINCE gets the title as its first line, through a temporary
    file that takes its place. *)
Lemma prepend_title_ok (title old : string) (cmode : Z) (st : state) :
  isdir (fs st) (direc_progress self) = true ->
  fs st !! changes_since_path self = Some (File old cmode) ->
  readable cmode = true ->
  fresh_dir (changes_since_tmp_path self) (fs st) = true ->
  prepend_title self title st
  = (Ok tt,
     set_fs st (<[changes_since_path self
                  := File (title_line title +:+ old) default_mode]> (fs st))).
Proof.
  intros Hdir Hcs Hr Hfresh.
  assert (Htmp : fs st !! changes_since_tmp_path self = None)
    by (eapply fresh_dir_spec; [exact Hfresh | apply in_tree_refl]).
  pose proof (tmp_path_differs self) as Hne.
  unfold prepend_title.
  fold (changes_since_path self) (changes_since_tmp_path self).
  unfold bind at 1. unfold open_w at 1. rewrite Htmp.
  unfold changes_since_tmp_path at 1.
  rewrite parent_ok_join by (reflexivity || exact Hdir).
  fold (changes_since_tmp_path self).
  unfold bind at 1. unfold fd_write at 1. cbn [fs set_fs].
  rewrite lookup_insert_eq.
  unfold bind at 1. unfold read_file at 1. cbn [fs set_fs].
  rewrite !insert_insert_eq.
  rewrite lookup_insert_ne by congruence. rewrite Hcs, Hr.
  unfold bind at 1. unfold fd_write at 1. cbn [fs set_fs].
  rewrite lookup_insert_eq. rewrite !insert_insert_eq.
  rewrite sapp_nil_l. fold (title_line title).
  set (new := File (title_line title +:+ old) default_mode).
  set (m3 := <[changes_since_tmp_path self := new]> (fs st)).
  unfold shutil_move. cbn [fs set_fs].
  assert (Hcs3 : m3 !! changes_since_path self = Some (File old cmode)).
  { unfold m3. now rewrite lookup_insert_ne by congruence. }
  assert (Htmp3 : m3 !! changes_since_tmp_path self = Some new)
    by apply lookup_insert_eq.
  unfold isdir at 1. rewrite Hcs3.
  unfold try_except at 1. rewrite os_rename_ok.
  - cbn [fs set_fs log clock]. unfold set_fs, renamed. cbn [fs log clock].
    destruct (String.eqb_spec (changes_since_tmp_path self)
                (changes_since_path self)) as [E | _]; [contradiction |].
    f_equal. f_equal.
    rewrite (move_tree_leaf _ _ m3 new Htmp3).
    + unfold m3. now rewrite delete_insert_id by exact Htmp.
    + intros p Hp Hpne. unfold m3. rewrite lookup_insert_ne by congruence.
      eapply fresh_dir_spec; [exact Hfresh |].
      unfold in_tree. rewrite Hp. apply orb_true_r.
  - cbn [fs set_fs]. unfold rename_ok.
    destruct (String.eqb_spec (changes_since_tmp_path self)
                (changes_since_path self)) as [E | _]; [contradiction |].
    now rewrite Htmp3, Hcs3.
Qed.

(** The name a checkpoint gets when the first rename goes through. *)
Definition stamped (st : state) : string :=
  os_path_join (direc_backup self) (str_float (clock st)).

(** Neither directory lies in the other. *)
Definition apart (d e : string) : bool :=
  negb (in_tree d e) && negb (in_tree e d).

(** A progress checkpoint with nothing in the way of its finalizing: its
    notes can be read, no CHANGES_SINCE.tmp is there, the backup directory
    is there, the printed time is a name (not empty, no slash) that is
    free in it, and the progress directory and the new one do not lie in
    one another. *)
Definition finalizable (st : state) : bool :=
  isdir (fs st) (direc_progress self)
  && readable_file (fs st) (changes_since_path self)
  && fresh_dir (changes_since_tmp_path self) (fs st)
  && isdir (fs st) (direc_backup self)
  && negb (String.eqb (str_float (clock st)) "")
  && negb (has_slash (str_float (clock st)))
  && fresh_dir (stamped st) (fs st)
  && apart (direc_progress self) (stamped st).

(** The notes of the checkpoint once the title is on them. *)
Definition titled (title : string) (m : gmap string node) : gmap string node :=
  <[changes_since_path self
    := File (title_line title +:+ content_of m (changes_since_path self))
         default_mode]> m.

Lemma changes_since_path_member :
  changes_since_path self = member (direc_progress self) "CHANGES_SINCE".
Proof. unfold changes_since_path. now apply member_join. Qed.

Lemma finalizable_spec (st : state) :
  finalizable st = true ->
  isdir (fs st) (direc_progress self) = true /\
  (exists cmode,
     fs st !! changes_since_path self
     = Some (File (content_of (fs st) (changes_since_path self)) cmode) /\
     readable cmode = true) /\
  fresh_dir (changes_since_tmp_path self) (fs st) = true /\
  isdir (fs st) (direc_backup self) = true /\
  str_float (clock st) <> "" /\
  has_slash (str_float (clock st)) = false /\
  fresh_dir (stamped st) (fs st) = true /\
  in_tree (direc_progress self) (stamped st) = false /\
  in_tree (stamped st) (direc_progress self) = false.
Proof.
  unfold finalizable, apart. rewrite !andb_true_iff, !negb_true_iff.
  intros [[[[[[[H1 H2] H3] H4] H5] H6] H7] [H8 H9]].
  apply String.eqb_neq in H5. repeat split; auto.
  unfold readable_file, content_of in *.
  destruct (fs st !! changes_since_path self) as [[c mode |] |];
    try discriminate.
  eauto.
Qed.

(** The run of [finalize_checkpoint] when nothing is in its way: the
    title goes on the notes and the first rename goes through. *)
Lemma finalize_checkpoint_ok (title : string) (st : state) :
  finalizable st = true ->
  finalize_checkpoint self str_float title st
  = (Ok tt,
     set_fs st (move_tree (direc_progress self) (stamped st)
                  (titled title (fs st)))).
Proof.
  intros (Hdir & (cmode & Hcs & Hr) & Htmp & Hbackup & Hname & Hslash & Hfree
          & Hpd & Hdp)%finalizable_spec.
  set (d := stamped st) in *.
  set (progress := direc_progress self) in *.
  set (cs := changes_since_path self) in *.
  assert (Hcs_mem : cs = member progress "CHANGES_SINCE")
    by apply changes_since_path_member.
  assert (Hcs_tree : in_tree progress cs = true)
    by (rewrite Hcs_mem; apply in_tree_member).
  assert (Hcs_d : in_tree d cs = false)
    by (now apply (trees_disjoint progress d cs)).
  assert (Hm2 : forall p, p <> cs -> titled title (fs st) !! p = fs st !! p).
  { intros p Hp. unfold titled. fold cs. now rewrite lookup_insert_ne by congruence. }
  assert (Hprog2 : titled title (fs st) !! progress = Some Dir).
  { rewrite Hm2.
    - unfold isdir in Hdir.
      now destruct (fs st !! progress) as [[] |].
    - rewrite Hcs_mem. apply not_eq_sym. now apply member_not_dir. }
  assert (Hne : progress <> d).
  { intros E. rewrite <- E, in_tree_refl in Hpd. discriminate. }
  assert (Hrename : rename_ok (titled title (fs st)) progress d = true).
  { unfold rename_ok.
    destruct (String.eqb_spec progress d) as [E | _]; [contradiction |].
    rewrite Hprog2, Hpd, Hm2 by congruence.
    rewrite (fresh_dir_spec d _ d Hfree (in_tree_refl d)). cbn [negb andb].
    unfold d, stamped. apply parent_ok_join; [exact Hslash |].
    unfold isdir in Hbackup |- *. unfold titled. fold cs.
    destruct (decide (cs = direc_backup self)) as [E | Hne'].
    + rewrite <- E, Hcs in Hbackup. discriminate.
    + now rewrite lookup_insert_ne by exact Hne'. }
  unfold finalize_checkpoint. fold progress.
  unfold bind at 1. unfold os_path_isdir at 1. rewrite Hdir. cbn [negb].
  unfold bind at 1. unfold try_except at 1.
  rewrite (prepend_title_ok title _ cmode st Hdir Hcs Hr Htmp).
  fold cs. unfold titled in Hrename. fold cs in Hrename.
  unfold _timestamp_progress_dir. unfold bind at 1. unfold time_time at 1.
  unfold bind at 1. rewrite rename_tries_spec. cbn [clock set_fs fs].
  cbn [candidates List.find]. fold (stamped st). fold d progress.
  rewrite Hrename. cbn [fst ret]. unfold renamed, set_fs. cbn [fs log clock].
  destruct (String.eqb_spec progress d) as [E | _]; [contradiction |].
  reflexivity.
Qed.

(** What the finalized file system holds. *)
Lemma finalized_lookups (title : string) (st : state) :
  finalizable st = true ->
  let m' := move_tree (direc_progress self) (stamped st) (titled title (fs st)) in
  m' !! stamped st = Some Dir /\
  m' !! member (stamped st) "CHANGES_SINCE"
  = Some (File (title_line title +:+ content_of (fs st) (changes_since_path self))
            default_mode) /\
  (forall a, a <> "" -> a <> "CHANGES_SINCE" ->
             m' !! member (stamped st) a
             = fs st !! member (direc_progress self) a) /\
  (forall p, in_tree (direc_progress self) p = true -> m' !! p = None) /\
  (forall p, in_tree (direc_progress self) p = false ->
             in_tree (stamped st) p = false ->
             m' !! p = fs st !! p).
Proof.
  intros (Hdir & (cmode & Hcs & Hr) & Htmp & Hbackup & Hname & Hslash & Hfree
          & Hpd & Hdp)%finalizable_spec.
  cbv zeta.
  set (d := stamped st) in *.
  set (progress := direc_progress self) in *.
  set (cs := changes_since_path self) in *.
  assert (Hd : d = member (direc_backup self) (str_float (clock st))).
  { unfold d, stamped. now apply member_join, no_slash_start. }
  assert (Hcs_mem : cs = member progress "CHANGES_SINCE")
    by apply changes_since_path_member.
  assert (Hcs_tree : in_tree progress cs = true)
    by (rewrite Hcs_mem; apply in_tree_member).
  assert (Hcs_d : in_tree d cs = false)
    by (now apply (trees_disjoint progress d cs)).
  assert (Hm2 : forall p, p <> cs -> titled title (fs st) !! p = fs st !! p).
  { intros p Hp. unfold titled. fold cs. now rewrite lookup_insert_ne by congruence. }
  assert (Hm2_d : forall p, in_tree d p = true -> titled title (fs st) !! p = None).
  { intros p Hp. rewrite Hm2 by congruence. now apply (fresh_dir_spec d). }
  assert (Hprog2 : titled title (fs st) !! progress = Some Dir).
  { rewrite Hm2.
    - unfold isdir in Hdir.
      now destruct (fs st !! progress) as [[] |].
    - rewrite Hcs_mem. apply not_eq_sym. now apply member_not_dir. }
  split; [| split; [| split; [| split]]].
  - rewrite move_tree_root; [exact Hprog2 | | now rewrite Hprog2].
    rewrite Hd. now apply member_separator.
  - rewrite move_tree_member; [| discriminate | exact Hm2_d].
    rewrite <- Hcs_mem. unfold titled. fold cs. apply lookup_insert_eq.
  - intros a Ha Hacs. rewrite move_tree_member; [| exact Ha | exact Hm2_d].
    apply Hm2. rewrite Hcs_mem. intros E%member_inj. contradiction.
  - intros p Hp. now apply move_tree_source_gone.
  - intros p Hp Hq. rewrite move_tree_outside by assumption.
    apply Hm2. intros ->. congruence.
Qed.

(** X16: Finalizing a progress checkpoint moves it, entry by entry, to the
    backup directory under the name the clock gives, with the title as the
    first line of its notes: the call returns and logs nothing; the new
    directory is there; its CHANGES_SINCE is the title line and then the
    old notes; every other entry is what the progress directory had under
    that name; nothing is left at the progress directory or below it; and
    every path outside the two directories is as it was. Nothing is in
    the way of the finalizing: the notes can be read, no
    CHANGES_SINCE.tmp is there, the printed time is a name that is free in
    the backup directory. *)
Theorem finalize_moves_checkpoint (title : string) (st : state) :
  finalizable st = true ->
  exists st',
    finalize_checkpoint self str_float title st = (Ok tt, st') /\
    log st' = log st /\
    fs st' !! stamped st = Some Dir /\
    fs st' !! member (stamped st) "CHANGES_SINCE"
    = Some (File (title_line title
                  +:+ content_of (fs st) (changes_since_path self))
              default_mode) /\
    (forall a, a <> "" -> a <> "CHANGES_SINCE" ->
               fs st' !! member (stamped st) a
               = fs st !! member (direc_progress self) a) /\
    (forall p, in_tree (direc_progress self) p = true -> fs st' !! p = None) /\
    (forall p, in_tree (direc_progress self) p = false ->
               in_tree (stamped st) p = false ->
               fs st' !! p = fs st !! p).
Proof.
  intros Hready. eexists.
  split; [apply (finalize_checkpoint_ok title st Hready) |].
  split; [reflexivity |]. apply (finalized_lookups title st Hready).
Qed.

(** X17: A finalized checkpoint restores what was staged. The files are
    regular files outside the progress directory and outside the backup
    that the process may read and write, and their paths have no line
    break (a path with one does not read back from FILEPATHS, and the
    recovery of the backup would fail). They are staged into a progress
    directory that is not there yet and then changed; the checkpoint is
    finalized, nothing being in the way of that; the files are changed
    again; the recovery of the backup then ends well, gives every staged
    file the content and mode it had before the staging, removes the
    backup, and leaves the other paths alone. Between the calls nothing
    but the class writes below the checkpoint, and the staged files stay
    regular files that may be written. *)
Theorem finalized_backup_restores
    (save_files : list string) (save_notes title : string)
    (st st1 st1' st2' : state) :
  fresh_dir (direc_progress self) (fs st) = true ->
  forallb (stageable (direc_progress self) (fs st)) save_files = true ->
  _add_to_checkpoint_dir (direc_progress self) save_files save_notes st
  = (Ok tt, st1) ->
  tree_of (direc_progress self) (fs st1')
  = tree_of (direc_progress self) (fs st1) ->
  finalizable st1' = true ->
  forallb (fun f => negb (in_tree (stamped st1') f)) save_files = true ->
  tree_of (stamped st1') (fs st2')
  = tree_of (stamped st1')
      (fs (snd (finalize_checkpoint self str_float title st1'))) ->
  forallb (overwritable (fs st2')) save_files = true ->
  exists st3,
    fst (finalize_checkpoint self str_float title st1') = Ok tt /\
    _recover_checkpoint (stamped st1') st2' = (Ok tt, st3) /\
    (forall f, f ∈ save_files -> fs st3 !! f = fs st !! f) /\
    (forall p, in_tree (stamped st1') p = true -> fs st3 !! p = None) /\
    (forall p, in_tree (stamped st1') p = false -> p ∉ save_files ->
               fs st3 !! p = fs st2' !! p).
Proof.
  intros Hfresh Hfiles Estage Htree Hready Hout Htree2 Hedit.
  set (progress := direc_progress self) in *.
  set (d := stamped st1') in *.
  assert (Hst : forall f, f ∈ save_files ->
            line_safe f = true /\ in_tree progress f = false /\
            exists c mode, fs st !! f = Some (File c mode) /\
                           readable mode = true /\ writable mode = true).
  { intros f Hf. eapply stageable_spec, stageable_all; eauto. }
  assert (Hsafe : forallb line_safe save_files = true).
  { apply forallb_forall. intros f Hf%list_elem_of_In. now destruct (Hst f Hf). }
  destruct (staging_fresh progress save_files save_notes st)
    as (st1_ & E & _ & Hfp & Hsnaps & Hnew & _ & _).
  { intros p. now apply fresh_dir_spec. }
  { intros f Hf. destruct (Hst f Hf) as (_ & Ho & c & m & Hl & Hr & _). eauto. }
  rewrite Estage in E. injection E as <-.
  rewrite (finalize_checkpoint_ok title st1' Hready) in Htree2 |- *.
  cbn [fst snd fs set_fs] in Htree2. fold d progress in Htree2.
  destruct (finalized_lookups title st1' Hready) as (Hd & _ & Hmoved & _ & _).
  fold d progress in Hd, Hmoved.
  assert (Hin : forall a, a <> "" -> a <> "CHANGES_SINCE" ->
                          fs st2' !! member d a = fs st1 !! member progress a).
  { intros a Ha Hacs.
    rewrite (tree_of_agree _ _ _ _ Htree2 (in_tree_member d a)).
    rewrite (Hmoved a Ha Hacs).
    apply (tree_of_agree _ _ _ _ Htree), in_tree_member. }
  destruct (recover_restores d (fs st) save_files default_mode st2')
    as (st3 & Erec & _ & Hres & Hgone & Hrest).
  - unfold isdir. rewrite (tree_of_agree _ _ _ _ Htree2 (in_tree_refl d)).
    now rewrite Hd.
  - rewrite filepaths_member, Hin by discriminate.
    now rewrite <- filepaths_member.
  - reflexivity.
  - exact Hsafe.
  - unfold isfile. rewrite new_files_member, Hin by discriminate.
    now rewrite <- new_files_member, Hnew.
  - intros i f Hi.
    assert (Hf : f ∈ save_files) by (eapply list_elem_of_lookup_2, Hi).
    destruct (Hst f Hf) as (_ & _ & Hm).
    split; [| split; [| split; [exact Hm |]]].
    + rewrite forallb_forall in Hout.
      apply negb_true_iff, Hout, list_elem_of_In, Hf.
    + rewrite snapshot_member, Hin.
      * rewrite <- snapshot_member. now apply Hsnaps.
      * intros E. pose proof (tag_ends_with_digit f i) as H.
        rewrite E in H. discriminate.
      * intros E. pose proof (tag_ends_with_digit f i) as H.
        rewrite E in H. discriminate.
    + rewrite forallb_forall in Hedit.
      specialize (Hedit f (proj1 (list_elem_of_In _ _) Hf)).
      unfold overwritable in Hedit.
      destruct (fs st2' !! f) as [[c' m' |] |]; try discriminate. eauto.
  - exists st3. auto.
Qed.

End FinalizeSuccess.

(** ** Viewing the backups *)

(** [reads m]: the file system is, whatever the outcome of [m], as it
    was. *)
Definition reads {A} (m : P A) : Prop :=
  forall out st, fs (snd (snd (m out st))) = fs st.

Lemma reads_pret {A} (a : A) : reads (pret a).
Proof. intros out st. reflexivity. Qed.

Lemma reads_praise {A} (e : exn) : reads (@praise A e).
Proof. intros out st. reflexivity. Qed.

Lemma reads_print (s : string) : reads (print s).
Proof. intros out st. reflexivity. Qed.

Lemma reads_lift {A} (m : M A) : keeps eq m -> reads (lift m).
Proof.
  intros H out st. unfold lift. specialize (H st).
  destruct (m st) as [r st']. cbn [snd] in *. congruence.
Qed.

Lemma reads_pbind {A B} (m : P A) (k : A -> P B) :
  reads m -> (forall a, reads (k a)) -> reads (pbind m k).
Proof.
  intros Hm Hk out st. unfold pbind. specialize (Hm out st).
  destruct (m out st) as [[a | e] [out' st']]; cbn [snd] in *; [| exact Hm].
  now rewrite Hk.
Qed.

Lemma reads_ptry {A} (m : P A) (h : exn -> option (P A)) :
  reads m -> (forall e k, h e = Some k -> reads k) -> reads (ptry m h).
Proof.
  intros Hm Hh out st. unfold ptry. specialize (Hm out st).
  destruct (m out st) as [[a | e] [out' st']]; cbn [snd] in *; [exact Hm |].
  destruct (h e) as [k |] eqn:E; [| exact Hm].
  now rewrite (Hh e k E).
Qed.

Lemma keeps_eq_read_file (p : string) : keeps eq (read_file p).
Proof. apply keeps_reading, read_file_state. Qed.

Lemma keeps_eq_open_r (p : string) : keeps eq (open_r p).
Proof.
  apply keeps_bind; [apply keeps_eq_read_file | intros _; apply keeps_ret].
Qed.

Lemma keeps_eq_listdir (d : string) : keeps eq (os_listdir d).
Proof.
  apply keeps_reading. intros st. unfold os_listdir.
  now destruct (isdir (fs st) d).
Qed.

Section Viewing.

Variable self : Reverter.
Variable float_of_str : string -> option float.
Variable time_ctime : float -> string.
Variable str_err : exn -> string.

Lemma print_paths_reads (filepaths : list string) : reads (print_paths filepaths).
Proof.
  induction filepaths as [| p rest IH]; cbn [print_paths].
  - apply reads_pret.
  - apply reads_pbind; [apply reads_print | intros _; exact IH].
Qed.

Lemma py_float_reads (s : string) : reads (py_float float_of_str s).
Proof.
  unfold py_float. destruct (float_of_str s);
    [apply reads_pret | apply reads_praise].
Qed.

Lemma view_backups_reads (backups : list string) :
  reads (view_backups self float_of_str time_ctime str_err backups).
Proof.
  induction backups as [| b rest IH]; cbn [view_backups].
  - apply reads_pret.
  - apply reads_pbind; [| intros _; exact IH].
    unfold view_backup.
    apply reads_pbind; [apply py_float_reads | intros t].
    apply reads_pbind; [apply reads_print | intros _].
    apply reads_pbind; [apply reads_lift, keeps_eq_read_file | intros c].
    apply reads_pbind; [apply reads_print | intros _].
    apply reads_pbind; [apply reads_print | intros _].
    apply reads_pbind; [apply reads_lift, keeps_eq_read_file | intros c'].
    apply reads_pbind; [apply print_paths_reads | intros _].
    apply reads_pbind; [| intros _; apply reads_print].
    unfold view_new_files. apply reads_ptry.
    + apply reads_pbind; [apply reads_lift; now apply keeps_reading | intros isf].
      destruct isf; [| apply reads_pret].
      apply reads_pbind; [apply reads_lift, keeps_eq_open_r | intros _].
      apply reads_pbind; [apply reads_print | intros _].
      apply reads_pbind; [apply reads_lift, keeps_eq_read_file | intros c''].
      apply print_paths_reads.
    + intros e k Hk.
      assert (k = pbind (lift (logging ERROR (str_err e)))
                    (fun _ => praise
                       (LetsEncryptReverterError
                          ("Unable to read new files in checkpoint- "
                           +:+ os_path_join (direc_backup self) b)))) as ->
        by (destruct e; cbn in Hk; congruence).
      apply reads_pbind; [apply reads_lift, keeps_logging | intros _].
      apply reads_praise.
Qed.

(** X18: Viewing the backups changes no file: however
    [view_config_changes] ends, the file system is as it was. *)
Theorem view_config_changes_reads_only (out : list string) (st : state) :
  fs (snd (snd (view_config_changes self float_of_str time_ctime str_err
                  out st)))
  = fs st.
Proof.
  revert out st.
  change (reads (view_config_changes self float_of_str time_ctime str_err)).
  unfold view_config_changes.
  apply reads_pbind; [apply reads_lift, keeps_eq_listdir | intros backups].
  apply reads_pbind; [| intros _; apply reads_pbind; [| intros _]].
  - destruct (py_sort_reverse backups);
      [apply reads_lift, keeps_logging | apply reads_pret].
  - apply reads_ptry.
    + induction (py_sort_reverse backups) as [| b rest IH]; cbn [check_floats].
      * apply reads_pret.
      * apply reads_pbind; [apply py_float_reads | intros _; exact IH].
    + intros e k Hk. destruct e; cbn in Hk; try discriminate.
      injection Hk as <-. apply reads_praise.
  - apply view_backups_reads.
Qed.

End Viewing.



Section ViewingOutput.

Variable self : Reverter.
Variable float_of_str : string -> option float.
Variable time_ctime : float -> string.
Variable str_err : exn -> string.

(** The backups in the order they are shown. *)
Definition shown_order (m : gmap string node) : list string :=
  py_sort_reverse (entries m (direc_backup self)).

Lemma elem_of_shown_order (m : gmap string node) (name : string) :
  name ∈ shown_order m <-> name ∈ entries m (direc_backup self).
Proof.
  unfold shown_order, py_sort_reverse. rewrite !list_elem_of_In.
  rewrite <- in_rev. split; apply Permutation_in.
  - symmetry. apply py_sort_perm.
  - apply py_sort_perm.
Qed.

Lemma check_floats_spec (backups : list string) (out : list string) (st : state) :
  check_floats float_of_str backups out st
  = if forallb (fun s => bool_decide (is_Some (float_of_str s))) backups
    then (Ok tt, (out, st)) else (Exc ValueError, (out, st)).
Proof.
  induction backups as [| b rest IH]; [reflexivity |].
  cbn [check_floats forallb]. unfold pbind, py_float.
  destruct (float_of_str b) as [t |].
  - rewrite bool_decide_eq_true_2 by eauto. exact IH.
  - rewrite bool_decide_eq_false_2 by (intros [? ?]; discriminate).
    reflexivity.
Qed.

(** X19: A name in the backup directory that is not a number makes the view
    raise the error of the class before anything is printed: the console,
    the log and the file system are as they were. *)
Theorem view_config_changes_rejects_names
    (name : string) (out : list string) (st : state) :
  isdir (fs st) (direc_backup self) = true ->
  name ∈ entries (fs st) (direc_backup self) ->
  float_of_str name = None ->
  view_config_changes self float_of_str time_ctime str_err out st
  = (Exc (LetsEncryptReverterError
            ("Invalid directories in " +:+ direc_backup self)),
     (out, st)).
Proof.
  intros Hdir Hname Hfloat. unfold view_config_changes.
  unfold pbind at 1. unfold lift at 1. unfold os_listdir at 1. rewrite Hdir.
  fold (shown_order (fs st)).
  apply elem_of_shown_order in Hname.
  unfold pbind at 1.
  destruct (shown_order (fs st)) as [| b rest] eqn:E;
    [now apply elem_of_nil in Hname |].
  unfold pret at 1. unfold pbind at 1. unfold ptry at 1.
  rewrite check_floats_spec.
  destruct (forallb _ (b :: rest)) eqn:Hall; [| reflexivity].
  rewrite forallb_forall in Hall.
  specialize (Hall name (proj1 (list_elem_of_In _ _) Hname)).
  apply bool_decide_eq_true in Hall as [t Ht]. congruence.
Qed.









End ViewingOutput.

(** ** Calls that are repeated *)

Section Repeated.

Variable self : Reverter.
Variable str_float : float -> string.

(** X22: [recovery_routine] is idempotent: once it has returned, a second
    call returns too and changes nothing, log included, for neither
    checkpoint directory is there any more. *)
Theorem recovery_routine_idempotent (st st' : state) :
  recovery_routine self st = (Ok tt, st') ->
  recovery_routine self st' = (Ok tt, st').
Proof.
  intros E. unfold recovery_routine in E.
  apply bind_ok_inv in E as ([] & st1 & Etemp & Eprog).
  apply revert_ok_no_dir in Etemp as [Htemp _].
  2:{ intros e k st0 a0 st2 ->%on_reverter_error_inv. discriminate. }
  apply revert_ok_no_dir in Eprog as [Hprog Hdirs].
  2:{ intros e k st0 a0 st2 ->%on_reverter_error_inv. discriminate. }
  assert (Htemp' : isdir (fs st') (direc_temp self) = false).
  { destruct (isdir (fs st') (direc_temp self)) eqn:Hd; [| reflexivity].
    apply Hdirs in Hd. congruence. }
  unfold recovery_routine. unfold bind at 1.
  unfold revert_temporary_config. unfold bind at 1.
  unfold os_path_isdir at 1. rewrite Htemp'. cbn [ret].
  unfold revert_progress. unfold bind at 1.
  unfold os_path_isdir at 1. now rewrite Hprog.
Qed.

(** X23: a checkpoint is promoted once: after a finalizing that went
    through there is no progress directory, and a second
    [finalize_checkpoint], whatever its title, returns without a change:
    no second backup is made and no title added. *)
Theorem finalize_twice_promotes_once (title again : string) (st : state) :
  finalizable self str_float st = true ->
  exists st',
    finalize_checkpoint self str_float title st = (Ok tt, st') /\
    isdir (fs st') (direc_progress self) = false /\
    finalize_checkpoint self str_float again st' = (Ok tt, st').
Proof.
  intros Hready. eexists.
  split; [apply (finalize_checkpoint_ok self str_float title st Hready) |].
  destruct (finalized_lookups self str_float title st Hready)
    as (_ & _ & _ & Hgone & _).
  assert (Hdir : isdir (move_tree (direc_progress self) (stamped self str_float st)
                          (titled self title (fs st)))
                   (direc_progress self) = false).
  { unfold isdir. now rewrite (Hgone _ (in_tree_refl _)). }
  split; [exact Hdir |].
  unfold finalize_checkpoint, bind, os_path_isdir. cbn [fs set_fs].
  now rewrite Hdir.
Qed.

(** X24: a finalizing that fails at the rename has written the title all
    the same: when the notes can be read and each of the ten names is
    taken, [finalize_checkpoint] raises "Unable to finalize checkpoint
    renaming" with the checkpoint still in the progress directory and the
    title line on its notes, so that finalizing again would put a second
    title line above the first. *)
Theorem finalize_stuck_keeps_title (title : string) (st : state) :
  isdir (fs st) (direc_progress self) = true ->
  readable_file (fs st) (changes_since_path self) = true ->
  fresh_dir (changes_since_tmp_path self) (fs st) = true ->
  Forall (fun d => d <> direc_progress self /\
                   taken (titled self title (fs st)) d = true)
         (candidates self str_float 10 (clock st)) ->
  finalize_checkpoint self str_float title st
  = stuck self str_float (set_fs st (titled self title (fs st))).
Proof.
  intros Hdir Hread Htmp Htaken.
  assert (Hcs : exists cmode,
            fs st !! changes_since_path self
            = Some (File (content_of (fs st) (changes_since_path self)) cmode) /\
            readable cmode = true).
  { unfold readable_file, content_of in *.
    destruct (fs st !! changes_since_path self) as [[c mode |] |];
      try discriminate.
    eauto. }
  destruct Hcs as (cmode & Hcs & Hr).
  unfold finalize_checkpoint.
  unfold bind at 1. unfold os_path_isdir at 1. rewrite Hdir. cbn [negb].
  unfold bind at 1. unfold try_except at 1.
  rewrite (prepend_title_ok self title _ cmode st Hdir Hcs Hr Htmp).
  fold (titled self title (fs st)).
  apply timestamp_progress_dir_collisions; [| exact Htaken].
  cbn [fs set_fs]. unfold isdir, titled.
  rewrite lookup_insert_ne; [exact Hdir |].
  rewrite changes_since_path_member. now apply member_not_dir.
Qed.

End Repeated.

(** ** Concrete runs *)

(** A store used for the concrete runs below. *)
Definition store : Reverter :=
  {| direc_backup := "/le/backup";
     direc_temp := "/le/temp";
     direc_progress := "/le/progress" |}.

Definition empty_state : state := State ∅ [] 0%float.


(** The progress checkpoint after one file creation was registered and
    nothing staged: NEW_FILES only. *)
Definition after_registration : state :=
  snd (register_file_creation store false ["/etc/new.conf"] empty_state).

Lemma finalize_without_changes_since_witness :
  isdir (fs after_registration) (direc_progress store) = true /\
  isfile (fs after_registration) (changes_since_path store) = false /\
  exists st',
    finalize_checkpoint store (fun _ => "0.0") "title" after_registration
    = (Exc (LetsEncryptReverterError "Unable to add title"), st') /\
    log st' = (log after_registration
               ++ [(ERROR, "Unable to finalize checkpoint - adding title")])%list /\
    (forall p, p <> changes_since_tmp_path store ->
               fs st' !! p = fs after_registration !! p) /\
    isfile (fs st') (changes_since_path store) = false /\
    isdir (fs st') (direc_progress store) = true.
Proof.
  split; [vm_compute; reflexivity |]. split; [vm_compute; reflexivity |].
  apply (finalize_without_changes_since store (fun _ => "0.0") "title"
           after_registration); vm_compute; reflexivity.
Defined.

(** A small system: two configuration files, one of them with a name that
    has a newline in it. *)
Definition odd_path : string := "/etc/odd" +:+ nl +:+ "name".

Definition etc_state : state :=
  State (list_to_map [("/etc", Dir);
                      ("/etc/a.conf", File "A" 420);
                      ("/etc/b.conf", File "B" 384);
                      (odd_path, File "X" 420)]) [] 0%float.

(** *** Recovery without FILEPATHS *)

(** The temporary checkpoint after one creation was registered: NEW_FILES
    and nothing else. *)
Definition registered_only : state :=
  snd (register_file_creation store true ["/etc/new.conf"] etc_state).

(** Against C1 as stated: without FILEPATHS the recovery raises nothing;
    it returns, and the checkpoint directory is removed. *)
Lemma recover_without_filepaths :
  isdir (fs registered_only) "/le/temp" = true /\
  fs registered_only !! filepaths_of "/le/temp" = None /\
  fst (_recover_checkpoint "/le/temp" registered_only) = Ok tt /\
  fs (snd (_recover_checkpoint "/le/temp" registered_only)) !! "/le/temp" = None.
Proof. vm_compute. repeat split; reflexivity. Qed.

(** A checkpoint whose FILEPATHS has no permission bit set. *)
Definition unreadable_list : state :=
  State (list_to_map [("/le/temp", Dir);
                      ("/le/temp/FILEPATHS", File ("/etc/a.conf" +:+ nl) 0);
                      ("/le/temp/a.conf_0", File "A" 420);
                      ("/etc/a.conf", File "changed" 420)]) [] 0%float.

Lemma recover_filepaths_guard_witness :
  fs unreadable_list !! filepaths_of "/le/temp"
  = Some (File ("/etc/a.conf" +:+ nl) 0) /\
  readable 0 = false /\
  _recover_checkpoint "/le/temp" unreadable_list
  = recovery_refused "/le/temp" unreadable_list.
Proof.
  split; [vm_compute; reflexivity |]. split; [reflexivity |].
  apply (proj1 (recover_filepaths_guard "/le/temp") unreadable_list
               ("/etc/a.conf" +:+ nl) 0).
  - vm_compute. reflexivity.
  - reflexivity.
Defined.

(** *** Deleting what NEW_FILES lists *)




(** The same list file without its permission bits ends the process. *)
Lemma unreadable_new_files_exits :
  fst (_remove_contained_files (new_files_of "/le/temp")
         (set_fs registered_only
            (<[new_files_of "/le/temp" := File ("/etc/new.conf" +:+ nl) 0]>
               (fs registered_only))))
  = Exc (SystemExit 41).
Proof. vm_compute. reflexivity. Qed.

(** *** The guard of the temporary checkpoint *)

(** The temporary checkpoint holds a snapshot of /etc/a.conf. *)
Definition temp_staged : state :=
  snd (add_to_temp_checkpoint store ["/etc/a.conf"] "temporary" etc_state).

Lemma add_to_checkpoint_conflict_witness :
  list_readable (fs temp_staged) (filepaths_of (direc_temp store))
  && list_readable (fs temp_staged) (new_files_of (direc_temp store)) = true /\
  "/etc/a.conf" ∈ ["/etc/b.conf"; "/etc/a.conf"] /\
  "/etc/a.conf" ∈ temp_protected store (fs temp_staged) /\
  exists g,
    List.find (fun p => bool_decide (p ∈ ["/etc/b.conf"; "/etc/a.conf"]))
      (temp_protected store (fs temp_staged)) = Some g /\
    g ∈ ["/etc/b.conf"; "/etc/a.conf"] /\
    g ∈ temp_protected store (fs temp_staged) /\
    add_to_checkpoint store ["/etc/b.conf"; "/etc/a.conf"] "permanent" temp_staged
    = (Exc (LetsEncryptReverterError
              ("Attempting to overwrite challenge file - " +:+ g)),
       temp_staged).
Proof.
  assert (H0 : list_readable (fs temp_staged) (filepaths_of (direc_temp store))
               && list_readable (fs temp_staged)
                    (new_files_of (direc_temp store)) = true)
    by (vm_compute; reflexivity).
  assert (H1 : "/etc/a.conf" ∈ ["/etc/b.conf"; "/etc/a.conf"])
    by (apply (bool_decide_unpack _); vm_compute; exact I).
  assert (H2 : "/etc/a.conf" ∈ temp_protected store (fs temp_staged))
    by (apply (bool_decide_unpack _); vm_compute; exact I).
  repeat (split; [assumption |]).
  exact (proj1 (add_to_checkpoint_conflict store
                  ["/etc/b.conf"; "/etc/a.conf"] "permanent" temp_staged)
           H0 "/etc/a.conf" H1 H2).
Defined.

(** The temporary checkpoint of /etc/a.conf with a NEW_FILES that has no
    permission bit set. *)
Definition temp_registry_locked : state :=
  set_fs temp_staged (<["/le/temp/NEW_FILES" := File "" 0]> (fs temp_staged)).

(** The file with a newline in its name, staged in the temporary
    checkpoint. *)
Definition odd_temp_staged : state :=
  snd (add_to_temp_checkpoint store [odd_path] "temporary" etc_state).

(** Against C3 as stated, twice. A path that FILEPATHS of the temporary
    checkpoint lists is requested while NEW_FILES cannot be read: the call
    ends with [IOError], not with the error of the class. And a path with
    a line break, staged in the temporary checkpoint, reads back as two
    other lines: the guard lets it through, the call returns, and the
    file is copied and listed in the progress checkpoint. *)
Lemma conflict_goes_unreported :
  ("/etc/a.conf" ∈ lines_of (fs temp_registry_locked)
                     (filepaths_of (direc_temp store)) /\
   add_to_checkpoint store ["/etc/a.conf"] "permanent" temp_registry_locked
   = (Exc IOError, temp_registry_locked)) /\
  (add_to_temp_checkpoint store [odd_path] "temporary" etc_state
   = (Ok tt, odd_temp_staged) /\
   temp_protected store (fs odd_temp_staged) = ["/etc/odd"; "name"] /\
   fst (add_to_checkpoint store [odd_path] "permanent" odd_temp_staged) = Ok tt /\
   fs (snd (add_to_checkpoint store [odd_path] "permanent" odd_temp_staged))
     !! snapshot_path (direc_progress store) odd_path 0
   = Some (File "X" 420) /\
   fs (snd (add_to_checkpoint store [odd_path] "permanent" odd_temp_staged))
     !! filepaths_of (direc_progress store)
   = Some (File (odd_path +:+ nl) 420)).
Proof.
  split; [split |].
  - apply (bool_decide_unpack _). vm_compute. exact I.
  - vm_compute. reflexivity.
  - vm_compute. repeat split; reflexivity.
Qed.

(** *** Staging twice *)

Definition staged_once : state :=
  snd (_add_to_checkpoint_dir "/le/progress" ["/etc/a.conf"; "/etc/b.conf"]
         "first" etc_state).

Lemma staging_again_only_adds_note_witness :
  list_terminated (fs etc_state) (filepaths_of "/le/progress") = true /\
  _add_to_checkpoint_dir "/le/progress" ["/etc/a.conf"; "/etc/b.conf"]
    "first" etc_state = (Ok tt, staged_once) /\
  "/etc/b.conf" ∈ ["/etc/a.conf"; "/etc/b.conf"] /\
  line_safe "/etc/b.conf" = true /\
  exists old cmode,
    fs staged_once !! changes_since_of "/le/progress" = Some (File old cmode) /\
    _add_to_checkpoint_dir "/le/progress" ["/etc/b.conf"] "second" staged_once
    = (Ok tt,
       {| fs := <[changes_since_of "/le/progress" := File (old +:+ "second") cmode]>
                  (fs staged_once);
          log := log staged_once;
          clock := clock staged_once |}).
Proof.
  assert (H1 : list_terminated (fs etc_state) (filepaths_of "/le/progress") = true)
    by (vm_compute; reflexivity).
  assert (H2 : _add_to_checkpoint_dir "/le/progress" ["/etc/a.conf"; "/etc/b.conf"]
                 "first" etc_state = (Ok tt, staged_once))
    by (vm_compute; reflexivity).
  assert (H3 : "/etc/b.conf" ∈ ["/etc/a.conf"; "/etc/b.conf"])
    by (apply (bool_decide_unpack _); vm_compute; exact I).
  assert (H4 : line_safe "/etc/b.conf" = true) by reflexivity.
  repeat (split; [assumption |]).
  exact (staging_again_only_adds_note "/le/progress"
           ["/etc/a.conf"; "/etc/b.conf"] "first" "second" "/etc/b.conf"
           etc_state staged_once H1 H2 H3 H4).
Defined.

(** The file with a newline in its name, staged once and then again. *)
Definition odd_staged_once : state :=
  snd (_add_to_checkpoint_dir "/le/progress" [odd_path] "first" etc_state).
Definition odd_staged_twice : state :=
  snd (_add_to_checkpoint_dir "/le/progress" [odd_path] "second" odd_staged_once).

(** Against C4 as stated: a path with a line break in it is not found
    among the lines of FILEPATHS, so the second call copies the file
    again, to a new snapshot, and lists the path a second time. *)
Lemma restaging_line_break_path :
  _add_to_checkpoint_dir "/le/progress" [odd_path] "first" etc_state
  = (Ok tt, odd_staged_once) /\
  fst (_add_to_checkpoint_dir "/le/progress" [odd_path] "second" odd_staged_once)
  = Ok tt /\
  fs odd_staged_once !! filepaths_of "/le/progress"
  = Some (File (lines_text [odd_path]) default_mode) /\
  fs odd_staged_twice !! filepaths_of "/le/progress"
  = Some (File (lines_text [odd_path; odd_path]) default_mode) /\
  fs odd_staged_once !! snapshot_path "/le/progress" odd_path 2 = None /\
  fs odd_staged_twice !! snapshot_path "/le/progress" odd_path 2
  = Some (File "X" 420).
Proof. vm_compute. repeat split; reflexivity. Qed.

(** *** Staging and recovering *)

Lemma stage_then_recover_witness :
  fresh_dir "/le/temp" (fs etc_state) = true /\
  forallb (stageable "/le/temp" (fs etc_state)) ["/etc/b.conf"; "/etc/a.conf"] = true /\
  exists st1 st2,
    _add_to_checkpoint_dir "/le/temp" ["/etc/b.conf"; "/etc/a.conf"] "note" etc_state
    = (Ok tt, st1) /\
    _recover_checkpoint "/le/temp" st1 = (Ok tt, st2) /\
    (forall f, f ∈ ["/etc/b.conf"; "/etc/a.conf"] ->
               fs st2 !! f = fs etc_state !! f) /\
    fs st2 !! "/le/temp" = None /\
    fs st2 = fs etc_state.
Proof.
  assert (H2 : fresh_dir "/le/temp" (fs etc_state) = true)
    by (vm_compute; reflexivity).
  assert (H3 : forallb (stageable "/le/temp" (fs etc_state))
                 ["/etc/b.conf"; "/etc/a.conf"] = true)
    by (vm_compute; reflexivity).
  repeat (split; [assumption |]).
  exact (stage_then_recover "/le/temp" ["/etc/b.conf"; "/etc/a.conf"] "note"
           etc_state H2 H3).
Defined.

(** The same with the directory spelled with a slash at its end. *)
Lemma stage_then_recover_slash :
  exists st1 st2,
    _add_to_checkpoint_dir "/le/temp/" ["/etc/b.conf"; "/etc/a.conf"] "note" etc_state
    = (Ok tt, st1) /\
    _recover_checkpoint "/le/temp/" st1 = (Ok tt, st2) /\
    fs st1 !! "/le/temp/b.conf_0" = Some (File "B" 384) /\
    fs st2 = fs etc_state.
Proof.
  exists (snd (_add_to_checkpoint_dir "/le/temp/"
                 ["/etc/b.conf"; "/etc/a.conf"] "note" etc_state)).
  exists (snd (_recover_checkpoint "/le/temp/"
                 (snd (_add_to_checkpoint_dir "/le/temp/"
                         ["/etc/b.conf"; "/etc/a.conf"] "note" etc_state)))).
  vm_compute. repeat split; reflexivity.
Qed.

(** Against C5 as stated: the file with a newline in its name is staged,
    but FILEPATHS then reads as two paths; the recovery finds no snapshot
    for the first of them and raises, and the checkpoint directory
    stays. *)
Lemma round_trip_line_break_path :
  _add_to_checkpoint_dir "/le/temp" [odd_path] "note" etc_state
  = (Ok tt, snd (_add_to_checkpoint_dir "/le/temp" [odd_path] "note" etc_state)) /\
  fst (_recover_checkpoint "/le/temp"
         (snd (_add_to_checkpoint_dir "/le/temp" [odd_path] "note" etc_state)))
  = Exc (LetsEncryptReverterError "Unable to recover files from /le/temp") /\
  isdir (fs (snd (_recover_checkpoint "/le/temp"
                    (snd (_add_to_checkpoint_dir "/le/temp" [odd_path] "note"
                            etc_state))))) "/le/temp" = true.
Proof. vm_compute. repeat split; reflexivity. Qed.

(** *** Rolling back *)

(** Three backups: the first and the third saved /etc/a.conf, the second
    /etc/b.conf, and the third registered /etc/c.conf as new. *)
Definition backups_state : state :=
  State (list_to_map
           [("/le/backup", Dir);
            ("/le/backup/100.0", Dir);
            ("/le/backup/100.0/FILEPATHS", File ("/etc/a.conf" +:+ nl) 420);
            ("/le/backup/100.0/a.conf_0", File "a, at first" 420);
            ("/le/backup/100.0/CHANGES_SINCE", File "first" 420);
            ("/le/backup/200.0", Dir);
            ("/le/backup/200.0/FILEPATHS", File ("/etc/b.conf" +:+ nl) 420);
            ("/le/backup/200.0/b.conf_0", File "b, at first" 384);
            ("/le/backup/200.0/CHANGES_SINCE", File "second" 420);
            ("/le/backup/300.0", Dir);
            ("/le/backup/300.0/FILEPATHS", File ("/etc/a.conf" +:+ nl) 420);
            ("/le/backup/300.0/a.conf_0", File "a, later" 420);
            ("/le/backup/300.0/NEW_FILES", File ("/etc/c.conf" +:+ nl) 420);
            ("/le/backup/300.0/CHANGES_SINCE", File "third" 420);
            ("/etc", Dir);
            ("/etc/a.conf", File "a, now" 420);
            ("/etc/b.conf", File "b, now" 420);
            ("/etc/c.conf", File "c" 420)]) [] 0%float.

Definition rolled_back : state :=
  snd (rollback_checkpoints store (PyStr "5") backups_state).

Ltac revert_step :=
  lazymatch goal with
  | |- reverts ?self (?n :: ?r) ?st ?st' =>
      apply (reverts_cons self n r st
               (snd (_recover_checkpoint (os_path_join (direc_backup self) n) st))
               st');
      [vm_compute; reflexivity |]
  end.


(** What that rollback leaves: both files as the oldest backups had them,
    the new file deleted, no backup left, and the remark on the two
    backups that were missing. *)
Lemma rollback_five_of_three :
  fs rolled_back
  = list_to_map [("/le/backup", Dir);
                 ("/etc", Dir);
                 ("/etc/a.conf", File "a, at first" 420);
                 ("/etc/b.conf", File "b, at first" 384)] /\
  log rolled_back
  = [(ERROR, "Unable to rollback 5 checkpoints, only 3 exist")].
Proof. vm_compute. split; reflexivity. Qed.

(** One step back undoes the newest backup only. *)
Lemma rollback_one_of_three :
  fst (rollback_checkpoints store (PyInt 1) backups_state) = Ok tt /\
  sorted_backups store
    (fs (snd (rollback_checkpoints store (PyInt 1) backups_state)))
  = ["100.0"; "200.0"] /\
  fs (snd (rollback_checkpoints store (PyInt 1) backups_state)) !! "/etc/a.conf"
  = Some (File "a, later" 420) /\
  fs (snd (rollback_checkpoints store (PyInt 1) backups_state)) !! "/etc/b.conf"
  = Some (File "b, now" 420) /\
  fs (snd (rollback_checkpoints store (PyInt 1) backups_state)) !! "/etc/c.conf"
  = None.
Proof. vm_compute. repeat split; reflexivity. Qed.

Lemma rollback_zero_is_noop :
  rollback_checkpoints store (PyInt 0) backups_state = (Ok tt, backups_state).
Proof. vm_compute. reflexivity. Qed.

(** *** Finalizing *)

(** A clock whose readings all print alike, so that every retry meets the
    same name. *)
Definition stopped_clock (t : float) : string := "1416000000.0".

(** A progress checkpoint, and a backup that has the name the clock gives. *)
Definition collision_state : state :=
  State (list_to_map
           [("/le/backup", Dir);
            ("/le/backup/1416000000.0", Dir);
            ("/le/backup/1416000000.0/CHANGES_SINCE", File "earlier" 420);
            ("/le/progress", Dir);
            ("/le/progress/FILEPATHS", File ("/etc/a.conf" +:+ nl) 420);
            ("/le/progress/a.conf_0", File "A" 420);
            ("/le/progress/CHANGES_SINCE", File "notes" 420)]) [] 0%float.

Lemma ten_collisions :
  _timestamp_progress_dir store stopped_clock collision_state
  = stuck store stopped_clock collision_state /\
  fs (snd (_timestamp_progress_dir store stopped_clock collision_state))
  = fs collision_state.
Proof.
  assert (E : _timestamp_progress_dir store stopped_clock collision_state
              = stuck store stopped_clock collision_state).
  { apply timestamp_progress_dir_collisions; [vm_compute; reflexivity |].
    repeat constructor; (discriminate || (vm_compute; reflexivity)). }
  split; [exact E | now rewrite E].
Qed.

(** With a free name the checkpoint becomes a backup, notes under their
    title. *)
Definition free_clock (t : float) : string := "1416000001.0".

Lemma finalize_promotes :
  fst (finalize_checkpoint store free_clock "title" collision_state) = Ok tt /\
  fs (snd (finalize_checkpoint store free_clock "title" collision_state))
  = list_to_map
      [("/le/backup", Dir);
       ("/le/backup/1416000000.0", Dir);
       ("/le/backup/1416000000.0/CHANGES_SINCE", File "earlier" 420);
       ("/le/backup/1416000001.0", Dir);
       ("/le/backup/1416000001.0/FILEPATHS", File ("/etc/a.conf" +:+ nl) 420);
       ("/le/backup/1416000001.0/a.conf_0", File "A" 420);
       ("/le/backup/1416000001.0/CHANGES_SINCE",
        File ("-- title --" +:+ nl +:+ "notes") 420)].
Proof. vm_compute. split; reflexivity. Qed.

(** *** Recovery at start *)

(** /etc/a.conf was staged for the progress checkpoint, changed, staged for
    the temporary checkpoint and changed again. *)
Definition edit (p content : string) (st : state) : state :=
  set_fs st (<[p := File content 420]> (fs st)).

Definition interrupted : state :=
  edit "/etc/a.conf" "third text"
    (snd (add_to_temp_checkpoint store ["/etc/a.conf"] "temporary"
       (edit "/etc/a.conf" "second text"
          (snd (add_to_checkpoint store ["/etc/a.conf"] "permanent" etc_state))))).

(** Temp first, then Progress: the file ends with what it held before
    either checkpoint. *)
Lemma recovery_routine_restores :
  fst (recovery_routine store interrupted) = Ok tt /\
  fs (snd (revert_temporary_config store interrupted)) !! "/etc/a.conf"
  = Some (File "second text" 420) /\
  fs (snd (recovery_routine store interrupted)) = fs etc_state.
Proof. vm_compute. repeat split; reflexivity. Qed.

(** The same, with the snapshot of the temporary checkpoint lost: the
    routine raises and the progress checkpoint is as it was. *)
Definition interrupted_broken : state :=
  set_fs interrupted (delete "/le/temp/a.conf_0" (fs interrupted)).


Lemma recovery_routine_halts :
  fst (recovery_routine store interrupted_broken)
  = Exc (LetsEncryptReverterError "Unable to revert temporary config") /\
  isdir (fs (snd (recovery_routine store interrupted_broken))) "/le/progress"
  = true /\
  filter (fun kv => in_tree "/le/progress" kv.1 = true)
         (fs (snd (recovery_routine store interrupted_broken)))
  = filter (fun kv => in_tree "/le/progress" kv.1 = true) (fs interrupted_broken).
Proof. vm_compute. repeat split; reflexivity. Qed.

(** *** Staging into a checkpoint that is there *)

Lemma staging_outside_untouched_witness :
  in_tree "/le/temp" "/etc/a.conf" = false /\
  fs (snd (_add_to_checkpoint_dir "/le/temp" ["/etc/a.conf"] "note" etc_state))
    !! "/etc/a.conf"
  = fs etc_state !! "/etc/a.conf".
Proof.
  assert (H1 : in_tree "/le/temp" "/etc/a.conf" = false) by reflexivity.
  split; [exact H1 |].
  exact (staging_outside_untouched "/le/temp" ["/etc/a.conf"] "note" etc_state
           "/etc/a.conf" H1).
Defined.

(** The temporary checkpoint of /etc/a.conf, then a second request that
    names /etc/b.conf as well. *)
Definition temp_staged_more : state :=
  snd (_add_to_checkpoint_dir "/le/temp" ["/etc/b.conf"; "/etc/a.conf"]
         "more" temp_staged).

Lemma staging_list_append_only_witness :
  list_terminated (fs temp_staged) (filepaths_of "/le/temp") = true /\
  forallb line_safe ["/etc/b.conf"; "/etc/a.conf"] = true /\
  _add_to_checkpoint_dir "/le/temp" ["/etc/b.conf"; "/etc/a.conf"] "more"
    temp_staged = (Ok tt, temp_staged_more) /\
  listed "/le/temp" (fs temp_staged_more)
  = listed "/le/temp" (fs temp_staged)
    ++ unlisted (listed "/le/temp" (fs temp_staged))
         ["/etc/b.conf"; "/etc/a.conf"].
Proof.
  assert (H1 : list_terminated (fs temp_staged) (filepaths_of "/le/temp") = true)
    by (vm_compute; reflexivity).
  assert (H2 : forallb line_safe ["/etc/b.conf"; "/etc/a.conf"] = true)
    by reflexivity.
  assert (H3 : _add_to_checkpoint_dir "/le/temp" ["/etc/b.conf"; "/etc/a.conf"]
                 "more" temp_staged = (Ok tt, temp_staged_more))
    by (vm_compute; reflexivity).
  repeat (split; [assumption |]).
  exact (proj1 (staging_list_append_only "/le/temp"
                  ["/etc/b.conf"; "/etc/a.conf"] "more"
                  temp_staged temp_staged_more H1 H2 H3)).
Defined.

Lemma staging_snapshot_slots_witness :
  no_subdirs "/le/temp" (fs temp_staged) = true /\
  forallb (fun f => negb (in_tree "/le/temp" f))
    ["/etc/b.conf"; "/etc/a.conf"] = true /\
  _add_to_checkpoint_dir "/le/temp" ["/etc/b.conf"; "/etc/a.conf"] "more"
    temp_staged = (Ok tt, temp_staged_more) /\
  unlisted (listed "/le/temp" (fs temp_staged)) ["/etc/b.conf"; "/etc/a.conf"]
    !! 0%nat = Some "/etc/b.conf" /\
  fs temp_staged_more
    !! snapshot_path "/le/temp" "/etc/b.conf"
         (length (listed "/le/temp" (fs temp_staged)) + 0)
  = fs temp_staged !! "/etc/b.conf".
Proof.
  assert (H1 : no_subdirs "/le/temp" (fs temp_staged) = true)
    by (vm_compute; reflexivity).
  assert (H2 : forallb (fun f => negb (in_tree "/le/temp" f))
                 ["/etc/b.conf"; "/etc/a.conf"] = true) by reflexivity.
  assert (H3 : _add_to_checkpoint_dir "/le/temp" ["/etc/b.conf"; "/etc/a.conf"]
                 "more" temp_staged = (Ok tt, temp_staged_more))
    by (vm_compute; reflexivity).
  assert (H4 : unlisted (listed "/le/temp" (fs temp_staged))
                 ["/etc/b.conf"; "/etc/a.conf"] !! 0%nat = Some "/etc/b.conf")
    by (vm_compute; reflexivity).
  repeat (split; [assumption |]).
  exact (proj1 (staging_snapshot_slots "/le/temp"
                  ["/etc/b.conf"; "/etc/a.conf"] "more"
                  temp_staged temp_staged_more H1 H2 H3) 0%nat "/etc/b.conf" H4).
Defined.

(** What that checkpoint holds: the second path listed after the first,
    its snapshot in slot 1, the first snapshot as it was. *)
Lemma temp_staged_more_holds :
  listed "/le/temp" (fs temp_staged_more) = ["/etc/a.conf"; "/etc/b.conf"] /\
  fs temp_staged_more !! "/le/temp/b.conf_1" = Some (File "B" 384) /\
  fs temp_staged_more !! "/le/temp/a.conf_0" = Some (File "A" 420) /\
  fs temp_staged_more !! "/le/temp/CHANGES_SINCE"
  = Some (File "temporarymore" 420).
Proof. vm_compute. repeat split; reflexivity. Qed.

(** *** The oldest copy wins *)

(** /etc/a.conf staged, changed, staged again and changed again. *)
Definition staged_and_edited : state :=
  edit "/etc/a.conf" "second text" temp_staged.

Definition restaged_and_edited : state :=
  edit "/etc/a.conf" "third text"
    (snd (_add_to_checkpoint_dir "/le/temp" ["/etc/a.conf"] "again"
            staged_and_edited)).

Lemma first_staging_wins_witness :
  fresh_dir "/le/temp" (fs etc_state) = true /\
  forallb (stageable "/le/temp" (fs etc_state)) ["/etc/a.conf"] = true /\
  _add_to_checkpoint_dir "/le/temp" ["/etc/a.conf"] "temporary" etc_state
  = (Ok tt, temp_staged) /\
  tree_of "/le/temp" (fs staged_and_edited) = tree_of "/le/temp" (fs temp_staged) /\
  ["/etc/a.conf"] ⊆ ["/etc/a.conf"] /\
  tree_of "/le/temp" (fs restaged_and_edited)
  = tree_of "/le/temp"
      (fs (snd (_add_to_checkpoint_dir "/le/temp" ["/etc/a.conf"] "again"
                  staged_and_edited))) /\
  forallb (overwritable (fs restaged_and_edited)) ["/etc/a.conf"] = true /\
  exists st3,
    fst (_add_to_checkpoint_dir "/le/temp" ["/etc/a.conf"] "again"
           staged_and_edited) = Ok tt /\
    _recover_checkpoint "/le/temp" restaged_and_edited = (Ok tt, st3) /\
    (forall f, f ∈ ["/etc/a.conf"] -> fs st3 !! f = fs etc_state !! f) /\
    (forall p, in_tree "/le/temp" p = true -> fs st3 !! p = None) /\
    (forall p, in_tree "/le/temp" p = false -> p ∉ ["/etc/a.conf"] ->
               fs st3 !! p = fs restaged_and_edited !! p).
Proof.
  assert (H1 : fresh_dir "/le/temp" (fs etc_state) = true)
    by (vm_compute; reflexivity).
  assert (H2 : forallb (stageable "/le/temp" (fs etc_state)) ["/etc/a.conf"]
               = true) by (vm_compute; reflexivity).
  assert (H3 : _add_to_checkpoint_dir "/le/temp" ["/etc/a.conf"] "temporary"
                 etc_state = (Ok tt, temp_staged)) by (vm_compute; reflexivity).
  assert (H4 : tree_of "/le/temp" (fs staged_and_edited)
               = tree_of "/le/temp" (fs temp_staged))
    by (vm_compute; reflexivity).
  assert (H5 : ["/etc/a.conf"] ⊆ ["/etc/a.conf"]) by reflexivity.
  assert (H6 : tree_of "/le/temp" (fs restaged_and_edited)
               = tree_of "/le/temp"
                   (fs (snd (_add_to_checkpoint_dir "/le/temp" ["/etc/a.conf"]
                               "again" staged_and_edited))))
    by (vm_compute; reflexivity).
  assert (H7 : forallb (overwritable (fs restaged_and_edited)) ["/etc/a.conf"]
               = true) by (vm_compute; reflexivity).
  repeat (split; [assumption |]).
  exact (first_staging_wins "/le/temp" ["/etc/a.conf"] ["/etc/a.conf"]
           "temporary" "again" etc_state temp_staged staged_and_edited
           restaged_and_edited H1 H2 H3 H4 H5 H6 H7).
Defined.

(** The file is back to its first text, not to the second. *)
Lemma restaged_recovers_first_text :
  fs restaged_and_edited !! "/etc/a.conf" = Some (File "third text" 420) /\
  fs (snd (_recover_checkpoint "/le/temp" restaged_and_edited)) = fs etc_state.
Proof. vm_compute. split; reflexivity. Qed.

(** *** Registered files *)



(** A temporary checkpoint whose NEW_FILES may only be read. *)
Definition readonly_registry : state :=
  State (list_to_map [("/le/temp", Dir);
                      ("/le/temp/NEW_FILES", File "" 292)]) [] 0%float.

Lemma registration_failure_is_silent_witness :
  isdir (fs readonly_registry) (registry_dir store true) = true /\
  lexists (fs readonly_registry) (new_files_of (registry_dir store true)) = true /\
  overwritable (fs readonly_registry) (new_files_of (registry_dir store true))
  = false /\
  register_file_creation store true ["/etc/new.conf"] readonly_registry
  = (Ok tt,
     {| fs := fs readonly_registry;
        log := log readonly_registry
               ++ [(ERROR, "ERROR: Unable to register file creation")];
        clock := clock readonly_registry |}).
Proof.
  assert (H1 : isdir (fs readonly_registry) (registry_dir store true) = true)
    by (vm_compute; reflexivity).
  assert (H2 : lexists (fs readonly_registry)
                 (new_files_of (registry_dir store true)) = true)
    by (vm_compute; reflexivity).
  assert (H3 : overwritable (fs readonly_registry)
                 (new_files_of (registry_dir store true)) = false)
    by (vm_compute; reflexivity).
  repeat (split; [assumption |]).
  exact (registration_failure_is_silent store true ["/etc/new.conf"]
           readonly_registry H1 H2 H3).
Defined.

(** The registry of before, and one more file registered in it. *)
Lemma registration_appends_witness :
  isdir (fs registered_only) (registry_dir store true) = true /\
  overwritable (fs registered_only) (new_files_of (registry_dir store true))
  = true /\
  list_terminated (fs registered_only) (new_files_of (registry_dir store true))
  = true /\
  forallb line_safe ["/etc/other.conf"; "/etc/new.conf"] = true /\
  exists st',
    register_file_creation store true ["/etc/other.conf"; "/etc/new.conf"]
      registered_only = (Ok tt, st') /\
    log st' = log registered_only /\
    lines_of (fs st') (new_files_of (registry_dir store true))
    = lines_of (fs registered_only) (new_files_of (registry_dir store true))
      ++ ["/etc/other.conf"; "/etc/new.conf"] /\
    (forall p, p <> new_files_of (registry_dir store true) ->
               fs st' !! p = fs registered_only !! p).
Proof.
  assert (H1 : isdir (fs registered_only) (registry_dir store true) = true)
    by (vm_compute; reflexivity).
  assert (H2 : overwritable (fs registered_only)
                 (new_files_of (registry_dir store true)) = true)
    by (vm_compute; reflexivity).
  assert (H3 : list_terminated (fs registered_only)
                 (new_files_of (registry_dir store true)) = true)
    by (vm_compute; reflexivity).
  assert (H4 : forallb line_safe ["/etc/other.conf"; "/etc/new.conf"] = true)
    by reflexivity.
  repeat (split; [assumption |]).
  exact (registration_appends store true ["/etc/other.conf"; "/etc/new.conf"]
           registered_only H1 H2 H3 H4).
Defined.

(** *** What a recovery ends with *)

Lemma recover_makes_no_directory_witness :
  isdir (fs (snd (_recover_checkpoint "/le/temp" temp_staged))) "/etc" = true /\
  isdir (fs temp_staged) "/etc" = true.
Proof.
  assert (H1 : isdir (fs (snd (_recover_checkpoint "/le/temp" temp_staged)))
                 "/etc" = true) by (vm_compute; reflexivity).
  split; [exact H1 |].
  exact (recover_makes_no_directory "/le/temp" temp_staged "/etc" H1).
Defined.

Lemma recovery_routine_clears_store_witness :
  recovery_routine store interrupted
  = (Ok tt, snd (recovery_routine store interrupted)) /\
  isdir (fs (snd (recovery_routine store interrupted))) (direc_temp store)
  = false /\
  isdir (fs (snd (recovery_routine store interrupted))) (direc_progress store)
  = false.
Proof.
  assert (H1 : recovery_routine store interrupted
               = (Ok tt, snd (recovery_routine store interrupted)))
    by (vm_compute; reflexivity).
  split; [exact H1 |].
  exact (recovery_routine_clears_store store interrupted _ H1).
Defined.



(** A listed path that is the checkpoint directory itself: its snapshot is
    copied into that directory, onto itself, which [shutil.copy2] refuses
    with an error that no caller catches. *)
Definition self_listed : state :=
  State (list_to_map [("/le/temp", Dir);
                      ("/le/temp/FILEPATHS", File ("/le/temp" +:+ nl) 420);
                      ("/le/temp/temp_0", File "copy" 420)]) [] 0%float.

Lemma shutil_error_escapes :
  fst (revert_temporary_config store self_listed) = Exc ShutilError /\
  fst (recovery_routine store self_listed) = Exc ShutilError.
Proof. vm_compute. split; reflexivity. Qed.

(** *** A rollback that fails *)

(** The backups of before, the middle one without its snapshot. *)
Definition backups_broken : state :=
  set_fs backups_state (delete "/le/backup/200.0/b.conf_0" (fs backups_state)).

Definition newest_reverted : state :=
  snd (_recover_checkpoint "/le/backup/300.0" backups_broken).

Lemma rollback_stops_at_first_failure_witness :
  int_value (PyInt 3) = Some (Z.of_nat 3) /\
  isdir (fs backups_broken) (direc_backup store) = true /\
  take 3 (rev (sorted_backups store (fs backups_broken)))
  = (["300.0"] ++ "200.0" :: ["100.0"])%list /\
  reverts store ["300.0"] (shortfall_logged store 3 backups_broken)
    newest_reverted /\
  _recover_checkpoint (os_path_join (direc_backup store) "200.0") newest_reverted
  = (Exc (LetsEncryptReverterError
            "Unable to recover files from /le/backup/200.0"),
     snd (_recover_checkpoint "/le/backup/200.0" newest_reverted)) /\
  rollback_checkpoints store (PyInt 3) backups_broken
  = rollback_failure
      (LetsEncryptReverterError "Unable to recover files from /le/backup/200.0")
      (snd (_recover_checkpoint "/le/backup/200.0" newest_reverted)).
Proof.
  assert (H1 : int_value (PyInt 3) = Some (Z.of_nat 3)) by reflexivity.
  assert (H2 : isdir (fs backups_broken) (direc_backup store) = true)
    by (vm_compute; reflexivity).
  assert (H3 : take 3 (rev (sorted_backups store (fs backups_broken)))
               = (["300.0"] ++ "200.0" :: ["100.0"])%list) by (vm_compute; reflexivity).
  assert (H4 : reverts store ["300.0"] (shortfall_logged store 3 backups_broken)
                 newest_reverted).
  { revert_step. vm_compute. apply reverts_nil. }
  assert (H5 : _recover_checkpoint (os_path_join (direc_backup store) "200.0")
                 newest_reverted
               = (Exc (LetsEncryptReverterError
                         "Unable to recover files from /le/backup/200.0"),
                  snd (_recover_checkpoint "/le/backup/200.0" newest_reverted)))
    by (vm_compute; reflexivity).
  repeat (split; [assumption |]).
  exact (rollback_stops_at_first_failure store (PyInt 3) 3 ["300.0"] ["100.0"]
           "200.0" _ backups_broken newest_reverted _ H1 H2 H3 H4 H5).
Defined.

(** The newest backup is reverted and gone, the oldest is still there. *)
Lemma rollback_broken_middle :
  fst (rollback_checkpoints store (PyInt 3) backups_broken)
  = Exc (LetsEncryptReverterError "Unable to load checkpoint during rollback") /\
  sorted_backups store
    (fs (snd (rollback_checkpoints store (PyInt 3) backups_broken)))
  = ["100.0"; "200.0"] /\
  fs (snd (rollback_checkpoints store (PyInt 3) backups_broken)) !! "/etc/a.conf"
  = Some (File "a, later" 420).
Proof. vm_compute. repeat split; reflexivity. Qed.

Lemma rollback_without_backup_dir_witness :
  int_value (PyStr "2") = Some 2 /\
  0 <= 2 /\
  isdir (fs etc_state) (direc_backup store) = false /\
  rollback_checkpoints store (PyStr "2") etc_state = (Exc OSError, etc_state).
Proof.
  assert (H1 : int_value (PyStr "2") = Some 2) by reflexivity.
  assert (H2 : 0 <= 2) by lia.
  assert (H3 : isdir (fs etc_state) (direc_backup store) = false)
    by (vm_compute; reflexivity).
  repeat (split; [assumption |]).
  exact (rollback_without_backup_dir store (PyStr "2") 2 etc_state H1 H2 H3).
Defined.

(** *** The guard after a temporary staging *)

Lemma temp_staging_protects_witness :
  list_terminated (fs etc_state) (filepaths_of (direc_temp store)) = true /\
  add_to_temp_checkpoint store ["/etc/a.conf"] "temporary" etc_state
  = (Ok tt, temp_staged) /\
  "/etc/a.conf" ∈ ["/etc/a.conf"] /\
  line_safe "/etc/a.conf" = true /\
  "/etc/a.conf" ∈ ["/etc/b.conf"; "/etc/a.conf"] /\
  exists e,
    add_to_checkpoint store ["/etc/b.conf"; "/etc/a.conf"] "permanent" temp_staged
    = (Exc e, temp_staged) /\
    (list_readable (fs temp_staged) (new_files_of (direc_temp store)) = true ->
     exists g, g ∈ ["/etc/b.conf"; "/etc/a.conf"] /\
               g ∈ temp_protected store (fs temp_staged) /\
       e = LetsEncryptReverterError
             ("Attempting to overwrite challenge file - " +:+ g)).
Proof.
  assert (H1 : list_terminated (fs etc_state) (filepaths_of (direc_temp store))
               = true) by (vm_compute; reflexivity).
  assert (H2 : add_to_temp_checkpoint store ["/etc/a.conf"] "temporary" etc_state
               = (Ok tt, temp_staged)) by (vm_compute; reflexivity).
  assert (H3 : "/etc/a.conf" ∈ ["/etc/a.conf"])
    by (apply (bool_decide_unpack _); vm_compute; exact I).
  assert (H4 : line_safe "/etc/a.conf" = true) by reflexivity.
  assert (H5 : "/etc/a.conf" ∈ ["/etc/b.conf"; "/etc/a.conf"])
    by (apply (bool_decide_unpack _); vm_compute; exact I).
  repeat (split; [assumption |]).
  exact (temp_staging_protects store ["/etc/a.conf"]
           ["/etc/b.conf"; "/etc/a.conf"] "temporary" "permanent" "/etc/a.conf"
           etc_state temp_staged H1 H2 H3 H4 H5).
Defined.

(** *** Staging a file that is not there *)

Lemma staging_missing_file_aborts_witness :
  "/etc/missing.conf" ∈ ["/etc/a.conf"; "/etc/missing.conf"] /\
  ("/etc/missing.conf" ∉ listed "/le/progress" (fs etc_state)) /\
  in_tree "/le/progress" "/etc/missing.conf" = false /\
  isfile (fs etc_state) "/etc/missing.conf" = false /\
  (exists e,
     fst (_add_to_checkpoint_dir "/le/progress"
            ["/etc/a.conf"; "/etc/missing.conf"] "note" etc_state) = Exc e) /\
  fs (snd (_add_to_checkpoint_dir "/le/progress"
             ["/etc/a.conf"; "/etc/missing.conf"] "note" etc_state))
    !! changes_since_of "/le/progress"
  = fs etc_state !! changes_since_of "/le/progress".
Proof.
  assert (H1 : "/etc/missing.conf" ∈ ["/etc/a.conf"; "/etc/missing.conf"])
    by (apply (bool_decide_unpack _); vm_compute; exact I).
  assert (H2 : "/etc/missing.conf" ∉ listed "/le/progress" (fs etc_state))
    by (apply (bool_decide_unpack _); vm_compute; exact I).
  assert (H3 : in_tree "/le/progress" "/etc/missing.conf" = false)
    by reflexivity.
  assert (H4 : isfile (fs etc_state) "/etc/missing.conf" = false)
    by (vm_compute; reflexivity).
  repeat (split; [assumption |]).
  exact (staging_missing_file_aborts "/le/progress"
           ["/etc/a.conf"; "/etc/missing.conf"] "note" "/etc/missing.conf"
           etc_state H1 H2 H3 H4).
Defined.

(** The first file of that request was copied and listed all the same. *)
Lemma staging_missing_file_partial :
  fst (_add_to_checkpoint_dir "/le/progress"
         ["/etc/a.conf"; "/etc/missing.conf"] "note" etc_state) = Exc IOError /\
  listed "/le/progress"
    (fs (snd (_add_to_checkpoint_dir "/le/progress"
                ["/etc/a.conf"; "/etc/missing.conf"] "note" etc_state)))
  = ["/etc/a.conf"].
Proof. vm_compute. split; reflexivity. Qed.

(** *** A finalized checkpoint *)

Lemma finalize_moves_checkpoint_witness :
  finalizable store free_clock collision_state = true /\
  exists st',
    finalize_checkpoint store free_clock "title" collision_state = (Ok tt, st') /\
    log st' = log collision_state /\
    fs st' !! stamped store free_clock collision_state = Some Dir /\
    fs st' !! member (stamped store free_clock collision_state) "CHANGES_SINCE"
    = Some (File (title_line "title"
                  +:+ content_of (fs collision_state) (changes_since_path store))
              default_mode) /\
    (forall a, a <> "" -> a <> "CHANGES_SINCE" ->
               fs st' !! member (stamped store free_clock collision_state) a
               = fs collision_state !! member (direc_progress store) a) /\
    (forall p, in_tree (direc_progress store) p = true -> fs st' !! p = None) /\
    (forall p, in_tree (direc_progress store) p = false ->
               in_tree (stamped store free_clock collision_state) p = false ->
               fs st' !! p = fs collision_state !! p).
Proof.
  assert (H1 : finalizable store free_clock collision_state = true)
    by (vm_compute; reflexivity).
  split; [exact H1 |].
  exact (finalize_moves_checkpoint store free_clock "title" collision_state H1).
Defined.

(** The system with its backup directory; two files staged for the
    progress checkpoint, one of them changed before the checkpoint is
    finalized and again after. *)
Definition etc_with_backup : state :=
  set_fs etc_state (<["/le/backup" := Dir]> (fs etc_state)).

Definition progress_staged : state :=
  snd (_add_to_checkpoint_dir "/le/progress" ["/etc/a.conf"; "/etc/b.conf"]
         "notes" etc_with_backup).

Definition progress_edited : state :=
  edit "/etc/a.conf" "second text" progress_staged.

Definition finalized_edited : state :=
  edit "/etc/a.conf" "third text"
    (snd (finalize_checkpoint store free_clock "title" progress_edited)).

Lemma finalized_backup_restores_witness :
  fresh_dir (direc_progress store) (fs etc_with_backup) = true /\
  forallb (stageable (direc_progress store) (fs etc_with_backup))
    ["/etc/a.conf"; "/etc/b.conf"] = true /\
  _add_to_checkpoint_dir (direc_progress store) ["/etc/a.conf"; "/etc/b.conf"]
    "notes" etc_with_backup = (Ok tt, progress_staged) /\
  tree_of (direc_progress store) (fs progress_edited)
  = tree_of (direc_progress store) (fs progress_staged) /\
  finalizable store free_clock progress_edited = true /\
  forallb (fun f => negb (in_tree (stamped store free_clock progress_edited) f))
    ["/etc/a.conf"; "/etc/b.conf"] = true /\
  tree_of (stamped store free_clock progress_edited) (fs finalized_edited)
  = tree_of (stamped store free_clock progress_edited)
      (fs (snd (finalize_checkpoint store free_clock "title" progress_edited))) /\
  forallb (overwritable (fs finalized_edited)) ["/etc/a.conf"; "/etc/b.conf"]
  = true /\
  exists st3,
    fst (finalize_checkpoint store free_clock "title" progress_edited) = Ok tt /\
    _recover_checkpoint (stamped store free_clock progress_edited)
      finalized_edited = (Ok tt, st3) /\
    (forall f, f ∈ ["/etc/a.conf"; "/etc/b.conf"] ->
               fs st3 !! f = fs etc_with_backup !! f) /\
    (forall p, in_tree (stamped store free_clock progress_edited) p = true ->
               fs st3 !! p = None) /\
    (forall p, in_tree (stamped store free_clock progress_edited) p = false ->
               p ∉ ["/etc/a.conf"; "/etc/b.conf"] ->
               fs st3 !! p = fs finalized_edited !! p).
Proof.
  assert (H1 : fresh_dir (direc_progress store) (fs etc_with_backup) = true)
    by (vm_compute; reflexivity).
  assert (H2 : forallb (stageable (direc_progress store) (fs etc_with_backup))
                 ["/etc/a.conf"; "/etc/b.conf"] = true)
    by (vm_compute; reflexivity).
  assert (H3 : _add_to_checkpoint_dir (direc_progress store)
                 ["/etc/a.conf"; "/etc/b.conf"] "notes" etc_with_backup
               = (Ok tt, progress_staged)) by (vm_compute; reflexivity).
  assert (H4 : tree_of (direc_progress store) (fs progress_edited)
               = tree_of (direc_progress store) (fs progress_staged))
    by (vm_compute; reflexivity).
  assert (H5 : finalizable store free_clock progress_edited = true)
    by (vm_compute; reflexivity).
  assert (H6 : forallb (fun f => negb (in_tree (stamped store free_clock
                                                  progress_edited) f))
                 ["/etc/a.conf"; "/etc/b.conf"] = true)
    by (vm_compute; reflexivity).
  assert (H7 : tree_of (stamped store free_clock progress_edited)
                 (fs finalized_edited)
               = tree_of (stamped store free_clock progress_edited)
                   (fs (snd (finalize_checkpoint store free_clock "title"
                               progress_edited))))
    by (vm_compute; reflexivity).
  assert (H8 : forallb (overwritable (fs finalized_edited))
                 ["/etc/a.conf"; "/etc/b.conf"] = true)
    by (vm_compute; reflexivity).
  repeat (split; [assumption |]).
  exact (finalized_backup_restores store free_clock
           ["/etc/a.conf"; "/etc/b.conf"] "notes" "title"
           etc_with_backup progress_staged progress_edited finalized_edited
           H1 H2 H3 H4 H5 H6 H7 H8).
Defined.

(** The rollback of one checkpoint does that recovery: the files are back
    and no backup is left. *)
Lemma rollback_after_finalize :
  fst (rollback_checkpoints store (PyInt 1) finalized_edited) = Ok tt /\
  fs (snd (rollback_checkpoints store (PyInt 1) finalized_edited))
  = fs etc_with_backup.
Proof. vm_compute. split; reflexivity. Qed.

(** *** Viewing the backups *)

(** Stand-ins for [float], [time.ctime] and [str] of an error: a name of
    digits and dots is a number, every time prints alike. *)
Fixpoint numeric (s : string) : bool :=
  match s with
  | "" => true
  | String c s' => (is_digit c || Ascii.eqb c ".") && numeric s'
  end.

Definition toy_float (s : string) : option float :=
  if numeric s && negb (String.eqb s "") then Some 0%float else None.

Definition toy_ctime (t : float) : string := "Thu Jan  1 00:00:00 1970".

Definition toy_str_err (e : exn) : string := "error".

(** The backups of before and a stray directory among them. *)
Definition backups_and_stray : state :=
  set_fs backups_state (<["/le/backup/stray" := Dir]> (fs backups_state)).

Lemma view_config_changes_rejects_names_witness :
  isdir (fs backups_and_stray) (direc_backup store) = true /\
  "stray" ∈ entries (fs backups_and_stray) (direc_backup store) /\
  toy_float "stray" = None /\
  view_config_changes store toy_float toy_ctime toy_str_err [] backups_and_stray
  = (Exc (LetsEncryptReverterError
            ("Invalid directories in " +:+ direc_backup store)),
     ([], backups_and_stray)).
Proof.
  assert (H1 : isdir (fs backups_and_stray) (direc_backup store) = true)
    by (vm_compute; reflexivity).
  assert (H2 : "stray" ∈ entries (fs backups_and_stray) (direc_backup store))
    by (apply (bool_decide_unpack _); vm_compute; exact I).
  assert (H3 : toy_float "stray" = None) by reflexivity.
  repeat (split; [assumption |]).
  exact (view_config_changes_rejects_names store toy_float toy_ctime
           toy_str_err "stray" [] backups_and_stray H1 H2 H3).
Defined.


(** What is printed for those three backups. *)
Lemma view_three_backups :
  fst (snd (view_config_changes store toy_float toy_ctime toy_str_err []
              backups_state))
  = ["Thu Jan  1 00:00:00 1970"; "third"; "Affected files:"; "  /etc/a.conf";
     "New Configuration Files:"; "  /etc/c.conf"; nl;
     "Thu Jan  1 00:00:00 1970"; "second"; "Affected files:"; "  /etc/b.conf";
     nl;
     "Thu Jan  1 00:00:00 1970"; "first"; "Affected files:"; "  /etc/a.conf";
     nl].
Proof. vm_compute. reflexivity. Qed.

(** *** The guard with nothing to protect *)

Lemma add_to_checkpoint_no_conflict_witness :
  list_readable (fs temp_staged) (filepaths_of (direc_temp store)) = true /\
  list_readable (fs temp_staged) (new_files_of (direc_temp store)) = true /\
  (forall f, f ∈ ["/etc/b.conf"] -> f ∉ temp_protected store (fs temp_staged)) /\
  add_to_checkpoint store ["/etc/b.conf"] "permanent" temp_staged
  = _add_to_checkpoint_dir (direc_progress store) ["/etc/b.conf"] "permanent"
      temp_staged.
Proof.
  assert (H1 : list_readable (fs temp_staged) (filepaths_of (direc_temp store))
               = true) by (vm_compute; reflexivity).
  assert (H2 : list_readable (fs temp_staged) (new_files_of (direc_temp store))
               = true) by (vm_compute; reflexivity).
  assert (H3 : forall f, f ∈ ["/etc/b.conf"] ->
                         f ∉ temp_protected store (fs temp_staged)).
  { intros f ->%list_elem_of_singleton.
    apply (bool_decide_unpack _). vm_compute. exact I. }
  repeat (split; [assumption |]).
  exact (add_to_checkpoint_no_conflict store ["/etc/b.conf"] "permanent"
           temp_staged H1 H2 H3).
Defined.

(** *** Calls that are repeated *)

Lemma recovery_routine_idempotent_witness :
  recovery_routine store interrupted
  = (Ok tt, snd (recovery_routine store interrupted)) /\
  recovery_routine store (snd (recovery_routine store interrupted))
  = (Ok tt, snd (recovery_routine store interrupted)).
Proof.
  assert (H1 : recovery_routine store interrupted
               = (Ok tt, snd (recovery_routine store interrupted)))
    by (vm_compute; reflexivity).
  split; [exact H1 |].
  exact (recovery_routine_idempotent store interrupted _ H1).
Defined.

Lemma finalize_twice_promotes_once_witness :
  finalizable store free_clock collision_state = true /\
  exists st',
    finalize_checkpoint store free_clock "title" collision_state = (Ok tt, st') /\
    isdir (fs st') (direc_progress store) = false /\
    finalize_checkpoint store free_clock "again" st' = (Ok tt, st').
Proof.
  assert (H1 : finalizable store free_clock collision_state = true)
    by (vm_compute; reflexivity).
  split; [exact H1 |].
  exact (finalize_twice_promotes_once store free_clock "title" "again"
           collision_state H1).
Defined.

Lemma finalize_stuck_keeps_title_witness :
  isdir (fs collision_state) (direc_progress store) = true /\
  readable_file (fs collision_state) (changes_since_path store) = true /\
  fresh_dir (changes_since_tmp_path store) (fs collision_state) = true /\
  Forall (fun d => d <> direc_progress store /\
                   taken (titled store "title" (fs collision_state)) d = true)
         (candidates store stopped_clock 10 (clock collision_state)) /\
  finalize_checkpoint store stopped_clock "title" collision_state
  = stuck store stopped_clock
      (set_fs collision_state (titled store "title" (fs collision_state))).
Proof.
  assert (H1 : isdir (fs collision_state) (direc_progress store) = true)
    by (vm_compute; reflexivity).
  assert (H2 : readable_file (fs collision_state) (changes_since_path store)
               = true) by (vm_compute; reflexivity).
  assert (H3 : fresh_dir (changes_since_tmp_path store) (fs collision_state)
               = true) by (vm_compute; reflexivity).
  assert (H4 : Forall (fun d => d <> direc_progress store /\
                                taken (titled store "title" (fs collision_state)) d
                                = true)
                 (candidates store stopped_clock 10 (clock collision_state))).
  { repeat constructor; (discriminate || (vm_compute; reflexivity)). }
  repeat (split; [assumption |]).
  exact (finalize_stuck_keeps_title store stopped_clock "title" collision_state
           H1 H2 H3 H4).
Defined.

(** Two failed attempts leave two title lines. *)
Lemma finalize_stuck_twice :
  fs (snd (finalize_checkpoint store stopped_clock "title"
             (snd (finalize_checkpoint store stopped_clock "title"
                     collision_state))))
    !! "/le/progress/CHANGES_SINCE"
  = Some (File ("-- title --" +:+ nl +:+ "-- title --" +:+ nl +:+ "notes") 420).
Proof. vm_compute. reflexivity. Qed.
